(** * Bonfire Hub harvest pipeline: a shallow embedding of [src/src/scraper.py]

    The development follows the source file top-down: the values that
    [json.loads] produces, the helper functions [calculate_days_remaining]
    and [extract_json_from_page], then the methods of [BonfireScraper]
    ([login], [fetch_agencies], [scrape_open_opportunities],
    [scrape_past_opportunities], [scrape_all_opportunities],
    [_save_progress]) written in a small state-and-exception monad over an
    explicit description of the browser's answers. *)

From Stdlib Require Import ZArith Ascii String.
From stdpp Require Import gmap strings list pretty sorting.

Set Warnings "-register-all".

Local Open Scope string_scope.
Local Open Scope nat_scope.
Local Open Scope list_scope.
Local Open Scope stdpp_scope.

(** ** Python values

    The values handled by the scraper are those that [json.loads] returns:
    [None], booleans, integers, strings, lists and dictionaries.  A
    dictionary is kept as the list of its items in insertion order.  JSON
    numbers with a fraction or an exponent (Python floats) are outside the
    model.  A string is a sequence of characters with code below 256. *)

Inductive json : Type :=
  | JNull
  | JBool (b : bool)
  | JNum (n : Z)
  | JStr (s : string)
  | JArr (items : list json)
  | JObj (fields : list (string * json)).

(** [bool(v)] *)
Definition truthy (v : json) : bool :=
  match v with
  | JNull => false
  | JBool b => b
  | JNum n => negb (n =? 0)%Z
  | JStr s => negb (String.eqb s "")
  | JArr items => match items with [] => false | _ => true end
  | JObj fields => match fields with [] => false | _ => true end
  end.

Fixpoint assoc_get (fields : list (string * json)) (k : string) : option json :=
  match fields with
  | [] => None
  | (k', v) :: rest => if String.eqb k' k then Some v else assoc_get rest k
  end.

(** [d.get(k, dflt)] on a dictionary *)
Definition dict_get (fields : list (string * json)) (k : string) (dflt : json) : json :=
  match assoc_get fields k with
  | Some v => v
  | None => dflt
  end.

(** [v.get(k, dflt)] on any value: [None] stands for the [AttributeError]
    raised when [v] is not a dictionary. *)
Definition py_get (v : json) (k : string) (dflt : json) : option json :=
  match v with
  | JObj fields => Some (dict_get fields k dflt)
  | _ => None
  end.

(** ** [calculate_days_remaining]

    [datetime.strptime(s, "%Y-%m-%d %H:%M:%S")].  The standard library turns
    the format into the regular expression
    [(\d\d\d\d)-(1[0-2]|0[1-9]|[1-9])-(3[0-1]|[1-2]\d|0[1-9]|[1-9]| [1-9])\s+(2[0-3]|[0-1]\d|\d):([0-5]\d|\d):(6[0-1]|[0-5]\d|\d)],
    matches it at the start of the text, rejects text left over, and builds
    a [datetime], which rejects a year 0, a day the month does not have and
    a second above 59.  Each field is followed by a separator that is not a
    digit, so the first alternative that matches is the one the whole match
    uses.  A naive [datetime] is represented by the number of microseconds
    since 0001-01-01 00:00:00. *)

Local Open Scope Z_scope.

Definition parser (A : Type) : Type := string -> option (A * string).

Definition digit_val (c : ascii) : option Z :=
  let n := Z.of_nat (nat_of_ascii c) in
  if (48 <=? n) && (n <=? 57) then Some (n - 48) else None.

(** [\s] on code points below 256 *)
Definition is_space (c : ascii) : bool :=
  let n := Z.of_nat (nat_of_ascii c) in
  ((9 <=? n) && (n <=? 13)) || ((28 <=? n) && (n <=? 32))
  || (n =? 133) || (n =? 160).

Definition one_digit (ok : Z -> bool) : parser Z := fun s =>
  match s with
  | String a rest =>
      match digit_val a with
      | Some x => if ok x then Some (x, rest) else None
      | None => None
      end
  | EmptyString => None
  end.

Definition two_digits (ok : Z -> Z -> bool) : parser Z := fun s =>
  match s with
  | String a (String b rest) =>
      match digit_val a, digit_val b with
      | Some x, Some y => if ok x y then Some (10 * x + y, rest) else None
      | _, _ => None
      end
  | _ => None
  end.

(** [p|q] *)
Definition alt {A} (p q : parser A) : parser A := fun s =>
  match p s with
  | Some r => Some r
  | None => q s
  end.

Definition lit (c : ascii) : parser unit := fun s =>
  match s with
  | String a rest => if Ascii.eqb a c then Some (tt, rest) else None
  | EmptyString => None
  end.

Fixpoint skip_spaces (s : string) : string :=
  match s with
  | String a rest => if is_space a then skip_spaces rest else s
  | EmptyString => s
  end.

(** [\s+] *)
Definition spaces1 : parser unit := fun s =>
  match s with
  | String a rest => if is_space a then Some (tt, skip_spaces rest) else None
  | EmptyString => None
  end.

Definition any1 (_ : Z) : bool := true.

Definition re_Y : parser Z := fun s =>
  match two_digits (fun _ _ => true) s with
  | Some (hi, rest) =>
      match two_digits (fun _ _ => true) rest with
      | Some (lo, rest') => Some (100 * hi + lo, rest')
      | None => None
      end
  | None => None
  end.

Definition re_m : parser Z :=
  alt (two_digits (fun x y => (x =? 1) && (y <=? 2)))
 (alt (two_digits (fun x y => (x =? 0) && (1 <=? y)))
      (one_digit (fun x => 1 <=? x))).

Definition re_d : parser Z :=
  alt (two_digits (fun x y => (x =? 3) && (y <=? 1)))
 (alt (two_digits (fun x _ => (1 <=? x) && (x <=? 2)))
 (alt (two_digits (fun x y => (x =? 0) && (1 <=? y)))
 (alt (one_digit (fun x => 1 <=? x))
      (fun s => match lit " " s with
                | Some (_, rest) => one_digit (fun x => 1 <=? x) rest
                | None => None
                end)))).

Definition re_H : parser Z :=
  alt (two_digits (fun x y => (x =? 2) && (y <=? 3)))
 (alt (two_digits (fun x _ => x <=? 1))
      (one_digit any1)).

Definition re_M : parser Z :=
  alt (two_digits (fun x _ => x <=? 5)) (one_digit any1).

Definition re_S : parser Z :=
  alt (two_digits (fun x y => (x =? 6) && (y <=? 1)))
 (alt (two_digits (fun x _ => x <=? 5))
      (one_digit any1)).

Definition is_leap (y : Z) : bool :=
  ((y mod 4 =? 0) && negb (y mod 100 =? 0)) || (y mod 400 =? 0).

Definition days_in_month (y m : Z) : Z :=
  if m =? 2 then (if is_leap y then 29 else 28)
  else if (m =? 4) || (m =? 6) || (m =? 9) || (m =? 11) then 30
  else 31.

Definition days_before_year (y : Z) : Z :=
  let p := y - 1 in p * 365 + p / 4 - p / 100 + p / 400.

Fixpoint days_before_month_aux (y : Z) (k : nat) : Z :=
  match k with
  | O => 0
  | S k' => days_before_month_aux y k' + days_in_month y (Z.of_nat k)
  end.

(** days of year [y] before the first of month [m] *)
Definition days_before_month (y m : Z) : Z :=
  days_before_month_aux y (Z.to_nat (m - 1)).

Definition us_per_second : Z := 1000000.
Definition us_per_day : Z := 86400 * us_per_second.

(** [datetime(Y, m, d, H, M, S)], [None] for the constructor's [ValueError] *)
Definition make_datetime (Y m d H M sec : Z) : option Z :=
  if (1 <=? Y) && (Y <=? 9999) && (1 <=? m) && (m <=? 12)
     && (1 <=? d) && (d <=? days_in_month Y m)
     && (0 <=? H) && (H <=? 23) && (0 <=? M) && (M <=? 59)
     && (0 <=? sec) && (sec <=? 59)
  then
    let ordinal := days_before_year Y + days_before_month Y m + d in
    Some ((ordinal - 1) * us_per_day
          + ((H * 60 + M) * 60 + sec) * us_per_second)
  else None.

(** [None] stands for [ValueError]. *)
Definition strptime (s : string) : option Z :=
  match re_Y s with None => None | Some (Y, s1) =>
  match lit "-" s1 with None => None | Some (_, s2) =>
  match re_m s2 with None => None | Some (m, s3) =>
  match lit "-" s3 with None => None | Some (_, s4) =>
  match re_d s4 with None => None | Some (d, s5) =>
  match spaces1 s5 with None => None | Some (_, s6) =>
  match re_H s6 with None => None | Some (H, s7) =>
  match lit ":" s7 with None => None | Some (_, s8) =>
  match re_M s8 with None => None | Some (M, s9) =>
  match lit ":" s9 with None => None | Some (_, s10) =>
  match re_S s10 with None => None | Some (sec, s11) =>
  match s11 with
  | EmptyString => make_datetime Y m d H M sec
  | String _ _ => None               (* unconverted data remains *)
  end end end end end end end end end end end end.

(** Lines 121-125: the deadline is parsed and the clock has been read. *)
Definition days_left (deadline now_ : Z) : Z :=
  if deadline <=? now_ then 0
  else (deadline - now_) / us_per_day.          (* delta.days *)

Local Close Scope Z_scope.

(** ** [extract_json_from_page]

    [re.search(r'<pre>(.+?)</pre>', page_content, re.DOTALL)]: the pattern
    is tried at each position from the left; at a position that starts with
    the opening tag, [.+?] takes at least one character (any character,
    newlines included) and then as few as possible before the closing tag. *)

Fixpoint starts_with (p s : string) : bool :=
  match p, s with
  | EmptyString, _ => true
  | String _ _, EmptyString => false
  | String a p', String b s' => if Ascii.eqb a b then starts_with p' s' else false
  end.

Fixpoint drop_chars (n : nat) (s : string) : string :=
  match n, s with
  | O, _ => s
  | S _, EmptyString => EmptyString
  | S n', String _ s' => drop_chars n' s'
  end.

Definition open_tag : string := "<pre>".
Definition close_tag : string := "</pre>".

(** [(.+?)</pre>] matched at the start of [s]; the result is group 1. *)
Fixpoint lazy_group (s : string) : option string :=
  match s with
  | EmptyString => None
  | String c rest =>
      if starts_with close_tag rest then Some (String c EmptyString)
      else match lazy_group rest with
           | Some g => Some (String c g)
           | None => None
           end
  end.

(** [re.search] of the whole pattern; the result is [match.group(1)]. *)
Fixpoint re_search_pre (s : string) : option string :=
  match s with
  | EmptyString => None
  | String _ rest =>
      if starts_with open_tag s then
        match lazy_group (drop_chars 5 s) with
        | Some g => Some g
        | None => re_search_pre rest
        end
      else re_search_pre rest
  end.

(** What [json.loads] does with a text: it returns a value, or raises
    [json.JSONDecodeError], or raises another exception ([RecursionError]
    on a text nested too deep, [ValueError] on an integer with too many
    digits). *)
Inductive loads_result : Type :=
  | Decoded (v : json)
  | JSONDecodeError
  | OtherError.

Section Extractor.

(** [json.loads] is the standard library's. *)
Variable json_loads : string -> loads_result.

(** The function returns Python's [None] both when nothing was found and
    when the payload itself is the JSON value [null].  Line 136 catches
    [json.JSONDecodeError] only: [None] of the model stands for any other
    exception of [json.loads], which leaves the function. *)
Definition extract_json_from_page (page_content : string) : option json :=
  match re_search_pre page_content with
  | Some group1 =>
      match json_loads group1 with
      | Decoded v => Some v
      | JSONDecodeError => Some JNull   (* except json.JSONDecodeError: warning *)
      | OtherError => None
      end
  | None => Some JNull
  end.

End Extractor.

(** ** Configuration ([config/settings.py]) *)

Module settings.
Definition AGENCIES_PER_LETTER : nat := 5.
Definition TARGET_LETTERS : list string := ["D"; "G"; "J"; "L"].
Definition PAGE_LIMIT : nat := 80.
Definition MAX_RETRIES : nat := 3.
Definition LOGIN_URL : string := "https://account.bonfirehub.com/login".
Definition ORGANIZATIONS_API : string :=
  "https://common-production-api-global.bonfirehub.com/v1.0/organizations/searchByLocation".
End settings.

(** ** Records built by the scraper

    [agency] is the dictionary [{"agency_name": .., "agency_url": ..}].  The
    opportunity dictionaries have the keys ["Status"], ["Refference"],
    ["Project Name"], ["Closed Date"] and, for the open feed,
    ["Number of days Left"]; the per-agency results have the keys
    ["Agency <Open|Past> Public Opportunity Url"], ["Agency Name"] and
    ["Agency <Open|Past> Public Opportunities"]. *)

Record agency : Type := {
  agency_name : json;
  agency_url : string
}.

Record open_opp : Type := {
  open_status : string;
  open_reference : json;
  open_project_name : json;
  open_closed_date : json;
  open_days_left : Z
}.

Record past_opp : Type := {
  past_status : string;
  past_reference : json;
  past_project_name : json;
  past_closed_date : json
}.

Record open_result : Type := {
  open_url : string;
  open_agency_name : json;
  open_opportunities : list open_opp
}.

Record past_result : Type := {
  past_url : string;
  past_agency_name : json;
  past_opportunities : list past_opp
}.

(** ** The browser, the clock and the effects of a run

    Every answer of the outside world is indexed by the number of browser
    calls (or clock readings) made before it, so a [world] fixes one
    possible behaviour of the portal over a whole run. *)

Inductive query_result : Type :=
  | QRaise            (* the call raised *)
  | QNone             (* no element within the timeout *)
  | QElement.         (* an element *)

Record world : Type := {
  (* [tab.go_to(url)] followed by [tab.page_source]; [None]: one of them raised *)
  page_of : nat -> string -> option string;
  (* [tab.go_to(url)] alone; [false]: it raised *)
  goto_ok : nat -> string -> bool;
  (* [tab.query(selector, timeout=.., raise_exc=False)] *)
  query_of : nat -> string -> query_result;
  (* [element.type_text(text)]; [false]: it raised *)
  type_text_ok : nat -> string -> bool;
  (* [element.click()]; [false]: it raised *)
  click_ok : nat -> bool;
  (* [datetime.now()] *)
  clock : nat -> Z
}.

Inductive delay : Type :=
  | REQUEST_DELAY
  | Seconds (n : nat).

Inductive event : Type :=
  | EvFetch (url : string)
  | EvGoTo (url : string)
  | EvQuery (selector : string) (timeout : nat)
  | EvTypeText (text : string)
  | EvClick
  | EvSleep (d : delay)
  | EvMakedirs
  | EvWriteOpen (snapshot : list open_result)
  | EvWritePast (snapshot : list past_result)
  (* the file was opened for writing, which empties it, and [json.dump]
     raised before the end: the file holds the beginning of the text of
     [snapshot] only *)
  | EvCutOpen (snapshot : list open_result)
  | EvCutPast (snapshot : list past_result).

Record state : Type := {
  calls : nat;            (* browser calls made so far *)
  clock_reads : nat;      (* clock readings made so far *)
  log : list event        (* effects so far, oldest first *)
}.

Definition initial_state : state :=
  {| calls := 0; clock_reads := 0; log := [] |}.

Inductive result (A : Type) : Type :=
  | Ret (a : A)
  | Raise.
Arguments Ret {A} a.
Arguments Raise {A}.

Definition M (A : Type) : Type := state -> result A * state.

Definition ret {A} (a : A) : M A := fun s => (Ret a, s).

Definition bind {A B} (m : M A) (k : A -> M B) : M B := fun s =>
  match m s with
  | (Ret a, s') => k a s'
  | (Raise, s') => (Raise, s')
  end.

Notation "x <- m ;; k" := (bind m (fun x => k))
  (at level 200, m at level 99, k at level 200, right associativity).
Notation "'run' m ;; k" := (bind m (fun _ => k))
  (at level 10, m at level 99, k at level 200).

Definition raise {A} : M A := fun s => (Raise, s).

(** [try: body except Exception: handler] *)
Definition try_catch {A} (body handler : M A) : M A := fun s =>
  match body s with
  | (Ret a, s') => (Ret a, s')
  | (Raise, s') => handler s'
  end.

Definition of_option {A} (o : option A) : M A :=
  match o with
  | Some a => ret a
  | None => raise
  end.

Definition emit (e : event) : M unit := fun s =>
  (Ret tt, {| calls := calls s; clock_reads := clock_reads s; log := log s ++ [e] |}).

Definition browser_call {A} (e : event) (answer : nat -> option A) : M A := fun s =>
  let s' := {| calls := S (calls s); clock_reads := clock_reads s;
               log := log s ++ [e] |} in
  match answer (calls s) with
  | Some a => (Ret a, s')
  | None => (Raise, s')
  end.

Definition sleep (d : delay) : M unit := emit (EvSleep d).

Section Browser.

Variable w : world.

Definition fetch (url : string) : M string :=
  browser_call (EvFetch url) (fun n => page_of w n url).

Definition go_to (url : string) : M unit :=
  browser_call (EvGoTo url)
    (fun n => if goto_ok w n url then Some tt else None).

(** The result is the truth value of the element returned. *)
Definition query (selector : string) (timeout : nat) : M bool :=
  browser_call (EvQuery selector timeout)
    (fun n => match query_of w n selector with
              | QRaise => None
              | QNone => Some false
              | QElement => Some true
              end).

Definition type_text (text : string) : M unit :=
  browser_call (EvTypeText text)
    (fun n => if type_text_ok w n text then Some tt else None).

Definition click : M unit :=
  browser_call EvClick (fun n => if click_ok w n then Some tt else None).

Definition now : M Z := fun s =>
  (Ret (clock w (clock_reads s)),
   {| calls := calls s; clock_reads := S (clock_reads s); log := log s |}).

(** [calculate_days_remaining]: the clock is read once the text has been
    parsed.  A value that is not a string makes [strptime] raise
    [TypeError], which the handler turns into 0 like [ValueError]. *)
Definition calculate_days_remaining (deadline_str : json) : M Z :=
  match deadline_str with
  | JStr s =>
      match strptime s with
      | Some deadline => now_ <- now ;; ret (days_left deadline now_)
      | None => ret 0%Z
      end
  | _ => ret 0%Z
  end.

End Browser.

(** ** [BonfireScraper] *)

Inductive loop_exit (A : Type) : Type :=
  | Finished (a : A)        (* the [while] loop was left *)
  | OutOfFuel (a : A).      (* the iteration budget of the model ran out *)
Arguments Finished {A} a.
Arguments OutOfFuel {A} a.

Definition exit_value {A} (r : loop_exit A) : A :=
  match r with Finished a => a | OutOfFuel a => a end.

Section Scraper.

(** Standard-library functions that are not embedded: [json.loads],
    [str.upper] and the [str()] of a list or dictionary. *)
Variable json_loads : string -> loads_result.
Variable str_upper : string -> string.
Variable container_repr : json -> string.

(** Whether [json.dump(v, f, ensure_ascii=False)] into a file opened with
    the encoding UTF-8 returns.  It raises [UnicodeEncodeError] for a value
    that holds a text with a lone surrogate, which [json.loads] accepts
    from the portal; the texts of the model have no such character, so the
    property is a parameter of the values. *)
Variable writable : json -> bool.

Variable w : world.

(** Settings; [settings] above holds the values of [config/settings.py]. *)
Variable TARGET_LETTERS : list string.
Variable AGENCIES_PER_LETTER : nat.
Variable MAX_RETRIES : nat.
Variable PAGE_LIMIT : nat.
Variable ORGANIZATIONS_API : string.
Variable LOGIN_URL : string.

(** [str(v)], which is also what an f-string inserts for [{v}] *)
Definition py_str (v : json) : string :=
  match v with
  | JNull => "None"
  | JBool true => "True"
  | JBool false => "False"
  | JNum n => pretty n
  | JStr s => s
  | JArr _ | JObj _ => container_repr v
  end.

(** [v[0]]: [None] stands for [IndexError], [KeyError] or [TypeError]. *)
Definition py_index0 (v : json) : option json :=
  match v with
  | JStr (String c _) => Some (JStr (String c EmptyString))
  | JArr (x :: _) => Some x
  | _ => None
  end.

(** [v.upper()]: [None] stands for [AttributeError]. *)
Definition py_upper (v : json) : option string :=
  match v with
  | JStr s => Some (str_upper s)
  | _ => None
  end.

(** [for x in v]: the items visited, [None] for the [TypeError] of a value
    that cannot be iterated. *)
Definition py_iter (v : json) : option (list json) :=
  match v with
  | JArr items => Some items
  | JObj fields => Some (map (fun kv => JStr (fst kv)) fields)
  | JStr s => Some (map (fun c => JStr (String c EmptyString)) (list_ascii_of_string s))
  | _ => None
  end.

(** *** [login] *)

Variable email password : string.

Definition password_selectors : list string :=
  ["input#password"; "input[type='password']"; "//input[@type='password']"].

(** The [for selector in password_selectors] loop; the result is the truth
    value of [pswd_field] when the loop is left. *)
Fixpoint find_password_field (selectors : list string) : M bool :=
  match selectors with
  | [] => ret false
  | selector :: rest =>
      pswd_field <- query w selector 5 ;;
      if pswd_field then ret true else find_password_field rest
  end.

(** The [try] block of [login], lines 194-252 *)
Definition login_try : M bool :=
  run go_to w LOGIN_URL ;;
  email_field <- query w "input#input-email" 10 ;;
  if negb email_field then ret false else
  run type_text w email ;;
  continue_btn <- query w "//button[@type='submit']" 10 ;;
  if negb continue_btn then ret false else
  run click w ;;
  run sleep (Seconds 3) ;;
  pswd_field <- find_password_field password_selectors ;;
  if negb pswd_field then ret false else
  run type_text w password ;;
  login_btn <- query w "//button[@type='submit']" 10 ;;
  run (if login_btn then run click w ;; sleep (Seconds 5) else ret tt) ;;
  ret true.

(** [except Exception: ... return False] *)
Definition login : M bool := try_catch login_try (ret false).

(** *** [fetch_agencies] *)

Definition page_url (page_num : nat) : string :=
  ORGANIZATIONS_API +:+ "?page=" +:+ pretty page_num
    +:+ "&limit=" +:+ pretty PAGE_LIMIT.

(** [{letter: [] for letter in TARGET_LETTERS}] *)
Definition empty_buckets : gmap string (list agency) :=
  foldl (fun m letter => <[letter := []]> m) ∅ TARGET_LETTERS.

(** [len(agencies_by_letter[l])]; the key is always present (lemma
    [bucket_keys] below), so the [KeyError] branch is not reachable. *)
Definition bucket (by_letter : gmap string (list agency)) (l : string) : list agency :=
  default [] (by_letter !! l).

Definition all_full (by_letter : gmap string (list agency)) : bool :=
  forallb (fun l => (AGENCIES_PER_LETTER <=? length (bucket by_letter l))%nat)
          TARGET_LETTERS.

(** The body of [for org in json_data], lines 310-329.  Every exception is
    caught by the handler of the loop body, which only logs; the bucket
    is changed by the last statement before the log call, so a caught
    exception leaves [agencies_by_letter] as it was. *)
Definition process_org (by_letter : gmap string (list agency)) (org : json)
  : gmap string (list agency) :=
  match py_get org "OrganizationName" (JStr "") with
  | None => by_letter
  | Some name =>
  match py_get org "Domain" (JStr "") with
  | None => by_letter
  | Some domain =>
      if negb (truthy name) || negb (truthy domain) then by_letter  (* continue *)
      else
        match py_index0 name with
        | None => by_letter
        | Some first_char =>
        match py_upper first_char with
        | None => by_letter
        | Some first_letter =>
            if bool_decide (first_letter ∈ TARGET_LETTERS) then
              match by_letter !! first_letter with
              | None => by_letter                              (* KeyError *)
              | Some agencies =>
                  if (length agencies <? AGENCIES_PER_LETTER)%nat then
                    let agency_data :=
                      {| agency_name := name;
                         agency_url := "https://" +:+ py_str domain |} in
                    <[first_letter := agencies ++ [agency_data]]> by_letter
                  else by_letter
              end
            else by_letter
        end
        end
  end
  end.

(** [isinstance(json_data, dict) and json_data.get("message")] *)
Definition is_error_response (json_data : json) : bool :=
  match json_data with
  | JObj fields => truthy (dict_get fields "message" JNull)
  | _ => false
  end.

(** The [try] body of one attempt, lines 293-331.  Every path that does
    not raise ends in [break]; the value is [(reached_end,
    agencies_by_letter)].  An exception that leaves
    [extract_json_from_page] is raised here, inside the [try]. *)
Definition page_attempt (url : string) (by_letter : gmap string (list agency))
  : M (bool * gmap string (list agency)) :=
  page_content <- fetch w url ;;
  json_data <- of_option (extract_json_from_page json_loads page_content) ;;
  if negb (truthy json_data) then ret (true, by_letter)
  else if is_error_response json_data then ret (true, by_letter)
  else
    orgs <- of_option (py_iter json_data) ;;
    ret (false, foldl process_org by_letter orgs).

(** [for attempt in range(MAX_RETRIES)], with [n] attempts left *)
Fixpoint page_attempts (n : nat) (url : string)
    (by_letter : gmap string (list agency))
  : M (bool * gmap string (list agency)) :=
  match n with
  | O => ret (false, by_letter)
  | S n' =>
      try_catch (page_attempt url by_letter)
        (run sleep REQUEST_DELAY ;; page_attempts n' url by_letter)
  end.

(** [while not reached_end], with [fuel] bounding the iterations *)
Fixpoint fetch_loop (fuel page_num : nat) (by_letter : gmap string (list agency))
  : M (loop_exit (gmap string (list agency))) :=
  match fuel with
  | O => ret (OutOfFuel by_letter)
  | S fuel' =>
      if all_full by_letter then ret (Finished by_letter)      (* break *)
      else
        r <- page_attempts MAX_RETRIES (page_url page_num) by_letter ;;
        let '(reached_end, by_letter') := r in
        if reached_end then ret (Finished by_letter')
        else fetch_loop fuel' (page_num + 1)%nat by_letter'
  end.

(** Lines 340-342 *)
Definition select_agencies (by_letter : gmap string (list agency)) : list agency :=
  foldl (fun selected letter =>
           selected ++ take AGENCIES_PER_LETTER (bucket by_letter letter))
        [] TARGET_LETTERS.

Definition fetch_agencies (fuel : nat) : M (loop_exit (list agency)) :=
  run sleep (Seconds 40) ;;
  r <- fetch_loop fuel 1 empty_buckets ;;
  ret (match r with
       | Finished by_letter => Finished (select_agencies by_letter)
       | OutOfFuel by_letter => OutOfFuel (select_agencies by_letter)
       end).

(** *** [scrape_open_opportunities] *)

(** Lines 383-392: [json_data.get("payload", {}).get("projects", {})]
    and its normalisation to a sequence; [None] stands for the
    [AttributeError] of a [.get] on a value that is not a dictionary. *)
Definition project_items (json_data : json) : option (list json) :=
  match py_get json_data "payload" (JObj []) with
  | None => None
  | Some payload =>
      match py_get payload "projects" (JObj []) with
      | None => None
      | Some projects =>
          Some (match projects with
                | JObj fields => map snd fields        (* projects.values() *)
                | JArr items => items
                | _ => []
                end)
      end
  end.

(** [for proj_data in project_items], lines 394-409 *)
Fixpoint open_opps_loop (items : list json) (opportunities : list open_opp)
  : M (list open_opp) :=
  match items with
  | [] => ret opportunities
  | proj_data :: rest =>
      match proj_data with
      | JObj fields =>
          let closed_date := dict_get fields "DateClose" (JStr "") in
          number_of_days_left <-
            (if truthy closed_date then calculate_days_remaining w closed_date
             else ret 0%Z) ;;
          let opp :=
            {| open_status := "Open";
               open_reference := dict_get fields "ReferenceID" (JStr "");
               open_project_name := dict_get fields "ProjectName" (JStr "");
               open_closed_date := closed_date;
               open_days_left := number_of_days_left |} in
          open_opps_loop rest (opportunities ++ [opp])
      | _ => open_opps_loop rest opportunities          (* continue *)
      end
  end.

(** The [try] body of one attempt: [None] is [continue] (no data found),
    [Some opportunities] is the assignment to the result followed by
    [break]. *)
Definition open_attempt (api_url : string) : M (option (list open_opp)) :=
  page_content <- fetch w api_url ;;
  json_data <- of_option (extract_json_from_page json_loads page_content) ;;
  if negb (truthy json_data) then ret None
  else
    items <- of_option (project_items json_data) ;;
    opportunities <- open_opps_loop items [] ;;
    ret (Some opportunities).

(** [for attempt in range(MAX_RETRIES)], with [n] attempts left; the
    handler only logs, so a caught exception goes on to the next attempt
    like [continue]. *)
Fixpoint open_attempts (n : nat) (api_url : string) (result : open_result)
  : M open_result :=
  match n with
  | O => ret result
  | S n' =>
      r <- try_catch (open_attempt api_url) (ret None) ;;
      match r with
      | Some opportunities =>
          ret {| open_url := open_url result;
                 open_agency_name := open_agency_name result;
                 open_opportunities := opportunities |}
      | None => open_attempts n' api_url result
      end
  end.

Definition open_api_url (a : agency) : string :=
  agency_url a +:+ "/PublicPortal/getOpenPublicOpportunitiesSectionData".

Definition scrape_open_opportunities (a : agency) : M open_result :=
  let result :=
    {| open_url := agency_url a +:+ "/portal/?tab=openOpportunities";
       open_agency_name := agency_name a;
       open_opportunities := [] |} in
  open_attempts MAX_RETRIES (open_api_url a) result.

(** *** [scrape_past_opportunities] *)

Definition status_map : gmap string string :=
  {[ "1" := "Closed"; "2" := "Cancelled"; "3" := "Awarded" ]}.

(** [status_map.get(str(proj_data.get("ProjectSubStatusID", "")), "Unknown")] *)
Definition past_status_of (fields : list (string * json)) : string :=
  let status_id := py_str (dict_get fields "ProjectSubStatusID" (JStr "")) in
  default "Unknown" (status_map !! status_id).

(** [for proj_data in project_items], lines 469-481 *)
Fixpoint past_opps_loop (items : list json) (opportunities : list past_opp)
  : list past_opp :=
  match items with
  | [] => opportunities
  | proj_data :: rest =>
      match proj_data with
      | JObj fields =>
          let opp :=
            {| past_status := past_status_of fields;
               past_reference := dict_get fields "ReferenceID" (JStr "");
               past_project_name := dict_get fields "ProjectName" (JStr "");
               past_closed_date := dict_get fields "DateClose" (JStr "") |} in
          past_opps_loop rest (opportunities ++ [opp])
      | _ => past_opps_loop rest opportunities          (* continue *)
      end
  end.

Definition past_attempt (api_url : string) : M (option (list past_opp)) :=
  page_content <- fetch w api_url ;;
  json_data <- of_option (extract_json_from_page json_loads page_content) ;;
  if negb (truthy json_data) then ret None
  else
    items <- of_option (project_items json_data) ;;
    ret (Some (past_opps_loop items [])).

Fixpoint past_attempts (n : nat) (api_url : string) (result : past_result)
  : M past_result :=
  match n with
  | O => ret result
  | S n' =>
      r <- try_catch (past_attempt api_url) (ret None) ;;
      match r with
      | Some opportunities =>
          ret {| past_url := past_url result;
                 past_agency_name := past_agency_name result;
                 past_opportunities := opportunities |}
      | None => past_attempts n' api_url result
      end
  end.

Definition past_api_url (a : agency) : string :=
  agency_url a +:+ "/PublicPortal/getPastPublicOpportunitiesSectionData".

Definition scrape_past_opportunities (a : agency) : M past_result :=
  let result :=
    {| past_url := agency_url a +:+ "/portal/?tab=pastOpportunities";
       past_agency_name := agency_name a;
       past_opportunities := [] |} in
  past_attempts MAX_RETRIES (past_api_url a) result.

(** *** [_save_progress] and [scrape_all_opportunities]

    [json.dump] serialises the list it is given at the time of the call,
    so a write is recorded with the value of the list at that time.  It
    writes the text piece by piece: when a piece cannot be encoded the
    exception leaves [_save_progress], nothing catches it up to [run], and
    the file is left with the beginning of the text.  The values that the
    scraper puts into its dictionaries besides those of the portal
    (statuses, numbers of days) are ASCII texts and integers. *)

Definition agency_writable (a : agency) : bool :=
  writable (agency_name a) && writable (JStr (agency_url a)).

Definition open_opp_writable (o : open_opp) : bool :=
  writable (open_reference o) && writable (open_project_name o)
  && writable (open_closed_date o).

Definition past_opp_writable (o : past_opp) : bool :=
  writable (past_reference o) && writable (past_project_name o)
  && writable (past_closed_date o).

Definition open_result_writable (r : open_result) : bool :=
  writable (JStr (open_url r)) && writable (open_agency_name r)
  && forallb open_opp_writable (open_opportunities r).

Definition past_result_writable (r : past_result) : bool :=
  writable (JStr (past_url r)) && writable (past_agency_name r)
  && forallb past_opp_writable (past_opportunities r).

(** [with open(path, "w") as f: json.dump(data, f, ...)] *)
Definition write_file (complete cut : event) (ok : bool) : M unit :=
  if ok then emit complete else (run emit cut ;; raise).

Definition _save_progress (open_opps : list open_result)
    (past_opps : list past_result) : M unit :=
  run emit EvMakedirs ;;
  run write_file (EvWriteOpen open_opps) (EvCutOpen open_opps)
        (forallb open_result_writable open_opps) ;;
  write_file (EvWritePast past_opps) (EvCutPast past_opps)
    (forallb past_result_writable past_opps).

(** [for idx, agency in enumerate(self.agencies, 1)] *)
Fixpoint scrape_all_loop (agencies : list agency)
    (open_opps : list open_result) (past_opps : list past_result)
  : M (list open_result * list past_result) :=
  match agencies with
  | [] => ret (open_opps, past_opps)
  | a :: rest =>
      open_data <- scrape_open_opportunities a ;;
      let open_opps := open_opps ++ [open_data] in
      past_data <- scrape_past_opportunities a ;;
      let past_opps := past_opps ++ [past_data] in
      run _save_progress open_opps past_opps ;;
      run sleep REQUEST_DELAY ;;
      scrape_all_loop rest open_opps past_opps
  end.

(** [agencies] is [self.agencies]. *)
Definition scrape_all_opportunities (agencies : list agency)
  : M (list open_result * list past_result) :=
  scrape_all_loop agencies [] [].

(** *** Vocabulary for the statements below

    These definitions name what one pass through the code above computes;
    the lemmas of the second part relate each of them to the code. *)

(** The state after one [fetch] of [url], and after one [sleep]. *)
Definition fetched (url : string) (s : state) : state :=
  {| calls := S (calls s); clock_reads := clock_reads s;
     log := log s ++ [EvFetch url] |}.

Definition slept (d : delay) (s : state) : state :=
  {| calls := calls s; clock_reads := clock_reads s;
     log := log s ++ [EvSleep d] |}.

(** The state after [n] attempts on [url] that each raised and were
    followed by the delay of the handler. *)
Fixpoint retried (n : nat) (url : string) (s : state) : state :=
  match n with
  | O => s
  | S n' => retried n' url (slept REQUEST_DELAY (fetched url s))
  end.

(** The state after [n] attempts on a feed that each failed: the handler
    of the feeds takes no delay. *)
Fixpoint refetched (n : nat) (url : string) (s : state) : state :=
  match n with
  | O => s
  | S n' => refetched n' url (fetched url s)
  end.

(** The events that a request leaves in the log. *)
Definition is_fetch (e : event) : bool :=
  match e with
  | EvFetch _ => true
  | _ => false
  end.


(** Whether [json.dump] gets to the end of both lists of a checkpoint. *)
Definition snapshot_writable (open_opps : list open_result)
    (past_opps : list past_result) : bool :=
  forallb open_result_writable open_opps
  && forallb past_result_writable past_opps.

(** What a checkpoint that raises leaves in the log: the open file cut
    short, or the open file written and the past file cut short. *)
Definition cut_checkpoint (open_opps : list open_result)
    (past_opps : list past_result) : list event :=
  EvMakedirs ::
  (if forallb open_result_writable open_opps
   then [EvWriteOpen open_opps; EvCutPast past_opps]
   else [EvCutOpen open_opps]).

(** What lines 311-324 make of one entry [org]: the bucket letter and the
    record to append, or nothing when the entry is skipped or an exception
    is caught. *)
Definition org_record (org : json) : option (string * agency) :=
  match py_get org "OrganizationName" (JStr "") with
  | None => None
  | Some name =>
  match py_get org "Domain" (JStr "") with
  | None => None
  | Some domain =>
      if negb (truthy name) || negb (truthy domain) then None
      else
        match py_index0 name with
        | None => None
        | Some first_char =>
        match py_upper first_char with
        | None => None
        | Some first_letter =>
            if bool_decide (first_letter ∈ TARGET_LETTERS) then
              Some (first_letter,
                    {| agency_name := name;
                       agency_url := "https://" +:+ py_str domain |})
            else None
        end
        end
  end
  end.

(** The letter of an agency: the upper-cased first character of its
    name, as line 317 computes it. *)
Definition agency_letter (a : agency) : option string :=
  match py_index0 (agency_name a) with
  | Some first_char => py_upper first_char
  | None => None
  end.

(** The records that the entries [orgs], taken in order, offer to the
    bucket of letter [l]. *)
Definition records_for (l : string) (orgs : list json) : list agency :=
  omap (fun org =>
          match org_record org with
          | Some (first_letter, agency_data) =>
              if decide (first_letter = l) then Some agency_data else None
          | None => None
          end) orgs.

(** [by_letter] is what the entries [seen] so far produce: one bucket per
    target letter, holding the first [AGENCIES_PER_LETTER] records offered
    to it, in the order of [seen]. *)
Definition tracks (by_letter : gmap string (list agency)) (seen : list json) : Prop :=
  forall l,
    by_letter !! l =
      if decide (l ∈ TARGET_LETTERS)
      then Some (take AGENCIES_PER_LETTER (records_for l seen))
      else None.

(** The three ways one attempt of [fetch_agencies] on a page can go. *)
Inductive page_answer : Type :=
  | AnswerRaise                       (* an exception: retry *)
  | AnswerEnd                         (* [reached_end = True] *)
  | AnswerOrgs (orgs : list json).    (* the entries were processed *)

(** The payload ends discovery: it is falsy, or a dictionary with a truthy
    [message]. *)
Definition ends_discovery (json_data : json) : bool :=
  negb (truthy json_data) || is_error_response json_data.

Definition page_answer_of (answer : option string) : page_answer :=
  match answer with
  | None => AnswerRaise
  | Some page_content =>
      match extract_json_from_page json_loads page_content with
      | None => AnswerRaise
      | Some json_data =>
          if ends_discovery json_data then AnswerEnd
          else match py_iter json_data with
               | Some orgs => AnswerOrgs orgs
               | None => AnswerRaise
               end
      end
  end.

(** The addresses that a log asked the browser for, in order. *)
Definition requested (evs : list event) : list string :=
  omap (fun e => match e with
                 | EvFetch url => Some url
                 | _ => None
                 end) evs.

(** The entries that discovery processes when it makes the requests
    [urls], the first of them as the browser call numbered [t]: each
    request is answered by the portal at its own call, and an answer
    contributes its entries when it is a list of entries. *)
Fixpoint processed_entries (t : nat) (urls : list string) : list json :=
  match urls with
  | [] => []
  | url :: rest =>
      match page_answer_of (page_of w t url) with
      | AnswerOrgs orgs => orgs
      | _ => []
      end ++ processed_entries (S t) rest
  end.

(** The raw entries that one attempt on a feed obtains, or nothing when the
    attempt fails (an exception, or no payload). *)
Definition feed_answer (answer : option string) : option (list json) :=
  match answer with
  | None => None
  | Some page_content =>
      match extract_json_from_page json_loads page_content with
      | None => None
      | Some json_data =>
          if truthy json_data then project_items json_data else None
      end
  end.

End Scraper.

(** ** A concrete portal for running the model

    [json_decode] reads the fragment of JSON that has no floats and no
    [\u] escapes, the way [json.loads] does on that fragment; [ascii_upper]
    is [str.upper] on ASCII text.  They instantiate the section variables
    when the model is run on concrete pages. *)

Module Sample.

Definition dquote : ascii := "034"%char.
Definition backslash : ascii := "092"%char.

Definition is_json_ws (c : ascii) : bool :=
  let n := nat_of_ascii c in
  (n =? 32) || (n =? 9) || (n =? 10) || (n =? 13).

Fixpoint skip_ws (s : string) : string :=
  match s with
  | String c rest => if is_json_ws c then skip_ws rest else s
  | EmptyString => s
  end.

(** The characters after an opening quote, up to the closing quote. *)
Fixpoint decode_string (s : string) : option (string * string) :=
  match s with
  | EmptyString => None
  | String c rest =>
      if Ascii.eqb c dquote then Some (EmptyString, rest)
      else if Ascii.eqb c backslash then
        match rest with
        | String e rest' =>
            let plain (x : ascii) :=
              match decode_string rest' with
              | Some (str, r) => Some (String x str, r)
              | None => None
              end in
            if Ascii.eqb e dquote then plain dquote
            else if Ascii.eqb e backslash then plain backslash
            else if Ascii.eqb e "/" then plain "/"%char
            else if Ascii.eqb e "n" then plain "010"%char
            else if Ascii.eqb e "t" then plain "009"%char
            else if Ascii.eqb e "r" then plain "013"%char
            else if Ascii.eqb e "b" then plain "008"%char
            else if Ascii.eqb e "f" then plain "012"%char
            else None
        | EmptyString => None
        end
      else if nat_of_ascii c <? 32 then None
      else match decode_string rest with
           | Some (str, r) => Some (String c str, r)
           | None => None
           end
  end.

Fixpoint decode_digits (s : string) (acc : Z) : Z * string :=
  match s with
  | String c rest =>
      match digit_val c with
      | Some d => decode_digits rest (10 * acc + d)%Z
      | None => (acc, s)
      end
  | EmptyString => (acc, s)
  end.

(** An optional sign, then 0 or a digit string that does not start with 0,
    not followed by a fraction or an exponent *)
Definition decode_int (s : string) : option (json * string) :=
  let '(negative, body) :=
    match s with
    | String "-" rest => (true, rest)
    | _ => (false, s)
    end in
  match body with
  | String c rest =>
      match digit_val c with
      | Some d =>
          let '(n, r) :=
            if (d =? 0)%Z then (0%Z, rest) else decode_digits rest d in
          match r with
          | String "." _ | String "e" _ | String "E" _ => None
          | _ => Some (JNum (if negative then (- n)%Z else n), r)
          end
      | None => None
      end
  | EmptyString => None
  end.

(** [d[k] = v] on the list of items of a dictionary *)
Fixpoint dict_set (fields : list (string * json)) (k : string) (v : json)
  : list (string * json) :=
  match fields with
  | [] => [(k, v)]
  | (k', v') :: rest =>
      if String.eqb k' k then (k', v) :: rest
      else (k', v') :: dict_set rest k v
  end.

Fixpoint decode_value (fuel : nat) (s : string) : option (json * string) :=
  match fuel with
  | O => None
  | S fuel' =>
      let s := skip_ws s in
      match s with
      | EmptyString => None
      | String c rest =>
          if Ascii.eqb c dquote then
            match decode_string rest with
            | Some (str, r) => Some (JStr str, r)
            | None => None
            end
          else if Ascii.eqb c "[" then
            match skip_ws rest with
            | String "]" r => Some (JArr [], r)
            | r =>
                match decode_items fuel' r with
                | Some (items, r') => Some (JArr items, r')
                | None => None
                end
            end
          else if Ascii.eqb c "{" then
            match skip_ws rest with
            | String "}" r => Some (JObj [], r)
            | r =>
                match decode_fields fuel' r [] with
                | Some (fields, r') => Some (JObj fields, r')
                | None => None
                end
            end
          else if starts_with "null" s then Some (JNull, drop_chars 4 s)
          else if starts_with "true" s then Some (JBool true, drop_chars 4 s)
          else if starts_with "false" s then Some (JBool false, drop_chars 5 s)
          else decode_int s
      end
  end
with decode_items (fuel : nat) (s : string) : option (list json * string) :=
  match fuel with
  | O => None
  | S fuel' =>
      match decode_value fuel' s with
      | Some (v, r) =>
          match skip_ws r with
          | String "," r' =>
              match decode_items fuel' r' with
              | Some (items, r'') => Some (v :: items, r'')
              | None => None
              end
          | String "]" r' => Some ([v], r')
          | _ => None
          end
      | None => None
      end
  end
with decode_fields (fuel : nat) (s : string) (acc : list (string * json))
  : option (list (string * json) * string) :=
  match fuel with
  | O => None
  | S fuel' =>
      match skip_ws s with
      | String c rest =>
          if Ascii.eqb c dquote then
            match decode_string rest with
            | Some (k, r) =>
                match skip_ws r with
                | String ":" r1 =>
                    match decode_value fuel' r1 with
                    | Some (v, r2) =>
                        let acc' := dict_set acc k v in
                        match skip_ws r2 with
                        | String "," r3 => decode_fields fuel' r3 acc'
                        | String "}" r3 => Some (acc', r3)
                        | _ => None
                        end
                    | None => None
                    end
                | _ => None
                end
            | None => None
            end
          else None
      | EmptyString => None
      end
  end.

(** [json.loads]; the text bounds the depth of the recursion. *)
Definition json_decode (s : string) : option json :=
  match decode_value (S (String.length s)) s with
  | Some (v, r) =>
      match skip_ws r with
      | EmptyString => Some v
      | String _ _ => None           (* extra data *)
      end
  | None => None
  end.

Fixpoint all_digits (s : string) : bool :=
  match s with
  | EmptyString => true
  | String c rest =>
      match digit_val c with
      | Some _ => all_digits rest
      | None => false
      end
  end.

(** [json.loads] on that fragment.  A text that is one integer of more
    than 4300 digits raises [ValueError]: the interpreter refuses to
    convert it. *)
Definition json_loads (s : string) : loads_result :=
  if all_digits s && (4300 <? String.length s) then OtherError
  else
    match json_decode s with
    | Some v => Decoded v
    | None => JSONDecodeError
    end.

Fixpoint repeat_char (c : ascii) (n : nat) : string :=
  match n with
  | O => EmptyString
  | S n' => String c (repeat_char c n')
  end.

(** In the examples the character of code 255 stands for a lone
    surrogate: a text that holds it cannot be written. *)
Definition writable (v : json) : bool :=
  match v with
  | JStr s => negb (existsb (Ascii.eqb "255"%char) (list_ascii_of_string s))
  | _ => true
  end.

Definition ascii_upper_char (c : ascii) : ascii :=
  let n := nat_of_ascii c in
  if (97 <=? n) && (n <=? 122) then ascii_of_nat (n - 32) else c.

Fixpoint ascii_upper (s : string) : string :=
  match s with
  | EmptyString => EmptyString
  | String c rest => String (ascii_upper_char c) (ascii_upper rest)
  end.

(** The examples put no list or dictionary where [str()] is applied. *)
Definition no_repr (_ : json) : string := "[...]".

(** [s] with every ['] replaced by a double quote, to write JSON text. *)
Fixpoint q (s : string) : string :=
  match s with
  | EmptyString => EmptyString
  | String c rest => String (if Ascii.eqb c "'" then dquote else c) (q rest)
  end.

(** A portal whose answers do not change over time: [pages] maps a URL
    to the page source ([None]: the request fails); every form element
    of the login page is found; the clock stands still at [t]. *)
Definition steady_world (pages : string -> option string) (t : Z) : world :=
  {| page_of := fun _ url => pages url;
     goto_ok := fun _ _ => true;
     query_of := fun _ _ => QElement;
     type_text_ok := fun _ _ => true;
     click_ok := fun _ => true;
     clock := fun _ => t |}.

Definition pre (body : string) : string := "<pre>" +:+ body +:+ "</pre>".

(** A login page on which everything works except that the button that
    submits the password (asked for by the browser call numbered 7) is
    never found. *)
Definition no_submit_button : world :=
  {| page_of := fun _ _ => None;
     goto_ok := fun _ _ => true;
     query_of := fun n _ => if n =? 7 then QNone else QElement;
     type_text_ok := fun _ _ => true;
     click_ok := fun _ => true;
     clock := fun _ => 0%Z |}.

(** The pages of the listing under [config/settings.py]. *)
Definition listing_url (page_num : nat) : string :=
  page_url settings.PAGE_LIMIT settings.ORGANIZATIONS_API page_num.

(** A portal that answers every request with an error page that has no
    [<pre>] wrapper. *)
Definition gateway_error : world :=
  steady_world (fun _ => Some "<html><body>502 Bad Gateway</body></html>") 0.

(** A portal that answers every request with the error mapping
    [{"message": ""}]. *)
Definition blank_message : world :=
  steady_world (fun _ => Some (pre (q "{'message': ''}"))) 0.

(** A portal on which every request fails. *)
Definition unreachable : world := steady_world (fun _ => None) 0.

(** A listing of one page with three organisations, then empty pages. *)
Definition three_orgs : world :=
  steady_world
    (fun url =>
       if String.eqb url (listing_url 1) then
         Some (pre (q "[{'OrganizationName': 'Delta Corp', 'Domain': 'delta.example'}, {'OrganizationName': 'Gamma LLC', 'Domain': 'gamma.example'}, {'OrganizationName': 'Zeta Inc', 'Domain': 'zeta.example'}]"))
       else Some (pre "[]"))
    0.

(** [fetch_agencies] under [config/settings.py], with the letters and the
    quota left open. *)
Definition discover (w : world) (letters : list string) (quota fuel : nat)
  : M (loop_exit (list agency)) :=
  fetch_agencies json_loads ascii_upper no_repr w letters quota
    settings.MAX_RETRIES settings.PAGE_LIMIT settings.ORGANIZATIONS_API fuel.

(** An agency, and a portal whose feeds answer with no projects. *)
Definition delta : agency :=
  {| agency_name := JStr "Delta Corp"; agency_url := "https://delta.example" |}.

Definition no_projects : world :=
  steady_world (fun _ => Some (pre (q "{'payload': {'projects': {}}}"))) 0.

(** 2025-03-01 08:00:00, as [make_datetime 2025 3 1 8 0 0] gives it, and
    a world whose clock shows it. *)
Definition morning : Z := 63876412800000000.

(** A portal whose feeds hold one project, keyed by its identifier, seen
    at 2025-03-01 08:00:00. *)
Definition one_project : world :=
  steady_world
    (fun _ => Some (pre (q "{'success': 1, 'payload': {'projects': {'17': {'ReferenceID': 'RFP-1', 'ProjectName': 'Bridge', 'DateClose': '2025-03-04 12:00:00', 'ProjectSubStatusID': '3'}}}}")))
    morning.

Definition at_morning : world := steady_world (fun _ => None) morning.

(** A second agency, and a portal on which its feeds hold a project whose
    name has a character that cannot be written; the feeds of the other
    agencies are those of [one_project]. *)
Definition gamma : agency :=
  {| agency_name := JStr "Gamma LLC"; agency_url := "https://gamma.example" |}.

Definition lone_surrogate : string := String "255"%char EmptyString.

(** A listing whose only organisation has such a character in its name. *)
Definition surrogate_listing : world :=
  steady_world
    (fun url =>
       if String.eqb url (listing_url 1) then
         Some (pre (q "[{'OrganizationName': 'Delta " +:+ lone_surrogate
                    +:+ q "', 'Domain': 'delta.example'}]"))
       else Some (pre "[]"))
    0.

Definition surrogate_project : world :=
  steady_world
    (fun url =>
       if String.eqb url (open_api_url gamma)
          || String.eqb url (past_api_url gamma)
       then Some (pre (q "{'success': 1, 'payload': {'projects': {'18': {'ReferenceID': 'RFP-2', 'ProjectName': 'Quay " +:+ lone_surrogate +:+ q "', 'DateClose': '2025-03-04 12:00:00', 'ProjectSubStatusID': '3'}}}}"))
       else Some (pre (q "{'success': 1, 'payload': {'projects': {'17': {'ReferenceID': 'RFP-1', 'ProjectName': 'Bridge', 'DateClose': '2025-03-04 12:00:00', 'ProjectSubStatusID': '3'}}}}")))
    morning.

End Sample.

(** What discovery leaves in the log for one page: [failures] attempts
    that raised, each followed by the delay of the handler, and then,
    when an attempt [decided], the request of that attempt. *)
Definition page_block (url : string) (failures : nat) (decided : bool)
  : list event :=
  concat (replicate failures [EvFetch url; EvSleep REQUEST_DELAY])
  ++ (if decided then [EvFetch url] else []).

(** ** The orchestrator: [start_browser], [close_browser], [save_agencies]
    and [run] of [BonfireScraper], and [run_scraper] of [main.py] *)

(** How [start_browser] ends: both statements return, [Chrome(options)]
    (or the options before it) raises, or [browser.start()] raises. *)
Inductive start_result : Type := StartOk | ChromeRaised | StartRaised.

(** The machine the scraper runs on: the portal seen through the tab, and
    the answers of the browser process itself. *)
Record host : Type := {
  portal : world;
  start_answer : start_result;
  tab_close_ok : bool;          (* [tab.close()] returns *)
  browser_close_ok : bool       (* [browser.close()] returns *)
}.

Inductive step : Type :=
  | StPortal (e : event)        (* an effect of the methods above *)
  | StStartBrowser              (* [Chrome(options)], [browser.start()] *)
  | StTabClose
  | StBrowserClose
  | StWriteAgencies (agencies : list agency)
  (* the agencies file was emptied and [json.dump] raised before the end *)
  | StCutAgencies (agencies : list agency).

(** A [BonfireScraper] object, the answers it has used up and the effects
    it has had. *)
Record scraper : Type := {
  self_browser : bool;          (* [self.browser] is set *)
  self_tab : bool;              (* [self.tab] is set *)
  self_agencies : list agency;
  browser_calls : nat;
  clock_readings : nat;
  steps : list step             (* oldest first *)
}.

(** [__init__] *)
Definition new_scraper : scraper :=
  {| self_browser := false; self_tab := false; self_agencies := [];
     browser_calls := 0; clock_readings := 0; steps := [] |}.

Definition R (A : Type) : Type := scraper -> result A * scraper.

Definition rret {A} (a : A) : R A := fun o => (Ret a, o).

Definition rbind {A B} (m : R A) (k : A -> R B) : R B := fun o =>
  match m o with
  | (Ret a, o') => k a o'
  | (Raise, o') => (Raise, o')
  end.

Notation "x <~ m ;; k" := (rbind m (fun x => k))
  (at level 200, m at level 99, k at level 200, right associativity).
Notation "'exec' m ;; k" := (rbind m (fun _ => k))
  (at level 10, m at level 99, k at level 200).

Definition rraise {A} : R A := fun o => (Raise, o).

Definition rtry_catch {A} (body handler : R A) : R A := fun o =>
  match body o with
  | (Ret a, o') => (Ret a, o')
  | (Raise, o') => handler o'
  end.

(** [try: body finally: final].  The final clause runs when the body has
    ended, by a value or by an exception; not when the iteration budget of
    the model ran out inside the body.  An exception of the final clause
    replaces the outcome of the body. *)
Definition try_finally {A} (body : R (loop_exit A)) (final : R unit)
  : R (loop_exit A) := fun o =>
  match body o with
  | (Ret (OutOfFuel a), o') => (Ret (OutOfFuel a), o')
  | (r, o') =>
      match final o' with
      | (Ret _, o'') => (r, o'')
      | (Raise, o'') => (Raise, o'')
      end
  end.

Definition add_step (st : step) (o : scraper) : scraper :=
  {| self_browser := self_browser o; self_tab := self_tab o;
     self_agencies := self_agencies o; browser_calls := browser_calls o;
     clock_readings := clock_readings o; steps := steps o ++ [st] |}.

(** The portal as [o] has left it, with an empty log for what follows. *)
Definition portal_state (o : scraper) : state :=
  {| calls := browser_calls o; clock_reads := clock_readings o; log := [] |}.

(** The state [s] with an empty log: where a method starts that runs
    after the one that ended in [s]. *)
Definition resume (s : state) : state :=
  {| calls := calls s; clock_reads := clock_reads s; log := [] |}.

(** A method of the first part, run by the object: its effects are added
    to the steps in their order. *)
Definition lift {A} (m : M A) : R A := fun o =>
  match m (portal_state o) with
  | (r, s) =>
      (r, {| self_browser := self_browser o; self_tab := self_tab o;
             self_agencies := self_agencies o; browser_calls := calls s;
             clock_readings := clock_reads s;
             steps := steps o ++ map StPortal (log s) |})
  end.

Section Orchestrator.

Variable json_loads : string -> loads_result.
Variable str_upper : string -> string.
Variable container_repr : json -> string.
Variable writable : json -> bool.

Variable h : host.

Variable TARGET_LETTERS : list string.
Variable AGENCIES_PER_LETTER : nat.
Variable MAX_RETRIES : nat.
Variable PAGE_LIMIT : nat.
Variable ORGANIZATIONS_API : string.
Variable LOGIN_URL : string.
Variable email password : string.

(** Lines 170-171 *)
Definition start_browser : R unit := fun o =>
  let o1 := add_step StStartBrowser o in
  match start_answer h with
  | ChromeRaised => (Raise, o1)
  | StartRaised =>
      (Raise,
       {| self_browser := true; self_tab := self_tab o1;
          self_agencies := self_agencies o1; browser_calls := browser_calls o1;
          clock_readings := clock_readings o1; steps := steps o1 |})
  | StartOk =>
      (Ret tt,
       {| self_browser := true; self_tab := true;
          self_agencies := self_agencies o1; browser_calls := browser_calls o1;
          clock_readings := clock_readings o1; steps := steps o1 |})
  end.

Definition tab_close : R unit := fun o =>
  (if tab_close_ok h then Ret tt else Raise, add_step StTabClose o).

Definition browser_close : R unit := fun o =>
  (if browser_close_ok h then Ret tt else Raise, add_step StBrowserClose o).

(** Lines 175-184: the handler only logs. *)
Definition close_browser : R unit :=
  rtry_catch
    (exec (fun o => if self_tab o then tab_close o else rret tt o) ;;
     exec (fun o => if self_browser o then browser_close o else rret tt o) ;;
     lift (sleep (Seconds 1)))
    (rret tt).

(** Lines 534-538; the write raises as in [_save_progress], and nothing
    catches the exception up to [run]. *)
Definition save_agencies : R unit :=
  exec lift (emit EvMakedirs) ;;
  fun o =>
    if forallb (agency_writable writable) (self_agencies o)
    then (Ret tt, add_step (StWriteAgencies (self_agencies o)) o)
    else (Raise, add_step (StCutAgencies (self_agencies o)) o).

(** [fetch_agencies] as a method: line 348 stores the selection. *)
Definition fetch_agencies_method (fuel : nat) : R (loop_exit (list agency)) :=
  r <~ lift (fetch_agencies json_loads str_upper container_repr (portal h)
               TARGET_LETTERS AGENCIES_PER_LETTER MAX_RETRIES PAGE_LIMIT
               ORGANIZATIONS_API fuel) ;;
  match r with
  | Finished selected => fun o =>
      (Ret r,
       {| self_browser := self_browser o; self_tab := self_tab o;
          self_agencies := selected; browser_calls := browser_calls o;
          clock_readings := clock_readings o; steps := steps o |})
  | OutOfFuel _ => rret r
  end.

(** The [try] block of [run], lines 550-565 *)
Definition run_body (fuel : nat)
  : R (loop_exit (list open_result * list past_result)) :=
  exec start_browser ;;
  logged_in <~ lift (login (portal h) LOGIN_URL email password) ;;
  if negb logged_in then rraise else
  r <~ fetch_agencies_method fuel ;;
  match r with
  | OutOfFuel _ => rret (OutOfFuel ([], []))
  | Finished _ =>
      exec save_agencies ;;
      fun o =>
        match self_agencies o with
        | [] => rret (Finished ([], [])) o
        | agencies =>
            (harvest <~ lift (scrape_all_opportunities json_loads
                                container_repr writable (portal h)
                                MAX_RETRIES agencies) ;;
             rret (Finished harvest)) o
        end
  end.

(** [BonfireScraper.run]; [run] is a keyword of the notation above. *)
Definition BonfireScraper_run (fuel : nat)
  : R (loop_exit (list open_result * list past_result)) :=
  try_finally (run_body fuel) close_browser.

(** [bool(l)] of a list *)
Definition nonempty {A} (l : list A) : bool :=
  match l with
  | [] => false
  | _ :: _ => true
  end.

(** [main.run_scraper], lines 77-98, on a new [BonfireScraper]: the
    counts of lines 85-86 are only printed. *)
Definition run_scraper (fuel : nat) : result (loop_exit bool) * scraper :=
  rtry_catch
    (r <~ BonfireScraper_run fuel ;;
     match r with
     | OutOfFuel _ => rret (OutOfFuel false)
     | Finished (open_opps, past_opps) =>
         rret (Finished (nonempty open_opps || nonempty past_opps))
     end)
    (rret (Finished false))
    new_scraper.

(** The steps that close the tab or the browser process, and the steps
    that ask the portal for a page or write a file. *)
Definition is_close (st : step) : bool :=
  match st with
  | StTabClose | StBrowserClose => true
  | _ => false
  end.

(** The events of the login form. *)
Definition is_form_event (e : event) : bool :=
  match e with
  | EvGoTo _ | EvQuery _ _ | EvTypeText _ | EvClick | EvSleep _ => true
  | _ => false
  end.

Definition is_typing (e : event) : bool :=
  match e with
  | EvTypeText _ => true
  | _ => false
  end.

Definition is_request_or_write (st : step) : bool :=
  match st with
  | StPortal (EvFetch _) | StPortal EvMakedirs
  | StPortal (EvWriteOpen _) | StPortal (EvWritePast _)
  | StPortal (EvCutOpen _) | StPortal (EvCutPast _)
  | StWriteAgencies _ | StCutAgencies _ => true
  | _ => false
  end.

(** The lists that the steps have written to the agencies file. *)
Definition written_agencies (sts : list step) : list (list agency) :=
  omap (fun st => match st with
                  | StWriteAgencies agencies => Some agencies
                  | _ => None
                  end) sts.

End Orchestrator.

(** Machines for the examples: on each the browser starts; [healthy]
    closes everything, on [stuck_tab] the call [tab.close()] raises. *)
Module Hosts.

Definition healthy (w : world) : host :=
  {| portal := w; start_answer := StartOk;
     tab_close_ok := true; browser_close_ok := true |}.

Definition stuck_tab (w : world) : host :=
  {| portal := w; start_answer := StartOk;
     tab_close_ok := false; browser_close_ok := true |}.

(** A login page on which no element is ever found. *)
Definition locked_out : world :=
  {| page_of := fun _ _ => None;
     goto_ok := fun _ _ => true;
     query_of := fun _ _ => QNone;
     type_text_ok := fun _ _ => true;
     click_ok := fun _ => true;
     clock := fun _ => 0%Z |}.

(** [BonfireScraper(email, password).run()] under [config/settings.py],
    with the letters and the quota left open. *)
Definition visit (h : host) (letters : list string) (quota fuel : nat)
  : result (loop_exit (list open_result * list past_result)) * scraper :=
  BonfireScraper_run Sample.json_loads Sample.ascii_upper Sample.no_repr
    Sample.writable h
    letters quota settings.MAX_RETRIES settings.PAGE_LIMIT
    settings.ORGANIZATIONS_API settings.LOGIN_URL "me@example.org" "secret"
    fuel new_scraper.

End Hosts.

(** ** [DataParser] ([src/data_parser.py]) *)

(** *** [remove_duplicates] *)

(** The values that can be members of a [set]: [None], numbers and
    strings.  [True] and [1] are the same member, as are [False] and [0];
    a list or a dictionary is not hashable. *)
Inductive hashable : Type :=
  | HNone
  | HNum (n : Z)
  | HStr (s : string).

#[global] Instance hashable_eq_dec : EqDecision hashable.
Proof. solve_decision. Defined.

#[global] Instance hashable_countable : Countable hashable.
Proof.
  refine (inj_countable'
            (fun k => match k with
                      | HNone => inl tt
                      | HNum n => inr (inl n)
                      | HStr s => inr (inr s)
                      end)
            (fun x => match x with
                      | inl _ => HNone
                      | inr (inl n) => HNum n
                      | inr (inr s) => HStr s
                      end) _).
  intros []; reflexivity.
Defined.

(** [hash(v)]: [None] stands for the [TypeError] of a value that cannot
    be hashed. *)
Definition set_key (v : json) : option hashable :=
  match v with
  | JNull => Some HNone
  | JBool b => Some (HNum (if b then 1 else 0))
  | JNum n => Some (HNum n)
  | JStr s => Some (HStr s)
  | JArr _ | JObj _ => None
  end.

(** [for opp in opportunities], lines 263-267; [None] stands for the
    [AttributeError] of an entry that is not a dictionary and for the
    [TypeError] of an identifier that cannot be hashed. *)
Fixpoint remove_duplicates_loop (opportunities : list json)
    (seen_ids : gset hashable) (unique : list json) : option (list json) :=
  match opportunities with
  | [] => Some unique
  | opp :: rest =>
      match py_get opp "_document_id" (JStr "") with
      | None => None
      | Some doc_id =>
          if truthy doc_id then
            match set_key doc_id with
            | None => None
            | Some k =>
                if bool_decide (k ∈ seen_ids) then
                  remove_duplicates_loop rest seen_ids unique
                else
                  remove_duplicates_loop rest ({[k]} ∪ seen_ids) (unique ++ [opp])
            end
          else remove_duplicates_loop rest seen_ids unique
      end
  end.

Definition remove_duplicates (opportunities : list json) : option (list json) :=
  remove_duplicates_loop opportunities ∅ [].

(** The member of [seen_ids] that stands for a document: the document has
    none when it is not a dictionary, when its identifier is missing or
    falsy, and when the identifier cannot be hashed. *)
Definition document_key (opp : json) : option hashable :=
  match py_get opp "_document_id" (JStr "") with
  | Some doc_id => if truthy doc_id then set_key doc_id else None
  | None => None
  end.

(** The entries on which the loop body raises. *)
Definition breaks_deduplication (opp : json) : bool :=
  match py_get opp "_document_id" (JStr "") with
  | Some doc_id =>
      truthy doc_id && match set_key doc_id with None => true | Some _ => false end
  | None => true
  end.


(** *** [clean_html_entities]

    [s.replace(old, new)] for a non-empty [old] (every [old] of this
    program is a constant that is not empty): the occurrences of [old] are
    replaced from left to right and do not overlap.  [skip] counts the
    characters of an occurrence found that are still to be passed over. *)
Fixpoint replace_from (old new : string) (skip : nat) (s : string) : string :=
  match s with
  | EmptyString => EmptyString
  | String c rest =>
      match skip with
      | S skip' => replace_from old new skip' rest
      | O =>
          if starts_with old s
          then new +:+ replace_from old new (String.length old - 1) rest
          else String c (replace_from old new 0 rest)
      end
  end.

Definition str_replace (s old new : string) : string :=
  replace_from old new 0 s.

(** [s.strip()]: the characters removed at both ends are those of
    [str.isspace], which for codes below 256 are those of [\s]. *)
Fixpoint lstrip (s : string) : string :=
  match s with
  | EmptyString => EmptyString
  | String c rest => if is_space c then lstrip rest else s
  end.

Fixpoint rstrip (s : string) : string :=
  match s with
  | EmptyString => EmptyString
  | String c rest =>
      match rstrip rest with
      | EmptyString => if is_space c then EmptyString else String c EmptyString
      | String c' rest' => String c (String c' rest')
      end
  end.

Definition str_strip (s : string) : string := rstrip (lstrip s).

(** Lines 62-70, in the order of the dictionary.  The last key is the
    six characters that the source text ["\\u00a0"] denotes. *)
Definition replacements : list (string * string) :=
  [ ("&amp;", "&"); ("&lt;", "<"); ("&gt;", ">");
    ("&quot;", String Sample.dquote EmptyString); ("&#39;", "'");
    ("&nbsp;", " "); ("\u00a0", " ") ].

(** [None] stands for the [AttributeError] of a truthy value without a
    [replace] method. *)
Definition clean_html_entities (text : json) : option json :=
  if negb (truthy text) then Some text
  else
    match text with
    | JStr s =>
        Some (JStr (str_strip
                      (foldl (fun t r => str_replace t (fst r) (snd r)) s
                             replacements)))
    | _ => None
    end.

Section Parser.

(** Library functions that are not embedded: the [str()] of a list or a
    dictionary, [str.lower], [hashlib.md5(..).hexdigest()] of the encoded
    text, [datetime.isoformat] and [strftime("%B %d, %Y at %I:%M %p")]; a
    [datetime] is the number of microseconds that [strptime] returns. *)
Variable container_repr : json -> string.
Variable str_lower : string -> string.
Variable md5_hexdigest : string -> string.
Variable isoformat : Z -> string.
Variable strftime_readable : Z -> string.

(** The clock of the machine the parser runs on. *)
Variable w : world.

(** Lines 54-55 *)
Definition generate_document_id (org_name bidding_id : json) : string :=
  let combined :=
    str_strip (str_lower (py_str container_repr org_name +:+ "_"
                            +:+ py_str container_repr bidding_id)) in
  md5_hexdigest combined.

(** Lines 87-105: [strptime] raises [TypeError], which is not caught here,
    for a truthy value that is not a string, and [ValueError], which is
    caught, for a text that it does not accept. *)
Definition parse_deadline (date_str : json) : M json :=
  let result (iso_format readable : json) (has_passed : bool) :=
    JObj [ ("raw", date_str); ("iso_format", iso_format);
           ("readable", readable); ("has_passed", JBool has_passed) ] in
  if negb (truthy date_str) then ret (result JNull JNull false)
  else
    match date_str with
    | JStr s =>
        match strptime s with
        | Some dt =>
            now_ <- now w ;;
            ret (result (JStr (isoformat dt)) (JStr (strftime_readable dt))
                        (dt <? now_)%Z)
        | None => ret (result JNull JNull false)
        end
    | _ => raise
    end.

(** [raw_opp.get("Refference", "") or raw_opp.get("Reference", "")] *)
Definition bidding_id_of (fields : list (string * json)) : json :=
  let first := dict_get fields "Refference" (JStr "") in
  if truthy first then first else dict_get fields "Reference" (JStr "").

(** Lines 119-149; a [raw_opp] that is not a dictionary raises
    [AttributeError] at the first [get]. *)
Definition parse_open_opportunity (raw_opp agency_name : json)
    (agency_url : string) : M json :=
  match raw_opp with
  | JObj fields =>
      let bidding_id := bidding_id_of fields in
      project_name <-
        of_option (clean_html_entities (dict_get fields "Project Name" (JStr ""))) ;;
      let application_url := agency_url +:+ "/portal/?tab=openOpportunities" in
      deadline <- parse_deadline (dict_get fields "Closed Date" (JStr "")) ;;
      let document_id := generate_document_id agency_name bidding_id in
      scraped_at <- now w ;;
      ret (JObj
             [ ("organization_name", agency_name);
               ("bidding_id", bidding_id);
               ("opportunity_name", project_name);
               ("description", project_name);
               ("application_instructions",
                JObj [ ("url", JStr application_url);
                       ("method", JStr "Submit proposal through Bonfire Hub portal") ]);
               ("deadline", deadline);
               ("status", dict_get fields "Status" (JStr "Open"));
               ("days_remaining", dict_get fields "Number of days Left" (JNum 0));
               ("_document_id", JStr document_id);
               ("_source_url", JStr agency_url);
               ("_scraped_at", JStr (isoformat scraped_at));
               ("_opportunity_type", JStr "open") ])
  | _ => raise
  end.

(** Lines 163-187 *)
Definition parse_past_opportunity (raw_opp agency_name : json)
    (agency_url : string) : M json :=
  match raw_opp with
  | JObj fields =>
      let bidding_id := bidding_id_of fields in
      project_name <-
        of_option (clean_html_entities (dict_get fields "Project Name" (JStr ""))) ;;
      let application_url := agency_url +:+ "/portal/?tab=pastOpportunities" in
      deadline <- parse_deadline (dict_get fields "Closed Date" (JStr "")) ;;
      let document_id := generate_document_id agency_name bidding_id in
      scraped_at <- now w ;;
      ret (JObj
             [ ("organization_name", agency_name);
               ("bidding_id", bidding_id);
               ("opportunity_name", project_name);
               ("description", project_name);
               ("application_instructions",
                JObj [ ("url", JStr application_url);
                       ("method", JStr "Opportunity closed - historical record only") ]);
               ("deadline", deadline);
               ("status", dict_get fields "Status" (JStr "Closed"));
               ("_document_id", JStr document_id);
               ("_source_url", JStr agency_url);
               ("_scraped_at", JStr (isoformat scraped_at));
               ("_opportunity_type", JStr "past") ])
  | _ => raise
  end.

(** [for opp in opportunities], lines 210-215 and 240-245: the handler
    only logs, so an opportunity whose parsing raises is left out. *)
Fixpoint process_opps (parse : json -> json -> string -> M json)
    (opportunities : list json) (agency_name : json) (agency_url : string)
    (cleaned : list json) : M (list json) :=
  match opportunities with
  | [] => ret cleaned
  | opp :: rest =>
      r <- try_catch (clean_opp <- parse opp agency_name agency_url ;;
                      ret (Some clean_opp))
                     (ret None) ;;
      process_opps parse rest agency_name agency_url
        (match r with
         | Some clean_opp => cleaned ++ [clean_opp]
         | None => cleaned
         end)
  end.

(** [for agency_data in raw_data], lines 201-215 and 232-245.  Outside
    the inner [try] nothing is caught: an entry that is not a dictionary,
    an address that is not a string and a value of the opportunities key
    that cannot be iterated make the whole function raise. *)
Fixpoint process_agencies (parse : json -> json -> string -> M json)
    (url_key tab opportunities_key : string)
    (raw_data : list json) (cleaned : list json) : M (list json) :=
  match raw_data with
  | [] => ret cleaned
  | agency_data :: rest =>
      match agency_data with
      | JObj fields =>
          let agency_name := dict_get fields "Agency Name" (JStr "Unknown") in
          match dict_get fields url_key (JStr "") with
          | JStr agency_url_full =>
              let agency_url := str_replace agency_url_full tab "" in
              opportunities <-
                of_option (py_iter (dict_get fields opportunities_key (JArr []))) ;;
              cleaned' <-
                process_opps parse opportunities agency_name agency_url cleaned ;;
              process_agencies parse url_key tab opportunities_key rest cleaned'
          | _ => raise
          end
      | _ => raise
      end
  end.

Definition process_open_opportunities (raw_data : json) : M (list json) :=
  agencies <- of_option (py_iter raw_data) ;;
  process_agencies parse_open_opportunity
    "Agency Open Public Opportunity Url" "/portal/?tab=openOpportunities"
    "Agency Open Public Opportunities" agencies [].

Definition process_past_opportunities (raw_data : json) : M (list json) :=
  agencies <- of_option (py_iter raw_data) ;;
  process_agencies parse_past_opportunity
    "Agency Past Public Opportunity Url" "/portal/?tab=pastOpportunities"
    "Agency Past Public Opportunities" agencies [].

End Parser.

(** What [json.load] reads back from the raw files that [_save_progress]
    has written: the dictionaries of the scraper, with their keys in the
    order of lines 364-368, 398-404, 432-436 and 475-480. *)
Definition open_opp_json (o : open_opp) : json :=
  JObj [ ("Status", JStr (open_status o));
         ("Refference", open_reference o);
         ("Project Name", open_project_name o);
         ("Closed Date", open_closed_date o);
         ("Number of days Left", JNum (open_days_left o)) ].

Definition open_result_json (r : open_result) : json :=
  JObj [ ("Agency Open Public Opportunity Url", JStr (open_url r));
         ("Agency Name", open_agency_name r);
         ("Agency Open Public Opportunities",
          JArr (map open_opp_json (open_opportunities r))) ].

Definition past_opp_json (o : past_opp) : json :=
  JObj [ ("Status", JStr (past_status o));
         ("Refference", past_reference o);
         ("Project Name", past_project_name o);
         ("Closed Date", past_closed_date o) ].

Definition past_result_json (r : past_result) : json :=
  JObj [ ("Agency Past Public Opportunity Url", JStr (past_url r));
         ("Agency Name", past_agency_name r);
         ("Agency Past Public Opportunities",
          JArr (map past_opp_json (past_opportunities r))) ].

(** Vocabulary for the statements about the parser: whether a character
    occurs in a text, the value of a field of a document, and the
    opportunities of the scraper that the parser does not drop (their
    project name is falsy or a string, and so is their closing date). *)
Definition has_char (c : ascii) (s : string) : bool :=
  existsb (Ascii.eqb c) (list_ascii_of_string s).

Definition doc_field (d : json) (k : string) : json :=
  match d with
  | JObj fields => dict_get fields k JNull
  | _ => JNull
  end.

Definition falsy_or_text (v : json) : bool :=
  negb (truthy v) || match v with JStr _ => true | _ => false end.

Definition open_cleanable (o : open_opp) : bool :=
  falsy_or_text (open_project_name o) && falsy_or_text (open_closed_date o).

Definition past_cleanable (o : past_opp) : bool :=
  falsy_or_text (past_project_name o) && falsy_or_text (past_closed_date o).

(** What the document [d] made from the open opportunity [o] of the
    agency [a] carries over from the scraper; [document_id] is
    [generate_document_id]. *)
Definition open_document_of (document_id : json -> json -> string)
    (a : agency) (o : open_opp) (d : json) : Prop :=
  let bidding_id :=
    if truthy (open_reference o) then open_reference o else JStr "" in
  doc_field d "organization_name" = agency_name a /\
  doc_field d "bidding_id" = bidding_id /\
  Some (doc_field d "opportunity_name")
    = clean_html_entities (open_project_name o) /\
  doc_field d "application_instructions"
    = JObj [ ("url", JStr (agency_url a +:+ "/portal/?tab=openOpportunities"));
             ("method", JStr "Submit proposal through Bonfire Hub portal") ] /\
  doc_field d "status" = JStr (open_status o) /\
  doc_field d "days_remaining" = JNum (open_days_left o) /\
  doc_field d "_document_id" = JStr (document_id (agency_name a) bidding_id) /\
  doc_field d "_source_url" = JStr (agency_url a).

(** The result that [scrape_open_opportunities] builds for the agency [a]
    when the feed gave [opportunities]. *)
Definition open_result_of (a : agency) (opportunities : list open_opp)
  : open_result :=
  {| open_url := agency_url a +:+ "/portal/?tab=openOpportunities";
     open_agency_name := agency_name a;
     open_opportunities := opportunities |}.

(** The same for the past opportunities. *)
Definition past_document_of (document_id : json -> json -> string)
    (a : agency) (o : past_opp) (d : json) : Prop :=
  let bidding_id :=
    if truthy (past_reference o) then past_reference o else JStr "" in
  doc_field d "organization_name" = agency_name a /\
  doc_field d "bidding_id" = bidding_id /\
  Some (doc_field d "opportunity_name")
    = clean_html_entities (past_project_name o) /\
  doc_field d "application_instructions"
    = JObj [ ("url", JStr (agency_url a +:+ "/portal/?tab=pastOpportunities"));
             ("method", JStr "Opportunity closed - historical record only") ] /\
  doc_field d "status" = JStr (past_status o) /\
  doc_field d "_document_id" = JStr (document_id (agency_name a) bidding_id) /\
  doc_field d "_source_url" = JStr (agency_url a).

Definition past_result_of (a : agency) (opportunities : list past_opp)
  : past_result :=
  {| past_url := agency_url a +:+ "/portal/?tab=pastOpportunities";
     past_agency_name := agency_name a;
     past_opportunities := opportunities |}.

(** ** The pipeline of [main.py], lines 203-228

    The three phases are [run_scraper], [run_parser] and [run_upload];
    each catches every exception and returns a boolean, which is taken
    here from [phase_ok].  The result is [None] when [main] leaves by
    [sys.exit(1)], and otherwise the phases run, in their order, with the
    final value of [success]. *)

Inductive phase : Type := Scrape | Parse | Upload.

(** [not email]: the value is [None] or the empty text. *)
Definition missing (credential : option string) : bool :=
  match credential with
  | Some text => String.eqb text ""
  | None => true
  end.

Definition main (scrape_only parse_only upload_only : bool)
    (email password : option string) (phase_ok : phase -> bool)
  : option (list phase * bool) :=
  let do_scrape := negb (parse_only || upload_only) in
  let do_parse := negb (scrape_only || upload_only) in
  let do_upload := negb (scrape_only || parse_only) in
  if do_scrape && (missing email || missing password) then None
  else
    let ran := [] in
    let success := true in
    let '(ran, success) :=
      if do_scrape then (ran ++ [Scrape], phase_ok Scrape && success)
      else (ran, success) in
    let '(ran, success) :=
      if do_parse then (ran ++ [Parse], phase_ok Parse && success)
      else (ran, success) in
    let '(ran, success) :=
      if do_upload then (ran ++ [Upload], phase_ok Upload && success)
      else (ran, success) in
    Some (ran, success).

(** ** [MongoHandler.insert_opportunities] ([src/db_handler.py])

    The database is not embedded: [collection_ok] tells whether
    [get_collection] and [create_indexes] return, and [write_of n] is how
    the write number [n] of the loop ends. *)

Inductive write_outcome : Type :=
  | Upserted          (* [update_one] inserted, or [insert_one] returned *)
  | Matched           (* [update_one] found the document: no [upserted_id] *)
  | DuplicateKey      (* [DuplicateKeyError] *)
  | WriteFailed.      (* any other exception *)

Record insert_counts : Type := {
  inserted : nat;
  skipped : nat;
  failed : nat
}.

(** [for opp in opportunities], lines 189-213, with [writes] database
    writes made so far.  The assignment of line 192 raises [TypeError]
    for an entry that is not a dictionary, before any write. *)
Fixpoint insert_loop (write_of : nat -> write_outcome) (skip_duplicates : bool)
    (opportunities : list json) (writes : nat) (c : insert_counts)
  : insert_counts * nat :=
  match opportunities with
  | [] => (c, writes)
  | opp :: rest =>
      match opp with
      | JObj _ =>
          let c' :=
            match write_of writes with
            | Upserted =>
                {| inserted := S (inserted c); skipped := skipped c;
                   failed := failed c |}
            | Matched =>
                if skip_duplicates then
                  {| inserted := inserted c; skipped := S (skipped c);
                     failed := failed c |}
                else
                  {| inserted := S (inserted c); skipped := skipped c;
                     failed := failed c |}
            | DuplicateKey =>
                {| inserted := inserted c; skipped := S (skipped c);
                   failed := failed c |}
            | WriteFailed =>
                {| inserted := inserted c; skipped := skipped c;
                   failed := S (failed c) |}
            end in
          insert_loop write_of skip_duplicates rest (S writes) c'
      | _ =>
          insert_loop write_of skip_duplicates rest writes
            {| inserted := inserted c; skipped := skipped c;
               failed := S (failed c) |}
      end
  end.

(** The result is the counts and the number of writes made; [None] stands
    for the exception of [get_collection] or [create_indexes], which is
    not caught. *)
Definition insert_opportunities (collection_ok : bool)
    (write_of : nat -> write_outcome) (opportunities : list json)
    (skip_duplicates : bool) : option (insert_counts * nat) :=
  match opportunities with
  | [] => Some ({| inserted := 0; skipped := 0; failed := 0 |}, 0)
  | _ :: _ =>
      if collection_ok then
        Some (insert_loop write_of skip_duplicates opportunities 0
                {| inserted := 0; skipped := 0; failed := 0 |})
      else None
  end.

Definition is_dict (v : json) : bool :=
  match v with
  | JObj _ => true
  | _ => false
  end.

(** Documents for the examples. *)
Module Docs.

Definition doc (doc_id : json) (bidding_id : string) : json :=
  JObj [("_document_id", doc_id); ("bidding_id", JStr bidding_id)].

(** Two documents share the identifier ["a"]; one has an empty identifier
    and one has none; [True] and [1] are the same member of a set. *)
Definition mixed : list json :=
  [ doc (JStr "a") "first"; doc (JStr "b") "second"; doc (JStr "a") "third";
    doc (JStr "") "fourth"; doc (JBool true) "fifth"; doc (JNum 1) "sixth";
    JObj [("bidding_id", JStr "seventh")] ].

Definition mixed_unique : list json :=
  [ doc (JStr "a") "first"; doc (JStr "b") "second"; doc (JBool true) "fifth" ].

(** Stand-ins for the library functions of the parser. *)
Definition digest (s : string) : string := "md5(" +:+ s +:+ ")".
Definition stamp (t : Z) : string := pretty t.

(** What the scraper has found for one agency: two opportunities without
    a reference, and one whose project name is a number. *)
Definition bridge : open_opp :=
  {| open_status := "Open"; open_reference := JStr "";
     open_project_name := JStr " Bridge &amp; road ";
     open_closed_date := JStr "2025-03-04 12:00:00"; open_days_left := 3 |}.

Definition tunnel : open_opp :=
  {| open_status := "Open"; open_reference := JNull;
     open_project_name := JStr "Tunnel";
     open_closed_date := JStr ""; open_days_left := 0 |}.

Definition numbered : open_opp :=
  {| open_status := "Open"; open_reference := JStr "RFP-9";
     open_project_name := JNum 2025;
     open_closed_date := JStr ""; open_days_left := 0 |}.

Definition found : list (agency * list open_opp) :=
  [ (Sample.delta, [bridge; numbered; tunnel]) ].

(** Two past opportunities of one agency; the closing date of the second
    is a number. *)
Definition awarded : past_opp :=
  {| past_status := "Awarded"; past_reference := JStr "RFP-1";
     past_project_name := JStr "Bridge";
     past_closed_date := JStr "2025-03-04 12:00:00" |}.

Definition undated : past_opp :=
  {| past_status := "Closed"; past_reference := JStr "RFP-2";
     past_project_name := JStr "Road"; past_closed_date := JNum 20250304 |}.

Definition archive : list (agency * list past_opp) :=
  [ (Sample.delta, [awarded; undated]) ].

End Docs.


(** * Properties *)

(** ** The embedded-payload extractor *)

Section StringFacts.

Lemma starts_with_true p s :
  starts_with p s = true -> exists r, s = p +:+ r.
Proof.
  revert s. induction p as [|a p IH]; intros s H.
  - exists s. reflexivity.
  - destruct s as [|b s]; simpl in H; [discriminate|].
    destruct (Ascii.eqb_spec a b) as [->|]; [|discriminate].
    destruct (IH _ H) as [r ->]. exists r. reflexivity.
Qed.

Lemma starts_with_app p r : starts_with p (p +:+ r) = true.
Proof.
  induction p as [|a p IH]; simpl; [reflexivity|].
  rewrite Ascii.eqb_refl. exact IH.
Qed.

Lemma append_cancel_l p a b : p +:+ a = p +:+ b -> a = b.
Proof.
  induction p as [|x p IH]; cbn [String.append]; intros H; [exact H|].
  injection H as H. exact (IH H).
Qed.

(** A text that starts with the closing tag contradicts [Hc]. *)
Ltac closing_tag_found Hc Heq :=
  rewrite Heq in Hc;
  match type of Hc with
  | starts_with _ ("" +:+ ?x) = _ =>
      change (starts_with close_tag x = false) in Hc
  end;
  rewrite starts_with_app in Hc; discriminate.

(** [lazy_group] finds a non-empty group followed by the closing tag,
    and no shorter non-empty group is. *)
Lemma lazy_group_Some s g :
  lazy_group s = Some g ->
  g <> "" /\
  (exists r, s = g +:+ close_tag +:+ r) /\
  (forall g' r', g' <> "" -> s = g' +:+ close_tag +:+ r' ->
                 String.length g <= String.length g').
Proof.
  revert g. induction s as [|c rest IH]; intros g H; [discriminate|].
  cbn [lazy_group] in H.
  destruct (starts_with close_tag rest) eqn:Hc.
  - injection H as <-. split; [discriminate|]. split.
    + destruct (starts_with_true _ _ Hc) as [r ->]. exists r. reflexivity.
    + intros [|c' g''] r' Hne _; [congruence | simpl; lia].
  - destruct (lazy_group rest) as [g0|] eqn:Hg; [|discriminate].
    injection H as <-.
    destruct (IH g0 eq_refl) as (Hne0 & [r ->] & Hmin).
    split; [discriminate|]. split; [exists r; reflexivity|].
    intros [|c' g''] r' Hne Heq; [congruence|].
    cbn [String.append] in Heq. injection Heq as _ Heq.
    destruct g'' as [|c'' g3].
    + closing_tag_found Hc Heq.
    + specialize (Hmin (String c'' g3) r' ltac:(discriminate) Heq).
      simpl in *. lia.
Qed.

Lemma lazy_group_None s :
  lazy_group s = None ->
  forall g r, g <> "" -> s <> g +:+ close_tag +:+ r.
Proof.
  induction s as [|c rest IH]; intros H g r Hne Heq.
  - destruct g; [congruence | discriminate].
  - cbn [lazy_group] in H.
    destruct (starts_with close_tag rest) eqn:Hc; [discriminate|].
    destruct (lazy_group rest) eqn:Hg; [discriminate|].
    destruct g as [|c' g']; [congruence|].
    cbn [String.append] in Heq. injection Heq as _ Heq.
    destruct g' as [|c'' g''].
    + closing_tag_found Hc Heq.
    + exact (IH eq_refl (String c'' g'') r ltac:(discriminate) Heq).
Qed.

Lemma drop_open_tag t : drop_chars 5 (open_tag +:+ t) = t.
Proof. reflexivity. Qed.

(** The group found by [re_search_pre] sits in the leftmost wrapper and
    is the shortest non-empty one there. *)
Lemma re_search_pre_Some s g :
  re_search_pre s = Some g ->
  g <> "" /\
  exists a r,
    s = a +:+ open_tag +:+ g +:+ close_tag +:+ r /\
    (forall a' g' r', g' <> "" ->
       s = a' +:+ open_tag +:+ g' +:+ close_tag +:+ r' ->
       String.length a <= String.length a') /\
    (forall g' r', g' <> "" ->
       g +:+ close_tag +:+ r = g' +:+ close_tag +:+ r' ->
       String.length g <= String.length g').
Proof.
  revert g. induction s as [|c rest IH]; intros g H; [discriminate|].
  assert (Hrec : re_search_pre rest = Some g ->
                 (forall g' r', g' <> "" ->
                    String c rest <> open_tag +:+ g' +:+ close_tag +:+ r') ->
                 g <> "" /\
                 exists a r,
                   String c rest = a +:+ open_tag +:+ g +:+ close_tag +:+ r /\
                   (forall a' g' r', g' <> "" ->
                      String c rest = a' +:+ open_tag +:+ g' +:+ close_tag +:+ r' ->
                      String.length a <= String.length a') /\
                   (forall g' r', g' <> "" ->
                      g +:+ close_tag +:+ r = g' +:+ close_tag +:+ r' ->
                      String.length g <= String.length g')).
  { intros Hr Hnot. destruct (IH g Hr) as (Hne & a & r & -> & Hleft & Hshort).
    split; [exact Hne|]. exists (String c a), r. split; [reflexivity|].
    split; [|exact Hshort].
    intros [|c' a''] g' r' Hne' Heq.
    - exfalso. exact (Hnot g' r' Hne' Heq).
    - cbn [String.append] in Heq. injection Heq as _ Heq.
      specialize (Hleft a'' g' r' Hne' Heq). simpl. lia. }
  cbn [re_search_pre] in H.
  destruct (starts_with open_tag (String c rest)) eqn:Ho.
  - destruct (starts_with_true _ _ Ho) as [t Ht].
    rewrite Ht, drop_open_tag in H.
    destruct (lazy_group t) as [g0|] eqn:Hg.
    + injection H as <-.
      destruct (lazy_group_Some _ _ Hg) as (Hne & [r ->] & Hmin).
      split; [exact Hne|]. exists "", r. rewrite Ht. split; [reflexivity|].
      split; [intros; simpl; lia|]. exact Hmin.
    + apply Hrec; [exact H|]. intros g' r' Hne' Heq.
      rewrite Ht in Heq.
      assert (t = g' +:+ close_tag +:+ r') as Et
        by exact (append_cancel_l _ _ _ Heq).
      exact (lazy_group_None _ Hg g' r' Hne' Et).
  - apply Hrec; [exact H|]. intros g' r' _ Heq.
    rewrite Heq, starts_with_app in Ho. discriminate.
Qed.

Lemma re_search_pre_None s :
  re_search_pre s = None ->
  forall a g r, g <> "" -> s <> a +:+ open_tag +:+ g +:+ close_tag +:+ r.
Proof.
  induction s as [|c rest IH]; intros H a g r Hne Heq.
  - destruct a; discriminate.
  - cbn [re_search_pre] in H.
    assert (Hrest : re_search_pre rest = None /\
                    forall g' r', g' <> "" ->
                      String c rest <> open_tag +:+ g' +:+ close_tag +:+ r').
    { destruct (starts_with open_tag (String c rest)) eqn:Ho.
      - destruct (starts_with_true _ _ Ho) as [t Ht].
        rewrite Ht, drop_open_tag in H.
        destruct (lazy_group t) eqn:Hg; [discriminate|].
        split; [exact H|]. intros g' r' Hne' Heq'. rewrite Ht in Heq'.
        assert (t = g' +:+ close_tag +:+ r') as Et
          by exact (append_cancel_l _ _ _ Heq').
        exact (lazy_group_None _ Hg g' r' Hne' Et).
      - split; [exact H|]. intros g' r' _ Heq'.
        rewrite Heq', starts_with_app in Ho. discriminate. }
    destruct Hrest as [Hr Hnot].
    destruct a as [|c' a'].
    + exact (Hnot g r Hne Heq).
    + cbn [String.append] in Heq. injection Heq as _ Heq. exact (IH Hr a' g r Hne Heq).
Qed.

End StringFacts.

(** C8, as the code has it.  [extract_json_from_page] is a function of
    the page text and of what [json.loads] does.  Either the text holds a
    wrapper [<pre>g</pre>] with a non-empty content; then the content [g]
    of the leftmost wrapper, cut at the first closing tag that leaves it
    non-empty, is handed to [json.loads]: the result is the decoded value,
    or [None] when [json.loads] raises [json.JSONDecodeError], and any
    other exception of [json.loads] leaves the function.  Or the text
    holds no such wrapper, and the result is [None]. *)
Theorem extract_json_from_page_spec
    (json_loads : string -> loads_result) (page_content : string) :
  (exists a g r,
      page_content = a +:+ "<pre>" +:+ g +:+ "</pre>" +:+ r /\
      g <> "" /\
      (forall a' g' r', g' <> "" ->
         page_content = a' +:+ "<pre>" +:+ g' +:+ "</pre>" +:+ r' ->
         String.length a <= String.length a') /\
      (forall g' r', g' <> "" ->
         g +:+ "</pre>" +:+ r = g' +:+ "</pre>" +:+ r' ->
         String.length g <= String.length g') /\
      extract_json_from_page json_loads page_content =
        match json_loads g with
        | Decoded v => Some v
        | JSONDecodeError => Some JNull
        | OtherError => None
        end)
  \/
  ((forall a g r, g <> "" ->
      page_content <> a +:+ "<pre>" +:+ g +:+ "</pre>" +:+ r) /\
   extract_json_from_page json_loads page_content = Some JNull).
Proof.
  unfold extract_json_from_page.
  destruct (re_search_pre page_content) as [g|] eqn:Hs.
  - left. destruct (re_search_pre_Some _ _ Hs) as (Hne & a & r & Heq & Hleft & Hshort).
    exists a, g, r. repeat split; assumption || reflexivity.
  - right. split; [|reflexivity]. exact (re_search_pre_None _ Hs).
Qed.

(** An integer of 4301 digits between the tags: [json.loads] raises
    [ValueError], which line 136 does not catch. *)
Lemma extract_json_from_page_raises :
  extract_json_from_page Sample.json_loads
    ("<pre>" +:+ Sample.repeat_char "1" 4301 +:+ "</pre>") = None.
Proof. vm_compute. reflexivity. Qed.

(** ** Deadline arithmetic *)

Section Deadline.

Local Open Scope Z_scope.

Lemma us_per_day_pos : 0 < us_per_day.
Proof. reflexivity. Qed.

Lemma whole_days_positive_iff (gap : Z) :
  0 <= gap -> (0 < gap / us_per_day <-> us_per_day <= gap).
Proof.
  intros Hgap. split.
  - intros Hpos. destruct (Z_lt_le_dec gap us_per_day) as [Hlt|Hle]; [|exact Hle].
    rewrite (Z.div_small gap us_per_day) in Hpos by lia. lia.
  - intros Hle. apply Z.div_str_pos. split; [exact us_per_day_pos | exact Hle].
Qed.

Lemma days_left_nonneg deadline now_ : 0 <= days_left deadline now_.
Proof.
  unfold days_left. destruct (Z.leb_spec deadline now_); [lia|].
  apply Z.div_pos; [lia | exact us_per_day_pos].
Qed.

(** The function never raises and reads the clock at most once. *)
Lemma calculate_days_remaining_eq (w : world) (deadline_str : json) (s : state) :
  calculate_days_remaining w deadline_str s =
    match deadline_str with
    | JStr str =>
        match strptime str with
        | Some deadline =>
            (Ret (days_left deadline (clock w (clock_reads s))),
             {| calls := calls s; clock_reads := S (clock_reads s);
                log := log s |})
        | None => (Ret 0, s)
        end
    | _ => (Ret 0, s)
    end.
Proof.
  destruct deadline_str; try reflexivity.
  unfold calculate_days_remaining. destruct (strptime s0); reflexivity.
Qed.

Lemma calculate_days_remaining_total (w : world) (deadline_str : json) (s : state) :
  exists days s',
    calculate_days_remaining w deadline_str s = (Ret days, s') /\
    calls s' = calls s /\ log s' = log s.
Proof.
  rewrite calculate_days_remaining_eq.
  destruct deadline_str as [| | |str| |];
    try (eexists _, _; repeat split; reflexivity).
  destruct (strptime str); eexists _, _; repeat split; reflexivity.
Qed.

End Deadline.

(** C3, as the code has it.  [calculate_days_remaining] never raises.  It
    is 0 for every input that [strptime] does not accept (a value that is
    not a string included) and for every deadline at or before the clock
    reading; for a deadline after it, the result is the whole-day floor of
    the remaining time, which is never negative and is positive exactly
    when a full day or more remains.  With 3 days and 4 hours left the
    result is 3. *)
Theorem calculate_days_remaining_spec
    (w : world) (deadline_str : json) (s : state) :
  let now_ := clock w (clock_reads s) in
  exists days s',
    calculate_days_remaining w deadline_str s = (Ret days, s') /\
    ((forall str, deadline_str = JStr str -> strptime str = None) ->
     days = 0%Z) /\
    (forall str deadline,
       deadline_str = JStr str -> strptime str = Some deadline ->
       (deadline <= now_)%Z ->
       days = 0%Z) /\
    (forall str deadline,
       deadline_str = JStr str -> strptime str = Some deadline ->
       (now_ < deadline)%Z ->
       days = ((deadline - now_) / us_per_day)%Z /\
       (0 <= days)%Z /\
       ((0 < days)%Z <-> (us_per_day <= deadline - now_)%Z) /\
       ((deadline - now_ = 3 * us_per_day + 4 * 3600 * us_per_second)%Z ->
        days = 3%Z)).
Proof.
  intros now_. rewrite calculate_days_remaining_eq.
  destruct deadline_str as [| | |str| |];
    try (eexists _, _; split; [reflexivity|];
         split; [reflexivity|]; split; intros; discriminate).
  destruct (strptime str) as [deadline|] eqn:Hparse.
  - eexists _, _. split; [reflexivity|]. fold now_. split; [|split].
    + intros Hbad. specialize (Hbad str eq_refl). congruence.
    + intros str' deadline' Hs Hd Hle. injection Hs as <-.
      assert (deadline' = deadline) as -> by congruence.
      unfold days_left. destruct (Z.leb_spec deadline now_); [reflexivity | lia].
    + intros str' deadline' Hs Hd Hlt. injection Hs as <-.
      assert (deadline' = deadline) as -> by congruence.
      assert (Hfloor : days_left deadline now_
                       = ((deadline - now_) / us_per_day)%Z).
      { unfold days_left. destruct (Z.leb_spec deadline now_); [lia | reflexivity]. }
      rewrite Hfloor. split; [reflexivity|]. split; [|split].
      * apply Z.div_pos; [lia | exact us_per_day_pos].
      * apply whole_days_positive_iff. lia.
      * intros ->. reflexivity.
  - eexists _, _. split; [reflexivity|]. split; [reflexivity|].
    split; intros str' deadline' Hs Hd; injection Hs as <-; congruence.
Qed.

(** A deadline of 2025-03-04 12:00:00 read at 2025-03-01 08:00:00 is 3
    days and 4 hours ahead. *)
Lemma calculate_days_remaining_spec_witness :
  fst (calculate_days_remaining Sample.at_morning (JStr "2025-03-04 12:00:00")
         initial_state) = Ret 3%Z.
Proof.
  destruct (calculate_days_remaining_spec Sample.at_morning
              (JStr "2025-03-04 12:00:00") initial_state)
    as (days & s' & Hrun & _ & _ & Hfuture).
  rewrite Hrun. cbn [fst]. f_equal.
  destruct (Hfuture "2025-03-04 12:00:00" 63876686400000000%Z
              eq_refl eq_refl eq_refl) as (_ & _ & _ & Hex).
  apply Hex. reflexivity.
Defined.

(** C3 as stated fails: the deadline 2025-03-01 12:00:00 is strictly after
    the clock reading 2025-03-01 08:00:00, and the result is 0, which is
    not positive. *)
Lemma calculate_days_remaining_future_not_positive :
  make_datetime 2025 3 1 8 0 0 = Some Sample.morning /\
  clock Sample.at_morning 0 = Sample.morning /\
  strptime "2025-03-01 12:00:00" = Some 63876427200000000%Z /\
  (Sample.morning < 63876427200000000)%Z /\
  fst (calculate_days_remaining Sample.at_morning (JStr "2025-03-01 12:00:00")
         initial_state) = Ret 0%Z /\
  match fst (calculate_days_remaining Sample.at_morning
               (JStr "2025-03-01 12:00:00") initial_state) with
  | Ret days => ~ (0 < days)%Z
  | Raise => False
  end.
Proof.
  repeat split; try reflexivity. vm_compute. discriminate.
Qed.

(** ** The status table of the past feed *)

Section Status.

Variable container_repr : json -> string.

Lemma status_map_lookup (status_id : string) :
  status_map !! status_id =
    if decide (status_id = "1") then Some "Closed"
    else if decide (status_id = "2") then Some "Cancelled"
    else if decide (status_id = "3") then Some "Awarded"
    else None.
Proof.
  unfold status_map.
  repeat case_decide; subst; simplify_map_eq; reflexivity.
Qed.

Lemma past_opps_loop_app items acc :
  past_opps_loop container_repr items acc
  = acc ++ past_opps_loop container_repr items [].
Proof.
  revert acc. induction items as [|item items IH]; intros acc; simpl.
  - now rewrite app_nil_r.
  - destruct item; try apply IH.
    rewrite IH. rewrite (IH [_]). now rewrite <- app_assoc.
Qed.

End Status.

(** C6.  For every raw record of the past feed, the status is read from the
    table through the text of its [ProjectSubStatusID]: ["1"] gives
    [Closed], ["2"] gives [Cancelled], ["3"] gives [Awarded], and every
    other text, the empty one and that of a missing field included, gives
    [Unknown].  The opportunities built from a list of raw entries carry
    exactly these statuses, one for each entry that is a dictionary. *)
Theorem past_status_mapping
    (container_repr : json -> string) (fields : list (string * json)) :
  let status_id :=
    py_str container_repr (dict_get fields "ProjectSubStatusID" (JStr "")) in
  (status_id = "1" -> past_status_of container_repr fields = "Closed") /\
  (status_id = "2" -> past_status_of container_repr fields = "Cancelled") /\
  (status_id = "3" -> past_status_of container_repr fields = "Awarded") /\
  (status_id <> "1" -> status_id <> "2" -> status_id <> "3" ->
   past_status_of container_repr fields = "Unknown") /\
  (status_id = "" -> past_status_of container_repr fields = "Unknown") /\
  (assoc_get fields "ProjectSubStatusID" = None ->
   past_status_of container_repr fields = "Unknown") /\
  (forall items,
     map past_status (past_opps_loop container_repr items [])
     = map (past_status_of container_repr)
           (omap (fun item => match item with
                              | JObj item_fields => Some item_fields
                              | _ => None
                              end) items)).
Proof.
  intros status_id.
  assert (Hget : past_status_of container_repr fields
                 = default "Unknown" (status_map !! status_id)) by reflexivity.
  rewrite Hget, status_map_lookup.
  repeat split.
  - intros ->. reflexivity.
  - intros ->. reflexivity.
  - intros ->. reflexivity.
  - intros H1 H2 H3. repeat case_decide; try contradiction. reflexivity.
  - intros ->. reflexivity.
  - intros Hmissing. subst status_id. unfold dict_get. rewrite Hmissing.
    reflexivity.
  - induction items as [|item items IH]; [reflexivity|].
    cbn [past_opps_loop omap list_omap].
    destruct item; try exact IH.
    rewrite past_opps_loop_app. cbn [map app past_status]. now rewrite IH.
Qed.

(** A record whose code is the text ["3"], and one whose code is the number 1. *)
Lemma past_status_mapping_witness :
  past_status_of Sample.no_repr [("ProjectSubStatusID", JStr "3")] = "Awarded" /\
  past_status_of Sample.no_repr [("ProjectSubStatusID", JNum 1)] = "Closed" /\
  past_status_of Sample.no_repr [("ReferenceID", JStr "R-7")] = "Unknown".
Proof.
  split; [|split].
  - apply (past_status_mapping Sample.no_repr [("ProjectSubStatusID", JStr "3")]).
    reflexivity.
  - apply (past_status_mapping Sample.no_repr [("ProjectSubStatusID", JNum 1)]).
    reflexivity.
  - apply (past_status_mapping Sample.no_repr [("ReferenceID", JStr "R-7")]).
    reflexivity.
Defined.

(** ** [login] *)

(** Unfolds the monad down to the answers of the browser. *)
Ltac run_browser :=
  cbv beta iota zeta delta
    [login login_try try_catch bind go_to query type_text click sleep emit
     browser_call ret password_selectors find_password_field negb
     calls clock_reads log Nat.add fst].

(** The scrutinee of the innermost [match] at the head of [t]: the next
    answer of the browser that the program waits for. *)
Ltac head_answer t :=
  lazymatch t with
  | match ?x with _ => _ end => head_answer x
  | _ => t
  end.

Ltac next_answer :=
  lazymatch goal with
  | |- match ?prog with _ => _ end =>
      let x := head_answer prog in
      destruct x eqn:?; run_browser
  end.

Ltac login_leaf :=
  split;
  [ intuition congruence
  | first [ discriminate
          | intros _; left; reflexivity
          | intros _; right; left; intuition congruence
          | intros _; right; right; left; intuition congruence
          | intros _; right; right; right; intuition congruence ] ].

(** C10.  [login] never raises.  It returns [True] exactly when the page
    is reached, the email field is found and filled, the continue button is
    found and clicked, one of the three password selectors (tried in order)
    finds the field, the password is typed, and the query for the submit
    button does not raise; the button itself need not be found, and when it
    is, its click must not raise.  When [login] returns [False], either the
    [try] block raised, or the email field, the continue button or the
    password field was not found. *)
Theorem login_outcomes (w : world) (LOGIN_URL email password : string)
    (s : state) :
  let c := calls s in
  let submit := "//button[@type='submit']" in
  let submitted n :=
    type_text_ok w n password = true /\
    (query_of w (1 + n) submit = QNone \/
     (query_of w (1 + n) submit = QElement /\ click_ok w (2 + n) = true)) in
  let email_entered :=
    goto_ok w c LOGIN_URL = true /\
    query_of w (1 + c) "input#input-email" = QElement /\
    type_text_ok w (2 + c) email = true in
  let continued :=
    query_of w (3 + c) submit = QElement /\ click_ok w (4 + c) = true in
  match login w LOGIN_URL email password s with
  | (Ret b, _) =>
      (b = true <->
       email_entered /\ continued /\
       ((query_of w (5 + c) "input#password" = QElement /\ submitted (6 + c)) \/
        (query_of w (5 + c) "input#password" = QNone /\
         query_of w (6 + c) "input[type='password']" = QElement /\
         submitted (7 + c)) \/
        (query_of w (5 + c) "input#password" = QNone /\
         query_of w (6 + c) "input[type='password']" = QNone /\
         query_of w (7 + c) "//input[@type='password']" = QElement /\
         submitted (8 + c)))) /\
      (b = false ->
       fst (login_try w LOGIN_URL email password s) = Raise \/
       (goto_ok w c LOGIN_URL = true /\
        query_of w (1 + c) "input#input-email" = QNone) \/
       (email_entered /\ query_of w (3 + c) submit = QNone) \/
       (email_entered /\ continued /\
        query_of w (5 + c) "input#password" = QNone /\
        query_of w (6 + c) "input[type='password']" = QNone /\
        query_of w (7 + c) "//input[@type='password']" = QNone))
  | (Raise, _) => False
  end.
Proof.
  intros c submit submitted email_entered continued.
  subst c submit submitted email_entered continued.
  destruct s as [n reads events].
  run_browser.
  repeat next_answer; login_leaf.
Qed.

(** On a page where the button that submits the password is never found,
    [login] still returns [True]. *)
Lemma login_outcomes_witness :
  fst (login Sample.no_submit_button settings.LOGIN_URL "me@example.org" "secret"
         initial_state) = Ret true.
Proof.
  pose proof (login_outcomes Sample.no_submit_button settings.LOGIN_URL
                "me@example.org" "secret" initial_state) as H.
  cbv zeta in H.
  destruct (login Sample.no_submit_button settings.LOGIN_URL "me@example.org"
              "secret" initial_state) as [[b|] s']; [|contradiction].
  destruct H as [Htrue _]. cbn [fst]. f_equal. apply Htrue.
  repeat split; try reflexivity. left. repeat split; try reflexivity.
  left. reflexivity.
Defined.

(** ** Discovery: the buckets *)

Section Buckets.

Variable str_upper : string -> string.
Variable container_repr : json -> string.
Variable TARGET_LETTERS : list string.
Variable AGENCIES_PER_LETTER : nat.

Local Abbreviation process :=
  (process_org str_upper container_repr TARGET_LETTERS AGENCIES_PER_LETTER).
Local Abbreviation record_of :=
  (org_record str_upper container_repr TARGET_LETTERS).
Local Abbreviation offered_to :=
  (records_for str_upper container_repr TARGET_LETTERS).
Local Abbreviation tracked :=
  (tracks str_upper container_repr TARGET_LETTERS AGENCIES_PER_LETTER).

(** [process] appends the record of [record_of] to the bucket of its
    letter when that bucket is below the quota, and does nothing else. *)
Lemma process_org_record (by_letter : gmap string (list agency)) (org : json) :
  process by_letter org =
    match record_of org with
    | Some (first_letter, agency_data) =>
        match by_letter !! first_letter with
        | Some agencies =>
            if length agencies <? AGENCIES_PER_LETTER
            then <[first_letter := agencies ++ [agency_data]]> by_letter
            else by_letter
        | None => by_letter
        end
    | None => by_letter
    end.
Proof.
  unfold process_org, org_record.
  destruct (py_get org "OrganizationName" (JStr "")) as [name|]; [|reflexivity].
  destruct (py_get org "Domain" (JStr "")) as [domain|]; [|reflexivity].
  destruct (negb (truthy name) || negb (truthy domain)); [reflexivity|].
  destruct (py_index0 name) as [first_char|]; [|reflexivity].
  destruct (py_upper str_upper first_char) as [first_letter|]; [|reflexivity].
  destruct (bool_decide (first_letter ∈ TARGET_LETTERS)); reflexivity.
Qed.

(** What a record in a bucket says about the entry it was made from. *)
Lemma org_record_Some (org : json) (l : string) (a : agency) :
  record_of org = Some (l, a) ->
  l ∈ TARGET_LETTERS /\
  exists name domain first_char,
    py_get org "OrganizationName" (JStr "") = Some name /\
    py_get org "Domain" (JStr "") = Some domain /\
    truthy name = true /\ truthy domain = true /\
    py_index0 name = Some first_char /\
    py_upper str_upper first_char = Some l /\
    a = {| agency_name := name;
           agency_url := "https://" +:+ py_str container_repr domain |}.
Proof.
  unfold org_record. intros H.
  destruct (py_get org "OrganizationName" (JStr "")) as [name|] eqn:Hname;
    [|discriminate].
  destruct (py_get org "Domain" (JStr "")) as [domain|] eqn:Hdomain;
    [|discriminate].
  destruct (truthy name) eqn:Hn, (truthy domain) eqn:Hd; try discriminate.
  cbn [negb orb] in H.
  destruct (py_index0 name) as [first_char|] eqn:Hfirst; [|discriminate].
  destruct (py_upper str_upper first_char) as [first_letter|] eqn:Hupper;
    [|discriminate].
  destruct (bool_decide (first_letter ∈ TARGET_LETTERS)) eqn:Hin; [|discriminate].
  apply bool_decide_eq_true in Hin. injection H as -> <-.
  split; [exact Hin|]. exists name, domain, first_char.
  repeat split; try assumption; reflexivity.
Qed.

Lemma records_for_snoc (l : string) (prev : list json) (org : json) :
  offered_to l (prev ++ [org]) =
    offered_to l prev ++
      match record_of org with
      | Some (first_letter, agency_data) =>
          if decide (first_letter = l) then [agency_data] else []
      | None => []
      end.
Proof.
  unfold records_for. rewrite omap_app. f_equal. cbn.
  destruct (record_of org) as [[first_letter agency_data]|]; [|reflexivity].
  destruct (decide (first_letter = l)); reflexivity.
Qed.

(** Every record offered to the bucket of [l] comes from an entry whose
    record carries the letter [l]. *)
Lemma records_for_elem (l : string) (orgs : list json) (a : agency) :
  a ∈ offered_to l orgs -> exists org, org ∈ orgs /\ record_of org = Some (l, a).
Proof.
  unfold records_for. rewrite list_elem_of_omap.
  intros (org & Hin & Hrec). exists org. split; [exact Hin|].
  destruct (record_of org) as [[first_letter agency_data]|]; [|discriminate].
  destruct (decide (first_letter = l)) as [->|]; [|discriminate].
  now injection Hrec as ->.
Qed.

Lemma init_buckets_lookup (letters : list string)
    (m : gmap string (list agency)) (l : string) :
  foldl (fun m letter => <[letter := []]> m) m letters !! l =
    if decide (l ∈ letters) then Some [] else m !! l.
Proof.
  revert m. induction letters as [|x letters IH]; intros m; cbn [foldl].
  - rewrite decide_False by apply not_elem_of_nil. reflexivity.
  - rewrite IH. destruct (decide (l ∈ letters)) as [Hin|Hnot].
    + rewrite decide_True by (right; exact Hin). reflexivity.
    + destruct (decide (l = x)) as [->|Hne].
      * rewrite lookup_insert_eq, decide_True by left. reflexivity.
      * rewrite lookup_insert_ne by congruence.
        rewrite decide_False; [reflexivity|].
        intros Hc. apply elem_of_cons in Hc as [?|?]; contradiction.
Qed.

Lemma tracks_empty : tracked (empty_buckets TARGET_LETTERS) [].
Proof.
  intros l. unfold empty_buckets. rewrite init_buckets_lookup, lookup_empty.
  destruct (decide (l ∈ TARGET_LETTERS)); [|reflexivity].
  unfold records_for. cbn [omap list_omap]. now rewrite take_nil.
Qed.

Lemma tracks_process_org by_letter seen org :
  tracked by_letter seen -> tracked (process by_letter org) (seen ++ [org]).
Proof.
  intros Ht l. rewrite process_org_record, records_for_snoc.
  destruct (record_of org) as [[fl a]|] eqn:Hrec.
  2: { rewrite app_nil_r. apply Ht. }
  destruct (org_record_Some _ _ _ Hrec) as [Hfl _].
  rewrite (Ht fl), decide_True by exact Hfl.
  set (offered := offered_to fl seen).
  destruct (Nat.ltb_spec (length (take AGENCIES_PER_LETTER offered))
              AGENCIES_PER_LETTER) as [Hlt|Hge];
    rewrite length_take in *.
  - destruct (decide (fl = l)) as [<-|Hne].
    + rewrite lookup_insert_eq, decide_True by exact Hfl. fold offered.
      rewrite (take_ge offered) by lia.
      rewrite take_ge; [reflexivity|]. rewrite length_app. cbn. lia.
    + rewrite lookup_insert_ne by exact Hne. rewrite app_nil_r. apply Ht.
  - destruct (decide (fl = l)) as [<-|Hne].
    + rewrite (Ht fl). rewrite !decide_True by exact Hfl. fold offered.
      rewrite take_app_le by lia. reflexivity.
    + rewrite app_nil_r. apply Ht.
Qed.

Lemma tracks_process_page by_letter seen orgs :
  tracked by_letter seen ->
  tracked (foldl process by_letter orgs) (seen ++ orgs).
Proof.
  revert by_letter seen. induction orgs as [|org orgs IH]; intros b seen Ht.
  - now rewrite app_nil_r.
  - cbn [foldl]. replace (seen ++ org :: orgs) with ((seen ++ [org]) ++ orgs)
      by now rewrite <- app_assoc.
    apply IH, tracks_process_org, Ht.
Qed.

(** Every target letter has its bucket, so the lookups of [all_full] and
    of the final selection never miss. *)
Lemma bucket_keys by_letter seen l :
  tracked by_letter seen -> l ∈ TARGET_LETTERS ->
  by_letter !! l = Some (bucket by_letter l).
Proof.
  intros Ht Hl. unfold bucket. rewrite (Ht l), decide_True by exact Hl.
  reflexivity.
Qed.

Lemma tracks_bucket by_letter seen l :
  tracked by_letter seen -> l ∈ TARGET_LETTERS ->
  bucket by_letter l = take AGENCIES_PER_LETTER (offered_to l seen).
Proof.
  intros Ht Hl. unfold bucket. rewrite (Ht l), decide_True by exact Hl.
  reflexivity.
Qed.

(** Lines 340-342 concatenate the buckets in the order of the letters. *)
Lemma select_agencies_concat (by_letter : gmap string (list agency)) :
  select_agencies TARGET_LETTERS AGENCIES_PER_LETTER by_letter =
    concat (map (fun l => take AGENCIES_PER_LETTER (bucket by_letter l))
                TARGET_LETTERS).
Proof.
  unfold select_agencies.
  enough (H : forall letters acc,
             foldl (fun selected letter =>
                      selected ++ take AGENCIES_PER_LETTER (bucket by_letter letter))
                   acc letters
             = acc ++ concat (map (fun l => take AGENCIES_PER_LETTER
                                              (bucket by_letter l)) letters))
    by apply (H TARGET_LETTERS []).
  induction letters as [|l letters IH]; intros acc; cbn [foldl map concat].
  - now rewrite app_nil_r.
  - rewrite IH. now rewrite <- app_assoc.
Qed.

End Buckets.

(** ** Discovery: the loop *)

Section Discovery.

Variable json_loads : string -> loads_result.
Variable str_upper : string -> string.
Variable container_repr : json -> string.
Variable w : world.
Variable TARGET_LETTERS : list string.
Variable AGENCIES_PER_LETTER : nat.
Variable MAX_RETRIES : nat.
Variable PAGE_LIMIT : nat.
Variable ORGANIZATIONS_API : string.

Local Abbreviation process :=
  (process_org str_upper container_repr TARGET_LETTERS AGENCIES_PER_LETTER).
Local Abbreviation tracked :=
  (tracks str_upper container_repr TARGET_LETTERS AGENCIES_PER_LETTER).
Local Abbreviation attempt :=
  (page_attempt json_loads str_upper container_repr w TARGET_LETTERS
     AGENCIES_PER_LETTER).
Local Abbreviation attempts :=
  (page_attempts json_loads str_upper container_repr w TARGET_LETTERS
     AGENCIES_PER_LETTER).
Local Abbreviation loop :=
  (fetch_loop json_loads str_upper container_repr w TARGET_LETTERS
     AGENCIES_PER_LETTER MAX_RETRIES PAGE_LIMIT ORGANIZATIONS_API).
Local Abbreviation url_of := (page_url PAGE_LIMIT ORGANIZATIONS_API).
Local Abbreviation answer_at :=
  (fun (t : nat) (url : string) => page_answer_of json_loads (page_of w t url)).
Local Abbreviation full := (all_full TARGET_LETTERS AGENCIES_PER_LETTER).

(** One attempt, read off the answer of the portal. *)
Lemma page_attempt_eq url by_letter s :
  attempt url by_letter s =
    match answer_at (calls s) url with
    | AnswerRaise => (Raise, fetched url s)
    | AnswerEnd => (Ret (true, by_letter), fetched url s)
    | AnswerOrgs orgs => (Ret (false, foldl process by_letter orgs), fetched url s)
    end.
Proof.
  unfold page_attempt, bind, fetch, browser_call, page_answer_of,
    ends_discovery, fetched, of_option, ret, raise.
  destruct (page_of w (calls s) url) as [page_content|]; [|reflexivity].
  cbv zeta.
  destruct (extract_json_from_page json_loads page_content) as [json_data|];
    [|reflexivity].
  destruct (truthy json_data); cbn [negb orb]; [|reflexivity].
  destruct (is_error_response json_data); [reflexivity|].
  destruct (py_iter json_data); reflexivity.
Qed.

Lemma page_attempts_S n url by_letter s :
  attempts (S n) url by_letter s =
    match answer_at (calls s) url with
    | AnswerRaise => attempts n url by_letter (slept REQUEST_DELAY (fetched url s))
    | AnswerEnd => (Ret (true, by_letter), fetched url s)
    | AnswerOrgs orgs => (Ret (false, foldl process by_letter orgs), fetched url s)
    end.
Proof.
  cbn [page_attempts]. unfold try_catch. rewrite page_attempt_eq.
  destruct (answer_at (calls s) url); reflexivity.
Qed.

Lemma calls_retried n url s : calls (retried n url s) = calls s + n.
Proof.
  revert s. induction n as [|n IH]; intros s; cbn [retried].
  - lia.
  - rewrite IH. cbn. lia.
Qed.

(** The attempts on one page: [k] raising attempts, each followed by the
    delay, then either the range is exhausted or an attempt decides. *)
Lemma page_attempts_run n url by_letter s :
  (exists k, k <= n /\
     (forall i, i < k -> answer_at (calls s + i) url = AnswerRaise) /\
     ((k = n /\
       attempts n url by_letter s = (Ret (false, by_letter), retried n url s)) \/
      (k < n /\ answer_at (calls s + k) url = AnswerEnd /\
       attempts n url by_letter s
         = (Ret (true, by_letter), fetched url (retried k url s))) \/
      (k < n /\ exists orgs,
         answer_at (calls s + k) url = AnswerOrgs orgs /\
         attempts n url by_letter s
           = (Ret (false, foldl process by_letter orgs),
              fetched url (retried k url s))))).
Proof.
  revert s. induction n as [|n IH]; intros s.
  - exists 0. split; [lia|]. split; [intros i Hi; lia|]. left. split; reflexivity.
  - rewrite page_attempts_S.
    destruct (answer_at (calls s) url) as [| |orgs] eqn:Hans.
    + destruct (IH (slept REQUEST_DELAY (fetched url s)))
        as (k & Hk & Hraise & Hcases).
      assert (Hshift : forall i,
                 calls (slept REQUEST_DELAY (fetched url s)) + i = calls s + S i)
        by (intros i; cbn; lia).
      exists (S k). split; [lia|]. split.
      * intros [|i] Hi; [now rewrite Nat.add_0_r|].
        rewrite <- Hshift. apply Hraise. lia.
      * rewrite <- Hshift. cbn [retried].
        destruct Hcases as [[-> Heq]|[(Hlt & Hend & Heq)|(Hlt & orgs & Horgs & Heq)]].
        -- left. split; [reflexivity | exact Heq].
        -- right; left. split; [lia|]. split; [exact Hend | exact Heq].
        -- right; right. split; [lia|]. exists orgs. split; [exact Horgs | exact Heq].
    + exists 0. split; [lia|]. split; [intros i Hi; lia|]. right; left.
      rewrite Nat.add_0_r. split; [lia|]. split; [exact Hans | reflexivity].
    + exists 0. split; [lia|]. split; [intros i Hi; lia|]. right; right.
      rewrite Nat.add_0_r. split; [lia|]. exists orgs. split; [exact Hans | reflexivity].
Qed.

Lemma fetch_loop_S fuel page_num by_letter s :
  loop (S fuel) page_num by_letter s =
    if full by_letter then (Ret (Finished by_letter), s)
    else
      match attempts MAX_RETRIES (url_of page_num) by_letter s with
      | (Ret (true, by_letter'), s') => (Ret (Finished by_letter'), s')
      | (Ret (false, by_letter'), s') => loop fuel (page_num + 1) by_letter' s'
      | (Raise, s') => (Raise, s')
      end.
Proof.
  cbn [fetch_loop]. destruct (full by_letter); [reflexivity|].
  unfold bind.
  destruct (attempts MAX_RETRIES (url_of page_num) by_letter s)
    as [[[[|] by_letter']|] s']; reflexivity.
Qed.

(** Whatever the portal answers and however long the loop runs, the
    buckets are those produced by the entries of the pages processed so
    far, and these pages were visited in increasing order. *)
Lemma fetch_loop_tracks fuel :
  forall page_num by_letter s seen,
    tracked by_letter seen ->
    exists r s' (pages : list (nat * list json)),
      loop fuel page_num by_letter s = (Ret r, s') /\
      tracked (exit_value r) (seen ++ concat (map snd pages)) /\
      Forall (fun pg => page_num <= fst pg /\
                exists t, answer_at t (url_of (fst pg)) = AnswerOrgs (snd pg))
             pages /\
      StronglySorted lt (map fst pages).
Proof.
  induction fuel as [|fuel IH]; intros p b s seen Ht.
  - exists (OutOfFuel b), s, []. cbn. rewrite app_nil_r.
    repeat split; [exact Ht | constructor | constructor].
  - rewrite fetch_loop_S. destruct (full b).
    { exists (Finished b), s, []. cbn. rewrite app_nil_r.
      repeat split; [exact Ht | constructor | constructor]. }
    destruct (page_attempts_run MAX_RETRIES (url_of p) b s)
      as (k & _ & _ & [[_ Heq]|[(_ & _ & Heq)|(_ & orgs & Horgs & Heq)]]);
      rewrite Heq.
    + destruct (IH (p + 1) b (retried MAX_RETRIES (url_of p) s) seen Ht)
        as (r & s' & pages & Hrun & Htr & Hall & Hsort).
      exists r, s', pages. repeat split; try assumption.
      eapply Forall_impl; [exact Hall|]. cbn. intros pg [Hle Hex].
      split; [lia | exact Hex].
    + exists (Finished b), (fetched (url_of p) (retried k (url_of p) s)), [].
      cbn. rewrite app_nil_r.
      repeat split; [exact Ht | constructor | constructor].
    + destruct (IH (p + 1) (foldl process b orgs)
                  (fetched (url_of p) (retried k (url_of p) s)) (seen ++ orgs)
                  (tracks_process_page _ _ _ _ _ _ _ Ht))
        as (r & s' & pages & Hrun & Htr & Hall & Hsort).
      exists r, s', ((p, orgs) :: pages). cbn [map concat fst snd].
      split; [exact Hrun|]. split; [now rewrite app_assoc|]. split.
      * constructor.
        -- cbn. split; [lia|]. eexists. exact Horgs.
        -- eapply Forall_impl; [exact Hall|]. cbn. intros pg [Hle Hex].
           split; [lia | exact Hex].
      * constructor; [exact Hsort|].
        apply Forall_fmap. eapply Forall_impl; [exact Hall|].
        cbn. intros pg [Hle _]. lia.
Qed.

(** [fetch_agencies], read off [fetch_loop]. *)
Lemma fetch_agencies_eq fuel s :
  fetch_agencies json_loads str_upper container_repr w TARGET_LETTERS
    AGENCIES_PER_LETTER MAX_RETRIES PAGE_LIMIT ORGANIZATIONS_API fuel s =
    match loop fuel 1 (empty_buckets TARGET_LETTERS) (slept (Seconds 40) s) with
    | (Ret (Finished by_letter), s') =>
        (Ret (Finished (select_agencies TARGET_LETTERS AGENCIES_PER_LETTER
                          by_letter)), s')
    | (Ret (OutOfFuel by_letter), s') =>
        (Ret (OutOfFuel (select_agencies TARGET_LETTERS AGENCIES_PER_LETTER
                           by_letter)), s')
    | (Raise, s') => (Raise, s')
    end.
Proof.
  unfold fetch_agencies, bind, sleep, emit, ret. fold (slept (Seconds 40) s).
  destruct (loop fuel 1 (empty_buckets TARGET_LETTERS) (slept (Seconds 40) s))
    as [[[by_letter|by_letter]|] s']; reflexivity.
Qed.

End Discovery.

Lemma py_get_present (org : json) (k : string) (v : json) :
  py_get org k (JStr "") = Some v -> truthy v = true ->
  exists fields, org = JObj fields /\ assoc_get fields k = Some v.
Proof.
  destruct org as [| | | |items|fields]; try discriminate.
  cbn [py_get]. unfold dict_get. intros H Hv. exists fields. split; [reflexivity|].
  destruct (assoc_get fields k) as [v'|]; [congruence|].
  injection H as <-. discriminate.
Qed.

Lemma page_answer_orgs json_loads (answer : option string) (orgs : list json) :
  page_answer_of json_loads answer = AnswerOrgs orgs ->
  exists page_content json_data,
    answer = Some page_content /\
    extract_json_from_page json_loads page_content = Some json_data /\
    ends_discovery json_data = false /\
    py_iter json_data = Some orgs.
Proof.
  unfold page_answer_of. destruct answer as [page_content|]; [|discriminate].
  destruct (extract_json_from_page json_loads page_content) as [json_data|]
    eqn:Hdata; [|discriminate].
  destruct (ends_discovery json_data) eqn:Hend; [discriminate|].
  destruct (py_iter json_data) as [orgs'|] eqn:Hiter; [|discriminate].
  intros H. injection H as ->. exists page_content, json_data.
  split; [reflexivity|]. split; [exact Hdata|]. split; [exact Hend | exact Hiter].
Qed.

(** C1.  Discovery never raises, and at every point of the loop (whatever
    the portal answers, and however many iterations have run) each bucket
    belongs to a target letter, holds at most [AGENCIES_PER_LETTER]
    records, and each record in the bucket of letter [l] was made from an
    entry of a fetched page that is a dictionary with a truthy
    [OrganizationName] and a truthy [Domain], whose name has [l] as the
    upper-cased first character, and has the shape
    [{agency_name: name, agency_url: "https://" + domain}].  The list
    that [fetch_agencies] returns is selected from these buckets. *)
Theorem discovery_buckets
    (json_loads : string -> loads_result) (str_upper : string -> string)
    (container_repr : json -> string) (w : world)
    (TARGET_LETTERS : list string)
    (AGENCIES_PER_LETTER MAX_RETRIES PAGE_LIMIT : nat)
    (ORGANIZATIONS_API : string) (fuel : nat) (s : state) :
  exists buckets selected s',
    fetch_loop json_loads str_upper container_repr w TARGET_LETTERS
      AGENCIES_PER_LETTER MAX_RETRIES PAGE_LIMIT ORGANIZATIONS_API fuel 1
      (empty_buckets TARGET_LETTERS) (slept (Seconds 40) s)
      = (Ret buckets, s') /\
    fetch_agencies json_loads str_upper container_repr w TARGET_LETTERS
      AGENCIES_PER_LETTER MAX_RETRIES PAGE_LIMIT ORGANIZATIONS_API fuel s
      = (Ret selected, s') /\
    exit_value selected
      = select_agencies TARGET_LETTERS AGENCIES_PER_LETTER (exit_value buckets) /\
    forall (l : string) (agencies : list agency),
      exit_value buckets !! l = Some agencies ->
      l ∈ TARGET_LETTERS /\
      length agencies <= AGENCIES_PER_LETTER /\
      Forall (fun a =>
        exists page_num t page_content json_data orgs fields name domain
               first_char,
          page_of w t (page_url PAGE_LIMIT ORGANIZATIONS_API page_num)
            = Some page_content /\
          extract_json_from_page json_loads page_content = Some json_data /\
          py_iter json_data = Some orgs /\
          JObj fields ∈ orgs /\
          assoc_get fields "OrganizationName" = Some name /\
          assoc_get fields "Domain" = Some domain /\
          truthy name = true /\ truthy domain = true /\
          py_index0 name = Some first_char /\
          py_upper str_upper first_char = Some l /\
          a = {| agency_name := name;
                 agency_url := "https://" +:+ py_str container_repr domain |})
        agencies.
Proof.
  destruct (fetch_loop_tracks json_loads str_upper container_repr w
              TARGET_LETTERS AGENCIES_PER_LETTER MAX_RETRIES PAGE_LIMIT
              ORGANIZATIONS_API fuel 1 (empty_buckets TARGET_LETTERS)
              (slept (Seconds 40) s) []
              (tracks_empty _ _ _ _))
    as (r & s' & pages & Hrun & Htr & Hall & _).
  exists r.
  exists (match r with
          | Finished b => Finished (select_agencies TARGET_LETTERS AGENCIES_PER_LETTER b)
          | OutOfFuel b => OutOfFuel (select_agencies TARGET_LETTERS AGENCIES_PER_LETTER b)
          end), s'.
  split; [exact Hrun|]. split.
  { rewrite fetch_agencies_eq, Hrun. destruct r; reflexivity. }
  split; [destruct r; reflexivity|].
  intros l agencies Hl. rewrite (Htr l) in Hl.
  destruct (decide (l ∈ TARGET_LETTERS)) as [Hin|]; [|discriminate].
  injection Hl as <-. split; [exact Hin|]. split.
  { rewrite length_take. lia. }
  apply Forall_forall. intros a Ha.
  apply subseteq_take in Ha. cbn [app] in Ha.
  apply records_for_elem in Ha as (org & Horg & Hrec).
  apply list_elem_of_In, in_concat in Horg as (orgs & Horgs & Horg).
  apply in_map_iff in Horgs as ([p orgs'] & <- & Hpg). cbn [snd] in Horg.
  apply list_elem_of_In in Horg, Hpg.
  rewrite Forall_forall in Hall. destruct (Hall _ Hpg) as [_ [t Hans]].
  cbn [fst snd] in Hans.
  apply page_answer_orgs in Hans
    as (page_content & json_data & Hpage & Hdata & _ & Hiter).
  apply org_record_Some in Hrec
    as (_ & name & domain & first_char & Hname & Hdomain & Hn & Hd & Hfirst & Hup & ->).
  destruct (py_get_present _ _ _ Hname Hn) as (fields & -> & Hfn).
  destruct (py_get_present _ _ _ Hdomain Hd) as (fields' & Heq & Hfd).
  injection Heq as <-.
  exists p, t, page_content, json_data, orgs', fields, name, domain, first_char.
  repeat split; assumption.
Qed.

(** ** Discovery: retries and termination *)

Section Retries.

Variable json_loads : string -> loads_result.
Variable str_upper : string -> string.
Variable container_repr : json -> string.
Variable w : world.
Variable TARGET_LETTERS : list string.
Variable AGENCIES_PER_LETTER : nat.
Variable MAX_RETRIES : nat.
Variable PAGE_LIMIT : nat.
Variable ORGANIZATIONS_API : string.

Local Abbreviation process :=
  (process_org str_upper container_repr TARGET_LETTERS AGENCIES_PER_LETTER).
Local Abbreviation attempts :=
  (page_attempts json_loads str_upper container_repr w TARGET_LETTERS
     AGENCIES_PER_LETTER).
Local Abbreviation loop :=
  (fetch_loop json_loads str_upper container_repr w TARGET_LETTERS
     AGENCIES_PER_LETTER MAX_RETRIES PAGE_LIMIT ORGANIZATIONS_API).
Local Abbreviation url_of := (page_url PAGE_LIMIT ORGANIZATIONS_API).
Local Abbreviation answer_at :=
  (fun (t : nat) (url : string) => page_answer_of json_loads (page_of w t url)).
Local Abbreviation full := (all_full TARGET_LETTERS AGENCIES_PER_LETTER).

(** After [k] attempts that raise, the remaining attempts run from the
    state reached by [k] fetches and [k] delays. *)
Lemma page_attempts_after_raises k :
  forall n url by_letter s,
    (forall i, i < k -> answer_at (calls s + i) url = AnswerRaise) ->
    attempts (k + n) url by_letter s = attempts n url by_letter (retried k url s).
Proof.
  induction k as [|k IH]; intros n url b s Hraise; [reflexivity|].
  cbn [Nat.add retried].
  rewrite (page_attempts_S json_loads str_upper container_repr w).
  specialize (Hraise 0 ltac:(lia)) as H0. rewrite Nat.add_0_r in H0. rewrite H0.
  apply IH. intros i Hi.
  replace (calls (slept REQUEST_DELAY (fetched url s)) + i) with (calls s + S i)
    by (cbn; lia).
  apply Hraise. lia.
Qed.

Lemma retried_snoc k url s :
  retried (S k) url s = slept REQUEST_DELAY (fetched url (retried k url s)).
Proof.
  revert s. induction k as [|k IH]; intros s; [reflexivity|].
  change (retried (S (S k)) url s)
    with (retried (S k) url (slept REQUEST_DELAY (fetched url s))).
  now rewrite IH.
Qed.

Lemma page_attempts_decided k n url by_letter s :
  k < n ->
  (forall i, i < k -> answer_at (calls s + i) url = AnswerRaise) ->
  attempts n url by_letter s =
    match answer_at (calls s + k) url with
    | AnswerRaise =>
        attempts (n - S k) url by_letter (retried (S k) url s)
    | AnswerEnd => (Ret (true, by_letter), fetched url (retried k url s))
    | AnswerOrgs orgs =>
        (Ret (false, foldl process by_letter orgs), fetched url (retried k url s))
    end.
Proof.
  intros Hk Hraise.
  replace n with (k + S (n - S k)) at 1 by lia.
  rewrite (page_attempts_after_raises k _ _ _ _ Hraise).
  rewrite (page_attempts_S json_loads str_upper container_repr w).
  rewrite calls_retried, retried_snoc.
  destruct (answer_at (calls s + k) url); reflexivity.
Qed.

Lemma page_attempts_exhausted n url by_letter s :
  (forall i, i < n -> answer_at (calls s + i) url = AnswerRaise) ->
  attempts n url by_letter s = (Ret (false, by_letter), retried n url s).
Proof.
  intros Hraise. replace n with (n + 0) at 1 by lia.
  now rewrite (page_attempts_after_raises n _ _ _ _ Hraise).
Qed.

(** The attempts on a page make at most [n] browser calls. *)
Lemma page_attempts_calls n url by_letter s :
  exists reached_end by_letter' s',
    attempts n url by_letter s = (Ret (reached_end, by_letter'), s') /\
    calls s' <= calls s + n.
Proof.
  destruct (page_attempts_run json_loads str_upper container_repr w
              TARGET_LETTERS AGENCIES_PER_LETTER n url by_letter s)
    as (k & Hk & _ & [[_ Heq]|[(Hlt & _ & Heq)|(Hlt & orgs & _ & Heq)]]);
    rewrite Heq; do 3 eexists; (split; [reflexivity|]);
    cbn [calls fetched]; rewrite calls_retried; lia.
Qed.

(** The payload test of lines 299 and 304, spelled out. *)
Lemma ends_discovery_true (json_data : json) :
  ends_discovery json_data = true <->
  truthy json_data = false \/
  exists fields, json_data = JObj fields /\
                 truthy (dict_get fields "message" JNull) = true.
Proof.
  unfold ends_discovery. rewrite orb_true_iff, negb_true_iff. split.
  - intros [H|H]; [left; exact H|]. right.
    destruct json_data; try discriminate. eexists. split; [reflexivity | exact H].
  - intros [H|(fields & -> & H)]; [left; exact H | right; exact H].
Qed.

Lemma page_answer_end (answer : option string) :
  (exists page_content json_data,
      answer = Some page_content /\
      extract_json_from_page json_loads page_content = Some json_data /\
      ends_discovery json_data = true) ->
  page_answer_of json_loads answer = AnswerEnd.
Proof.
  intros (page_content & json_data & -> & Hdata & H). unfold page_answer_of.
  now rewrite Hdata, H.
Qed.

(** If page [N] is at its end whenever it is asked for, the loop started at
    a page up to [N] leaves within the fuel [N - page_num + 1], after at
    most [MAX_RETRIES] browser calls for each page before [N] and one for
    page [N]. *)
Lemma fetch_loop_terminates (N : nat) :
  0 < MAX_RETRIES ->
  (forall t, answer_at t (url_of N) = AnswerEnd) ->
  forall fuel page_num by_letter s,
    page_num <= N -> N - page_num < fuel ->
    exists by_letter' s',
      loop fuel page_num by_letter s = (Ret (Finished by_letter'), s') /\
      calls s' <= calls s + MAX_RETRIES * (N - page_num) + 1.
Proof.
  intros Hretries Hend.
  induction fuel as [|fuel IH]; intros p b s Hp Hfuel; [lia|].
  rewrite (fetch_loop_S json_loads str_upper container_repr w).
  destruct (full b).
  { exists b, s. split; [reflexivity | nia]. }
  destruct (decide (p = N)) as [->|Hne].
  - rewrite (page_attempts_decided 0) by (lia || (intros i Hi; lia)).
    rewrite Hend. cbn [retried].
    eexists _, _. split; [reflexivity|]. cbn [calls fetched].
    rewrite Nat.sub_diag, Nat.mul_0_r. lia.
  - destruct (page_attempts_calls MAX_RETRIES (url_of p) b s)
      as (reached_end & b' & s1 & Heq & Hcalls).
    rewrite Heq. destruct reached_end.
    + eexists _, _. split; [reflexivity|]. nia.
    + destruct (IH (p + 1) b' s1 ltac:(lia) ltac:(lia)) as (b2 & s2 & Hrun & Hc2).
      exists b2, s2. split; [exact Hrun|]. nia.
Qed.

Lemma log_retried k url s :
  log (retried k url s) =
    log s ++ concat (replicate k [EvFetch url; EvSleep REQUEST_DELAY]).
Proof.
  revert s. induction k as [|k IH]; intros s; cbn [retried replicate concat].
  - now rewrite app_nil_r.
  - rewrite IH. cbn [log slept fetched]. now rewrite <- !app_assoc.
Qed.

End Retries.

(** ** Discovery: the pages of a run *)

Section Pages.

Variable json_loads : string -> loads_result.
Variable str_upper : string -> string.
Variable container_repr : json -> string.
Variable w : world.
Variable TARGET_LETTERS : list string.
Variable AGENCIES_PER_LETTER : nat.
Variable MAX_RETRIES : nat.
Variable PAGE_LIMIT : nat.
Variable ORGANIZATIONS_API : string.

Local Abbreviation process :=
  (process_org str_upper container_repr TARGET_LETTERS AGENCIES_PER_LETTER).
Local Abbreviation tracked :=
  (tracks str_upper container_repr TARGET_LETTERS AGENCIES_PER_LETTER).
Local Abbreviation loop :=
  (fetch_loop json_loads str_upper container_repr w TARGET_LETTERS
     AGENCIES_PER_LETTER MAX_RETRIES PAGE_LIMIT ORGANIZATIONS_API).
Local Abbreviation url_of := (page_url PAGE_LIMIT ORGANIZATIONS_API).
Local Abbreviation answer_at :=
  (fun (t : nat) (url : string) => page_answer_of json_loads (page_of w t url)).
Local Abbreviation entries := (processed_entries json_loads w).

Lemma requested_app (a b : list event) :
  requested (a ++ b) = requested a ++ requested b.
Proof. apply omap_app. Qed.

Lemma requested_retries k url :
  requested (concat (replicate k [EvFetch url; EvSleep REQUEST_DELAY]))
  = replicate k url.
Proof.
  induction k as [|k IH]; [reflexivity|].
  cbn [replicate concat app]. rewrite <- IH. reflexivity.
Qed.

Lemma processed_entries_app us :
  forall t vs, entries t (us ++ vs) = entries t us ++ entries (t + length us) vs.
Proof.
  induction us as [|u us IH]; intros t vs; cbn [app processed_entries length].
  - now rewrite Nat.add_0_r.
  - rewrite IH, <- app_assoc. now replace (S t + length us) with (t + S (length us)) by lia.
Qed.

Lemma processed_entries_raises k url :
  forall t,
    (forall i, i < k -> answer_at (t + i) url = AnswerRaise) ->
    entries t (replicate k url) = [].
Proof.
  induction k as [|k IH]; intros t Hraise; [reflexivity|].
  cbn [replicate processed_entries].
  specialize (Hraise 0 ltac:(lia)) as H0. rewrite Nat.add_0_r in H0.
  rewrite H0. cbn [app]. apply IH. intros i Hi.
  replace (S t + i) with (t + S i) by lia. apply Hraise. lia.
Qed.

(** The loop, with the requests it makes: the buckets are those produced
    by the entries of the requests that were answered with entries, and
    these answers are the pages processed, in increasing order. *)
Lemma fetch_loop_pages fuel :
  forall page_num by_letter s seen,
    tracked by_letter seen ->
    exists r s' (evs : list event) (pages : list (nat * list json)),
      loop fuel page_num by_letter s = (Ret r, s') /\
      log s' = log s ++ evs /\
      calls s' = calls s + length (requested evs) /\
      tracked (exit_value r) (seen ++ entries (calls s) (requested evs)) /\
      concat (map snd pages) = entries (calls s) (requested evs) /\
      Forall (fun pg =>
                page_num <= fst pg /\
                exists i,
                  requested evs !! i = Some (url_of (fst pg)) /\
                  answer_at (calls s + i) (url_of (fst pg)) = AnswerOrgs (snd pg))
             pages /\
      StronglySorted lt (map fst pages).
Proof.
  induction fuel as [|fuel IH]; intros p b s seen Ht.
  - exists (OutOfFuel b), s, [], []. cbn. rewrite !app_nil_r.
    repeat split; [lia | exact Ht | constructor | constructor].
  - rewrite fetch_loop_S. destruct (all_full TARGET_LETTERS AGENCIES_PER_LETTER b).
    { exists (Finished b), s, [], []. cbn. rewrite !app_nil_r.
      repeat split; [lia | exact Ht | constructor | constructor]. }
    destruct (page_attempts_run json_loads str_upper container_repr w
                TARGET_LETTERS AGENCIES_PER_LETTER MAX_RETRIES (url_of p) b s)
      as (k & _ & Hraise & [[-> Heq]|[(_ & Hend & Heq)|(_ & orgs & Horgs & Heq)]]);
      rewrite Heq.
    + (* every attempt raised *)
      destruct (IH (p + 1) b (retried MAX_RETRIES (url_of p) s) seen Ht)
        as (r & s' & evs & pages & Hrun & Hlog & Hcalls & Htr & Hcat & Hall & Hsort).
      rewrite calls_retried in Hcalls, Htr, Hcat, Hall.
      exists r, s',
        (concat (replicate MAX_RETRIES [EvFetch (url_of p); EvSleep REQUEST_DELAY])
         ++ evs), pages.
      rewrite requested_app, requested_retries, processed_entries_app,
        (processed_entries_raises _ _ _ Hraise), length_app, !length_replicate.
      cbn [app].
      split; [exact Hrun|].
      split; [rewrite Hlog, log_retried, <- app_assoc; reflexivity|].
      split; [lia|]. split; [exact Htr|]. split; [exact Hcat|].
      split; [|exact Hsort].
      eapply Forall_impl; [exact Hall|]. cbn beta. intros pg (Hle & i & Hi & Hans).
      split; [lia|]. exists (MAX_RETRIES + i). split.
      * rewrite lookup_app_r by (rewrite length_replicate; lia).
        rewrite length_replicate.
        now replace (MAX_RETRIES + i - MAX_RETRIES) with i by lia.
      * now rewrite Nat.add_assoc.
    + (* the attempt numbered [k] ended discovery *)
      exists (Finished b), (fetched (url_of p) (retried k (url_of p) s)),
        (concat (replicate k [EvFetch (url_of p); EvSleep REQUEST_DELAY])
         ++ [EvFetch (url_of p)]), [].
      rewrite requested_app, requested_retries, processed_entries_app,
        (processed_entries_raises _ _ _ Hraise), length_app, !length_replicate.
      change (requested [EvFetch (url_of p)]) with [url_of p].
      cbn [app processed_entries length map concat exit_value].
      rewrite Hend. cbn [app]. rewrite app_nil_r.
      split; [reflexivity|].
      split; [cbn [log fetched]; rewrite log_retried, <- app_assoc; reflexivity|].
      split; [cbn [calls fetched]; rewrite calls_retried; lia|].
      split; [exact Ht|]. split; [reflexivity|]. split; constructor.
    + (* the attempt numbered [k] gave the entries [orgs] *)
      destruct (IH (p + 1) (foldl process b orgs)
                  (fetched (url_of p) (retried k (url_of p) s)) (seen ++ orgs)
                  (tracks_process_page _ _ _ _ _ _ _ Ht))
        as (r & s' & evs & pages & Hrun & Hlog & Hcalls & Htr & Hcat & Hall & Hsort).
      cbn [calls fetched] in Hcalls, Htr, Hcat, Hall.
      rewrite calls_retried in Hcalls, Htr, Hcat, Hall.
      exists r, s',
        (concat (replicate k [EvFetch (url_of p); EvSleep REQUEST_DELAY])
         ++ EvFetch (url_of p) :: evs), ((p, orgs) :: pages).
      rewrite requested_app, requested_retries, processed_entries_app,
        (processed_entries_raises _ _ _ Hraise), length_app, !length_replicate.
      change (requested (EvFetch (url_of p) :: evs))
        with (url_of p :: requested evs).
      cbn [app processed_entries length map concat fst snd].
      rewrite Horgs.
      replace (S (calls s + k)) with (S (calls s) + k) in * by lia.
      split; [exact Hrun|].
      split.
      { rewrite Hlog. cbn [log fetched]. rewrite log_retried, <- !app_assoc.
        reflexivity. }
      split; [lia|].
      split; [rewrite app_assoc; exact Htr|].
      split; [now rewrite Hcat|].
      split.
      * constructor.
        -- cbn [fst snd]. split; [lia|]. exists k. split.
           ++ rewrite lookup_app_r by (rewrite length_replicate; lia).
              rewrite length_replicate, Nat.sub_diag. reflexivity.
           ++ exact Horgs.
        -- eapply Forall_impl; [exact Hall|]. cbn beta.
           intros pg (Hle & i & Hi & Hans).
           split; [lia|]. exists (k + S i). split.
           ++ rewrite lookup_app_r by (rewrite length_replicate; lia).
              rewrite length_replicate.
              replace (k + S i - k) with (S i) by lia. exact Hi.
           ++ replace (calls s + (k + S i)) with (S (calls s) + k + i) by lia.
              exact Hans.
      * constructor; [exact Hsort|].
        apply Forall_fmap. eapply Forall_impl; [exact Hall|].
        cbn. intros pg [Hle _]. lia.
Qed.

End Pages.

(** C7.  The list that [fetch_agencies] returns is the concatenation, in
    the order of [TARGET_LETTERS], of the buckets of the run, one block
    per letter; the bucket of a letter holds the first
    [AGENCIES_PER_LETTER] records offered to that letter by the entries
    of the pages that the run processed, taken page after page in
    increasing page number and, within a page, in the order of the
    payload.  The pages processed are the requests of the run that the
    portal answered with a list of entries: their entries, in this order,
    are what the log of the run and the answers of the portal at the
    calls of the run determine. *)
Theorem discovery_output_order
    (json_loads : string -> loads_result) (str_upper : string -> string)
    (container_repr : json -> string) (w : world)
    (TARGET_LETTERS : list string)
    (AGENCIES_PER_LETTER MAX_RETRIES PAGE_LIMIT : nat)
    (ORGANIZATIONS_API : string) (fuel : nat) (s : state) :
  exists buckets selected s' (evs : list event) (pages : list (nat * list json)),
    fetch_loop json_loads str_upper container_repr w TARGET_LETTERS
      AGENCIES_PER_LETTER MAX_RETRIES PAGE_LIMIT ORGANIZATIONS_API fuel 1
      (empty_buckets TARGET_LETTERS) (slept (Seconds 40) s)
      = (Ret buckets, s') /\
    fetch_agencies json_loads str_upper container_repr w TARGET_LETTERS
      AGENCIES_PER_LETTER MAX_RETRIES PAGE_LIMIT ORGANIZATIONS_API fuel s
      = (Ret selected, s') /\
    log s' = log s ++ EvSleep (Seconds 40) :: evs /\
    calls s' = calls s + length (requested evs) /\
    concat (map snd pages)
      = processed_entries json_loads w (calls s) (requested evs) /\
    StronglySorted lt (map fst pages) /\
    Forall (fun pg =>
              1 <= fst pg /\
              exists i page_content json_data,
                requested evs !! i
                  = Some (page_url PAGE_LIMIT ORGANIZATIONS_API (fst pg)) /\
                page_of w (calls s + i)
                  (page_url PAGE_LIMIT ORGANIZATIONS_API (fst pg))
                  = Some page_content /\
                extract_json_from_page json_loads page_content
                  = Some json_data /\
                py_iter json_data = Some (snd pg))
           pages /\
    (forall l,
       l ∈ TARGET_LETTERS ->
       bucket (exit_value buckets) l =
         take AGENCIES_PER_LETTER
           (records_for str_upper container_repr TARGET_LETTERS l
              (concat (map snd pages)))) /\
    exit_value selected =
      concat (map (fun l => take AGENCIES_PER_LETTER
                              (bucket (exit_value buckets) l))
                  TARGET_LETTERS) /\
    exit_value selected =
      concat (map (fun l =>
                     take AGENCIES_PER_LETTER
                       (records_for str_upper container_repr TARGET_LETTERS l
                          (concat (map snd pages))))
                  TARGET_LETTERS).
Proof.
  destruct (fetch_loop_pages json_loads str_upper container_repr w
              TARGET_LETTERS AGENCIES_PER_LETTER MAX_RETRIES PAGE_LIMIT
              ORGANIZATIONS_API fuel 1 (empty_buckets TARGET_LETTERS)
              (slept (Seconds 40) s) []
              (tracks_empty _ _ _ _))
    as (r & s' & evs & pages & Hrun & Hlog & Hcalls & Htr & Hcat & Hall & Hsort).
  cbn [calls log slept app] in Hlog, Hcalls, Htr, Hcat, Hall.
  exists r,
    (match r with
     | Finished b => Finished (select_agencies TARGET_LETTERS AGENCIES_PER_LETTER b)
     | OutOfFuel b => OutOfFuel (select_agencies TARGET_LETTERS AGENCIES_PER_LETTER b)
     end), s', evs, pages.
  split; [exact Hrun|].
  split.
  { rewrite fetch_agencies_eq, Hrun. destruct r; reflexivity. }
  split; [rewrite Hlog, <- app_assoc; reflexivity|].
  split; [exact Hcalls|]. split; [exact Hcat|]. split; [exact Hsort|].
  split.
  { eapply Forall_impl; [exact Hall|]. cbn beta. intros pg (Hle & i & Hi & Hans).
    split; [exact Hle|].
    apply page_answer_orgs in Hans
      as (page_content & json_data & Hpage & Hdata & _ & Hiter).
    exists i, page_content, json_data. repeat split; assumption. }
  rewrite <- Hcat in Htr.
  assert (Hbucket : forall l,
             l ∈ TARGET_LETTERS ->
             bucket (exit_value r) l =
               take AGENCIES_PER_LETTER
                 (records_for str_upper container_repr TARGET_LETTERS l
                    (concat (map snd pages)))).
  { intros l Hl. exact (tracks_bucket _ _ _ _ _ _ _ Htr Hl). }
  split; [exact Hbucket|].
  assert (Hsel : exit_value
                   (match r with
                    | Finished b =>
                        Finished (select_agencies TARGET_LETTERS AGENCIES_PER_LETTER b)
                    | OutOfFuel b =>
                        OutOfFuel (select_agencies TARGET_LETTERS AGENCIES_PER_LETTER b)
                    end)
                 = select_agencies TARGET_LETTERS AGENCIES_PER_LETTER (exit_value r))
    by (destruct r; reflexivity).
  rewrite Hsel, select_agencies_concat.
  split; [reflexivity|]. f_equal.
  apply map_ext_in. intros l Hl. apply list_elem_of_In in Hl.
  rewrite (Hbucket l Hl), take_take. f_equal. lia.
Qed.

(** C2, as the code has it.  On a page that is not skipped by the quota
    test, the attempts follow one another as long as they raise (the
    request fails, the extractor lets an exception of [json.loads] other
    than [JSONDecodeError] through, or the payload cannot be iterated),
    each followed by the delay [REQUEST_DELAY] and a new request for the
    same page.  If all [MAX_RETRIES] attempts raise, the loop goes on with
    the next page and the buckets unchanged.  The first attempt that does
    not raise decides: a payload that is missing or falsy (the extractor
    found no wrapper, the parse failed with [JSONDecodeError], or the list
    is empty) ends discovery at once, without another attempt; a payload
    with entries is processed and the loop goes on with the next page. *)
Theorem discovery_retries
    (json_loads : string -> loads_result) (str_upper : string -> string)
    (container_repr : json -> string) (w : world)
    (TARGET_LETTERS : list string)
    (AGENCIES_PER_LETTER MAX_RETRIES PAGE_LIMIT : nat)
    (ORGANIZATIONS_API : string)
    (fuel page_num : nat) (by_letter : gmap string (list agency)) (s : state) :
  all_full TARGET_LETTERS AGENCIES_PER_LETTER by_letter = false ->
  let url := page_url PAGE_LIMIT ORGANIZATIONS_API page_num in
  let loop :=
    fetch_loop json_loads str_upper container_repr w TARGET_LETTERS
      AGENCIES_PER_LETTER MAX_RETRIES PAGE_LIMIT ORGANIZATIONS_API in
  let answer_at t := page_answer_of json_loads (page_of w t url) in
  ((forall i, i < MAX_RETRIES -> answer_at (calls s + i) = AnswerRaise) ->
   loop (S fuel) page_num by_letter s
     = loop fuel (page_num + 1) by_letter (retried MAX_RETRIES url s)) /\
  (forall k,
     k < MAX_RETRIES ->
     (forall i, i < k -> answer_at (calls s + i) = AnswerRaise) ->
     (answer_at (calls s + k) = AnswerEnd ->
      loop (S fuel) page_num by_letter s
        = (Ret (Finished by_letter), fetched url (retried k url s))) /\
     (forall orgs,
        answer_at (calls s + k) = AnswerOrgs orgs ->
        loop (S fuel) page_num by_letter s
          = loop fuel (page_num + 1)
              (foldl (process_org str_upper container_repr TARGET_LETTERS
                        AGENCIES_PER_LETTER) by_letter orgs)
              (fetched url (retried k url s)))) /\
  (forall k,
     log (retried k url s)
       = log s ++ concat (replicate k [EvFetch url; EvSleep REQUEST_DELAY])) /\
  (forall t, page_of w t url = None -> answer_at t = AnswerRaise) /\
  (forall t page_content,
     page_of w t url = Some page_content ->
     extract_json_from_page json_loads page_content = None ->
     answer_at t = AnswerRaise) /\
  (forall t page_content json_data,
     page_of w t url = Some page_content ->
     extract_json_from_page json_loads page_content = Some json_data ->
     truthy json_data = false ->
     answer_at t = AnswerEnd).
Proof.
  intros Hfull url loop answer_at. subst loop answer_at.
  split; [|split; [|split; [|split; [|split]]]].
  - intros Hraise. rewrite fetch_loop_S, Hfull.
    rewrite (page_attempts_exhausted _ _ _ _ _ _ _ _ _ _ Hraise). reflexivity.
  - intros k Hk Hraise. split.
    + intros Hend. rewrite fetch_loop_S, Hfull.
      rewrite (page_attempts_decided _ _ _ _ _ _ k _ _ _ _ Hk Hraise), Hend.
      reflexivity.
    + intros orgs Horgs. rewrite fetch_loop_S, Hfull.
      rewrite (page_attempts_decided _ _ _ _ _ _ k _ _ _ _ Hk Hraise), Horgs.
      reflexivity.
  - intros k. apply log_retried.
  - intros t ->. reflexivity.
  - intros t page_content -> Hraise. unfold page_answer_of.
    now rewrite Hraise.
  - intros t page_content json_data -> Hdata Hfalsy. apply page_answer_end.
    exists page_content, json_data. split; [reflexivity|].
    split; [exact Hdata|].
    apply ends_discovery_true. left. exact Hfalsy.
Qed.

(** On a portal where every request fails, the three attempts on page 1
    are made and the loop goes on with page 2. *)
Lemma discovery_retries_witness :
  fetch_loop Sample.json_loads Sample.ascii_upper Sample.no_repr
    Sample.unreachable settings.TARGET_LETTERS settings.AGENCIES_PER_LETTER
    settings.MAX_RETRIES settings.PAGE_LIMIT settings.ORGANIZATIONS_API
    1 1 (empty_buckets settings.TARGET_LETTERS) initial_state
  = fetch_loop Sample.json_loads Sample.ascii_upper Sample.no_repr
      Sample.unreachable settings.TARGET_LETTERS settings.AGENCIES_PER_LETTER
      settings.MAX_RETRIES settings.PAGE_LIMIT settings.ORGANIZATIONS_API
      0 2 (empty_buckets settings.TARGET_LETTERS)
      (retried 3 (Sample.listing_url 1) initial_state).
Proof.
  apply (discovery_retries Sample.json_loads Sample.ascii_upper Sample.no_repr
           Sample.unreachable settings.TARGET_LETTERS
           settings.AGENCIES_PER_LETTER settings.MAX_RETRIES settings.PAGE_LIMIT
           settings.ORGANIZATIONS_API 0 1 (empty_buckets settings.TARGET_LETTERS)
           initial_state).
  - vm_compute. reflexivity.
  - intros i _. reflexivity.
Defined.

(** C2 as stated fails: on a portal whose answer has no [<pre>] wrapper the
    extractor returns nothing on the first attempt for page 1, and
    discovery ends there with an empty result: page 1 is not requested
    again, no delay is taken and page 2 is never requested. *)
Lemma discovery_ends_on_missing_payload :
  extract_json_from_page Sample.json_loads
    "<html><body>502 Bad Gateway</body></html>" = Some JNull /\
  Sample.discover Sample.gateway_error settings.TARGET_LETTERS
    settings.AGENCIES_PER_LETTER 10 initial_state
  = (Ret (Finished []),
     {| calls := 1; clock_reads := 0;
        log := [EvSleep (Seconds 40); EvFetch (Sample.listing_url 1)] |}).
Proof. split; vm_compute; reflexivity. Qed.

(** C5, as the code has it.  With at least one attempt per page, if some
    page [N] of the listing answers, whenever it is asked for, with a
    payload that is missing or falsy (an empty list included) or with a
    dictionary whose [message] is truthy, then discovery leaves its loop
    within [N] iterations, after at most [MAX_RETRIES] requests for each
    earlier page and one for page [N], whether or not the quotas can be
    reached.  And the loop stops at once on such a payload: when the first
    attempt on the current page obtains it, the loop is left with the
    buckets as they are. *)
Theorem discovery_terminates
    (json_loads : string -> loads_result) (str_upper : string -> string)
    (container_repr : json -> string) (w : world)
    (TARGET_LETTERS : list string)
    (AGENCIES_PER_LETTER MAX_RETRIES PAGE_LIMIT : nat)
    (ORGANIZATIONS_API : string) :
  0 < MAX_RETRIES ->
  let end_of_data (answer : option string) :=
    exists page_content json_data,
      answer = Some page_content /\
      extract_json_from_page json_loads page_content = Some json_data /\
      (truthy json_data = false \/
       exists fields,
         json_data = JObj fields /\
         truthy (dict_get fields "message" JNull) = true) in
  (forall (N fuel : nat) (s : state),
     1 <= N -> N <= fuel ->
     (forall t, end_of_data
                  (page_of w t (page_url PAGE_LIMIT ORGANIZATIONS_API N))) ->
     exists selected s',
       fetch_agencies json_loads str_upper container_repr w TARGET_LETTERS
         AGENCIES_PER_LETTER MAX_RETRIES PAGE_LIMIT ORGANIZATIONS_API fuel s
         = (Ret (Finished selected), s') /\
       calls s' <= calls s + MAX_RETRIES * (N - 1) + 1) /\
  (forall (fuel page_num : nat) (by_letter : gmap string (list agency))
          (s : state),
     all_full TARGET_LETTERS AGENCIES_PER_LETTER by_letter = false ->
     end_of_data
       (page_of w (calls s) (page_url PAGE_LIMIT ORGANIZATIONS_API page_num)) ->
     fetch_loop json_loads str_upper container_repr w TARGET_LETTERS
       AGENCIES_PER_LETTER MAX_RETRIES PAGE_LIMIT ORGANIZATIONS_API
       (S fuel) page_num by_letter s
     = (Ret (Finished by_letter),
        fetched (page_url PAGE_LIMIT ORGANIZATIONS_API page_num) s)).
Proof.
  intros Hretries end_of_data.
  assert (Hanswer : forall answer,
             end_of_data answer -> page_answer_of json_loads answer = AnswerEnd).
  { intros answer (page_content & json_data & -> & Hdata & Hend).
    apply page_answer_end.
    exists page_content, json_data. split; [reflexivity|].
    split; [exact Hdata|].
    apply ends_discovery_true. exact Hend. }
  split.
  - intros N fuel s HN Hfuel Hend.
    destruct (fetch_loop_terminates json_loads str_upper container_repr w
                TARGET_LETTERS AGENCIES_PER_LETTER MAX_RETRIES PAGE_LIMIT
                ORGANIZATIONS_API N Hretries
                (fun t => Hanswer _ (Hend t))
                fuel 1 (empty_buckets TARGET_LETTERS) (slept (Seconds 40) s)
                HN ltac:(lia))
      as (by_letter & s' & Hrun & Hcalls).
    rewrite fetch_agencies_eq, Hrun.
    eexists _, s'. split; [reflexivity | exact Hcalls].
  - intros fuel page_num by_letter s Hfull Hend.
    rewrite fetch_loop_S, Hfull.
    rewrite (page_attempts_decided json_loads str_upper container_repr w
               TARGET_LETTERS AGENCIES_PER_LETTER 0)
      by (lia || (intros i Hi; lia)).
    rewrite Nat.add_0_r, (Hanswer _ Hend). reflexivity.
Qed.

(** Page 2 of the three-organisation listing is empty, so discovery for
    the letters and the quota of [config/settings.py] ends within two
    iterations and four requests. *)
Lemma discovery_terminates_witness :
  exists selected s',
    Sample.discover Sample.three_orgs settings.TARGET_LETTERS
      settings.AGENCIES_PER_LETTER 2 initial_state
    = (Ret (Finished selected), s') /\
    calls s' <= 0 + 3 * (2 - 1) + 1.
Proof.
  pose proof (discovery_terminates Sample.json_loads Sample.ascii_upper
                Sample.no_repr Sample.three_orgs settings.TARGET_LETTERS
                settings.AGENCIES_PER_LETTER settings.MAX_RETRIES
                settings.PAGE_LIMIT settings.ORGANIZATIONS_API
                ltac:(unfold settings.MAX_RETRIES; lia)) as H.
  cbv zeta in H. destruct H as [Hterminates _].
  apply (Hterminates 2 2 initial_state); [lia | lia |].
  intros t. exists (Sample.pre "[]"), (JArr []).
  split; [vm_compute; reflexivity|].
  split; [vm_compute; reflexivity|].
  left. reflexivity.
Defined.

(** C5 as stated fails: the portal answers page 1 with the mapping
    [{"message": ""}], a mapping that contains a message field, and the
    loop does not stop there: it requests page 2, and page 3 after it. *)
Lemma discovery_goes_on_after_blank_message :
  Sample.json_loads (Sample.q "{'message': ''}")
    = Decoded (JObj [("message", JStr "")]) /\
  Sample.discover Sample.blank_message settings.TARGET_LETTERS
    settings.AGENCIES_PER_LETTER 3 initial_state
  = (Ret (OutOfFuel []),
     {| calls := 3; clock_reads := 0;
        log := [EvSleep (Seconds 40);
                EvFetch (Sample.listing_url 1);
                EvFetch (Sample.listing_url 2);
                EvFetch (Sample.listing_url 3)] |}).
Proof. split; vm_compute; reflexivity. Qed.

(** ** The per-agency harvester *)

Section Harvest.

Variable json_loads : string -> loads_result.
Variable container_repr : json -> string.
Variable w : world.
Variable MAX_RETRIES : nat.

Local Abbreviation feed_at :=
  (fun (t : nat) (url : string) => feed_answer json_loads (page_of w t url)).

(** Building the open opportunities reads the clock but makes no browser
    call, leaves the log alone and never raises. *)
Lemma open_opps_loop_total items :
  forall opportunities s,
    exists opportunities' s',
      open_opps_loop w items opportunities s = (Ret opportunities', s') /\
      calls s' = calls s /\ log s' = log s /\
      (items = [] -> opportunities' = opportunities).
Proof.
  induction items as [|proj_data items IH]; intros acc s.
  - exists acc, s. repeat split; reflexivity.
  - cbn [open_opps_loop].
    assert (Hskip : exists opportunities' s',
               open_opps_loop w items acc s = (Ret opportunities', s') /\
               calls s' = calls s /\ log s' = log s /\
               (proj_data :: items = [] -> opportunities' = acc)).
    { destruct (IH acc s) as (o & s' & Heq & Hc & Hl & _).
      exists o, s'. repeat split; try assumption. discriminate. }
    destruct proj_data as [| | | | |fields]; try exact Hskip.
    unfold bind at 1.
    destruct (truthy (dict_get fields "DateClose" (JStr ""))).
    + destruct (calculate_days_remaining_total w
                  (dict_get fields "DateClose" (JStr "")) s)
        as (days & s1 & Hdays & Hc1 & Hl1).
      rewrite Hdays.
      match goal with
      | |- context [open_opps_loop w items ?acc' s1] =>
          destruct (IH acc' s1) as (o & s' & Heq & Hc & Hl & _)
      end.
      exists o, s'. rewrite Heq.
      repeat split; [congruence | congruence | discriminate].
    + unfold ret at 1.
      match goal with
      | |- context [open_opps_loop w items ?acc' ?s1] =>
          destruct (IH acc' s1) as (o & s' & Heq & Hc & Hl & _)
      end.
      exists o, s'. rewrite Heq. repeat split; try assumption. discriminate.
Qed.

(** One guarded attempt on the open feed, read off the answer. *)
Lemma open_attempt_guarded url s :
  try_catch (open_attempt json_loads w url) (ret None) s =
    match feed_at (calls s) url with
    | None => (Ret None, fetched url s)
    | Some items =>
        match open_opps_loop w items [] (fetched url s) with
        | (Ret opportunities, s') => (Ret (Some opportunities), s')
        | (Raise, s') => (Ret None, s')
        end
    end.
Proof.
  unfold try_catch, open_attempt, bind, fetch, browser_call, feed_answer,
    of_option, ret, raise. fold (fetched url s).
  destruct (page_of w (calls s) url) as [page_content|]; [|reflexivity].
  destruct (extract_json_from_page json_loads page_content) as [json_data|];
    [|reflexivity].
  destruct (truthy json_data); cbn [negb]; [|reflexivity].
  destruct (project_items json_data) as [items|]; [|reflexivity].
  destruct (open_opps_loop w items [] (fetched url s)) as [[o|] s'];
    reflexivity.
Qed.

Lemma past_attempt_guarded url s :
  try_catch (past_attempt json_loads container_repr w url) (ret None) s =
    match feed_at (calls s) url with
    | None => (Ret None, fetched url s)
    | Some items =>
        (Ret (Some (past_opps_loop container_repr items [])), fetched url s)
    end.
Proof.
  unfold try_catch, past_attempt, bind, fetch, browser_call, feed_answer,
    of_option, ret, raise. fold (fetched url s).
  destruct (page_of w (calls s) url) as [page_content|]; [|reflexivity].
  destruct (extract_json_from_page json_loads page_content) as [json_data|];
    [|reflexivity].
  destruct (truthy json_data); cbn [negb]; [|reflexivity].
  destruct (project_items json_data) as [items|]; reflexivity.
Qed.

Lemma calls_refetched n url s : calls (refetched n url s) = calls s + n.
Proof.
  revert s. induction n as [|n IH]; intros s; cbn [refetched]; [lia|].
  rewrite IH. cbn. lia.
Qed.

Lemma refetched_snoc n url s :
  refetched (S n) url s = fetched url (refetched n url s).
Proof.
  revert s. induction n as [|n IH]; intros s; [reflexivity|].
  change (refetched (S (S n)) url s) with (refetched (S n) url (fetched url s)).
  now rewrite IH.
Qed.

Lemma log_refetched n url s :
  log (refetched n url s) = log s ++ replicate n (EvFetch url).
Proof.
  revert s. induction n as [|n IH]; intros s; cbn [refetched replicate].
  - now rewrite app_nil_r.
  - rewrite IH. cbn [log fetched]. now rewrite <- app_assoc.
Qed.

Lemma open_attempts_S n url result s :
  open_attempts json_loads w (S n) url result s =
    match feed_at (calls s) url with
    | None => open_attempts json_loads w n url result (fetched url s)
    | Some items =>
        match open_opps_loop w items [] (fetched url s) with
        | (Ret opportunities, s') =>
            (Ret {| open_url := open_url result;
                    open_agency_name := open_agency_name result;
                    open_opportunities := opportunities |}, s')
        | (Raise, s') => open_attempts json_loads w n url result s'
        end
    end.
Proof.
  cbn [open_attempts]. unfold bind at 1. rewrite open_attempt_guarded.
  destruct (feed_at (calls s) url) as [items|]; [|reflexivity].
  destruct (open_opps_loop w items [] (fetched url s)) as [[o|] s'];
    reflexivity.
Qed.

Lemma past_attempts_S n url result s :
  past_attempts json_loads container_repr w (S n) url result s =
    match feed_at (calls s) url with
    | None => past_attempts json_loads container_repr w n url result (fetched url s)
    | Some items =>
        (Ret {| past_url := past_url result;
                past_agency_name := past_agency_name result;
                past_opportunities := past_opps_loop container_repr items [] |},
         fetched url s)
    end.
Proof.
  cbn [past_attempts]. unfold bind at 1. rewrite past_attempt_guarded.
  destruct (feed_at (calls s) url) as [items|]; reflexivity.
Qed.

Lemma open_attempts_after_failures k :
  forall n url result s,
    (forall i, i < k -> feed_at (calls s + i) url = None) ->
    open_attempts json_loads w (k + n) url result s
      = open_attempts json_loads w n url result (refetched k url s).
Proof.
  induction k as [|k IH]; intros n url result s Hfail; [reflexivity|].
  cbn [Nat.add refetched]. rewrite open_attempts_S.
  specialize (Hfail 0 ltac:(lia)) as H0. rewrite Nat.add_0_r in H0. rewrite H0.
  apply IH. intros i Hi.
  replace (calls (fetched url s) + i) with (calls s + S i) by (cbn; lia).
  apply Hfail. lia.
Qed.

Lemma past_attempts_after_failures k :
  forall n url result s,
    (forall i, i < k -> feed_at (calls s + i) url = None) ->
    past_attempts json_loads container_repr w (k + n) url result s
      = past_attempts json_loads container_repr w n url result (refetched k url s).
Proof.
  induction k as [|k IH]; intros n url result s Hfail; [reflexivity|].
  cbn [Nat.add refetched]. rewrite past_attempts_S.
  specialize (Hfail 0 ltac:(lia)) as H0. rewrite Nat.add_0_r in H0. rewrite H0.
  apply IH. intros i Hi.
  replace (calls (fetched url s) + i) with (calls s + S i) by (cbn; lia).
  apply Hfail. lia.
Qed.

(** The attempts on the open feed never raise; they keep the address and
    the name of the result, and add nothing but requests to the log. *)
Lemma open_attempts_total n :
  forall url result s,
    exists result' s',
      open_attempts json_loads w n url result s = (Ret result', s') /\
      open_url result' = open_url result /\
      open_agency_name result' = open_agency_name result /\
      exists requests,
        log s' = log s ++ requests /\ forallb is_fetch requests = true.
Proof.
  induction n as [|n IH]; intros url result s.
  - exists result, s. repeat split. exists []. now rewrite app_nil_r.
  - rewrite open_attempts_S.
    destruct (feed_at (calls s) url) as [items|].
    + destruct (open_opps_loop_total items [] (fetched url s))
        as (o & s' & Heq & _ & Hlog & _).
      rewrite Heq. eexists _, s'. split; [reflexivity|]. repeat split.
      exists [EvFetch url]. rewrite Hlog. split; reflexivity.
    + destruct (IH url result (fetched url s))
        as (r & s' & Heq & Hu & Hn & requests & Hlog & Hreq).
      exists r, s'. repeat split; try assumption.
      exists (EvFetch url :: requests). rewrite Hlog. cbn [log fetched forallb is_fetch].
      rewrite <- app_assoc. split; [reflexivity | exact Hreq].
Qed.

Lemma past_attempts_total n :
  forall url result s,
    exists result' s',
      past_attempts json_loads container_repr w n url result s = (Ret result', s') /\
      past_url result' = past_url result /\
      past_agency_name result' = past_agency_name result /\
      exists requests,
        log s' = log s ++ requests /\ forallb is_fetch requests = true.
Proof.
  induction n as [|n IH]; intros url result s.
  - exists result, s. repeat split. exists []. now rewrite app_nil_r.
  - rewrite past_attempts_S.
    destruct (feed_at (calls s) url) as [items|].
    + eexists _, _. split; [reflexivity|]. repeat split.
      exists [EvFetch url]. split; reflexivity.
    + destruct (IH url result (fetched url s))
        as (r & s' & Heq & Hu & Hn & requests & Hlog & Hreq).
      exists r, s'. repeat split; try assumption.
      exists (EvFetch url :: requests). rewrite Hlog. cbn [log fetched forallb is_fetch].
      rewrite <- app_assoc. split; [reflexivity | exact Hreq].
Qed.

End Harvest.

(** C4.  For every agency and every behaviour of the portal, neither
    harvester raises, and the result carries the name of the agency and the
    address of its feed.  If each of the [MAX_RETRIES] attempts on a feed
    fails (the request raises, the extractor raises, the payload is
    missing, or its shape makes the extraction raise), the result has an
    empty list of opportunities.
    The first attempt that obtains the list of raw entries is the last
    request made, and its opportunities are the result, also when there
    are none. *)
Theorem harvest_retries
    (json_loads : string -> loads_result) (container_repr : json -> string)
    (w : world) (MAX_RETRIES : nat) (a : agency) (s : state) :
  let feed_at t url := feed_answer json_loads (page_of w t url) in
  let scrape_open := scrape_open_opportunities json_loads w MAX_RETRIES in
  let scrape_past :=
    scrape_past_opportunities json_loads container_repr w MAX_RETRIES in
  let empty_open :=
    {| open_url := agency_url a +:+ "/portal/?tab=openOpportunities";
       open_agency_name := agency_name a;
       open_opportunities := [] |} in
  let empty_past :=
    {| past_url := agency_url a +:+ "/portal/?tab=pastOpportunities";
       past_agency_name := agency_name a;
       past_opportunities := [] |} in
  (exists r s', scrape_open a s = (Ret r, s') /\
                open_url r = open_url empty_open /\
                open_agency_name r = agency_name a) /\
  (exists r s', scrape_past a s = (Ret r, s') /\
                past_url r = past_url empty_past /\
                past_agency_name r = agency_name a) /\
  ((forall i, i < MAX_RETRIES -> feed_at (calls s + i) (open_api_url a) = None) ->
   scrape_open a s = (Ret empty_open, refetched MAX_RETRIES (open_api_url a) s)) /\
  ((forall i, i < MAX_RETRIES -> feed_at (calls s + i) (past_api_url a) = None) ->
   scrape_past a s = (Ret empty_past, refetched MAX_RETRIES (past_api_url a) s)) /\
  (forall k items,
     k < MAX_RETRIES ->
     (forall i, i < k -> feed_at (calls s + i) (open_api_url a) = None) ->
     feed_at (calls s + k) (open_api_url a) = Some items ->
     exists r s',
       scrape_open a s = (Ret r, s') /\
       calls s' = calls s + S k /\
       open_opps_loop w items []
         (fetched (open_api_url a) (refetched k (open_api_url a) s))
         = (Ret (open_opportunities r), s') /\
       (items = [] -> open_opportunities r = [])) /\
  (forall k items,
     k < MAX_RETRIES ->
     (forall i, i < k -> feed_at (calls s + i) (past_api_url a) = None) ->
     feed_at (calls s + k) (past_api_url a) = Some items ->
     scrape_past a s
       = (Ret {| past_url := past_url empty_past;
                 past_agency_name := agency_name a;
                 past_opportunities := past_opps_loop container_repr items [] |},
          fetched (past_api_url a) (refetched k (past_api_url a) s))) /\
  (forall t url, page_of w t url = None -> feed_at t url = None) /\
  (forall t url page_content,
     page_of w t url = Some page_content ->
     extract_json_from_page json_loads page_content = None ->
     feed_at t url = None) /\
  (forall t url page_content json_data,
     page_of w t url = Some page_content ->
     extract_json_from_page json_loads page_content = Some json_data ->
     truthy json_data = false ->
     feed_at t url = None).
Proof.
  intros feed_at scrape_open scrape_past empty_open empty_past.
  subst feed_at scrape_open scrape_past.
  unfold scrape_open_opportunities, scrape_past_opportunities.
  fold empty_open empty_past.
  split; [|split; [|split; [|split; [|split; [|split; [|split; [|split]]]]]]].
  - destruct (open_attempts_total json_loads w MAX_RETRIES (open_api_url a)
                empty_open s) as (r & s' & Heq & Hu & Hn & _).
    exists r, s'. repeat split; assumption.
  - destruct (past_attempts_total json_loads container_repr w MAX_RETRIES
                (past_api_url a) empty_past s) as (r & s' & Heq & Hu & Hn & _).
    exists r, s'. repeat split; assumption.
  - intros Hfail. replace MAX_RETRIES with (MAX_RETRIES + 0) at 1 by lia.
    now rewrite (open_attempts_after_failures _ _ _ _ _ _ _ Hfail).
  - intros Hfail. replace MAX_RETRIES with (MAX_RETRIES + 0) at 1 by lia.
    now rewrite (past_attempts_after_failures _ _ _ _ _ _ _ _ Hfail).
  - intros k items Hk Hfail Hitems.
    destruct (open_opps_loop_total w items []
                (fetched (open_api_url a) (refetched k (open_api_url a) s)))
      as (o & s' & Heq & Hcalls & _ & Hnil).
    exists {| open_url := open_url empty_open;
              open_agency_name := open_agency_name empty_open;
              open_opportunities := o |}, s'.
    split.
    { replace MAX_RETRIES with (k + S (MAX_RETRIES - S k)) at 1 by lia.
      rewrite (open_attempts_after_failures _ _ _ _ _ _ _ Hfail).
      rewrite open_attempts_S, calls_refetched, Hitems, Heq. reflexivity. }
    split; [rewrite Hcalls; cbn [calls fetched]; rewrite calls_refetched; lia|].
    split; [exact Heq | exact Hnil].
  - intros k items Hk Hfail Hitems.
    replace MAX_RETRIES with (k + S (MAX_RETRIES - S k)) at 1 by lia.
    rewrite (past_attempts_after_failures _ _ _ _ _ _ _ _ Hfail).
    rewrite past_attempts_S, calls_refetched, Hitems. reflexivity.
  - intros t url ->. reflexivity.
  - intros t url page_content -> Hraise. unfold feed_answer.
    now rewrite Hraise.
  - intros t url page_content json_data -> Hdata Hfalsy. unfold feed_answer.
    now rewrite Hdata, Hfalsy.
Qed.

(** On a portal where every request fails the open feed of an agency comes
    back empty after three requests; on a portal whose feed has no
    projects the first request is the only one. *)
Lemma harvest_retries_witness :
  scrape_open_opportunities Sample.json_loads Sample.unreachable 3
    Sample.delta initial_state
  = (Ret {| open_url := "https://delta.example/portal/?tab=openOpportunities";
            open_agency_name := JStr "Delta Corp";
            open_opportunities := [] |},
     refetched 3 (open_api_url Sample.delta) initial_state) /\
  exists r s',
    scrape_open_opportunities Sample.json_loads Sample.no_projects 3
      Sample.delta initial_state = (Ret r, s') /\
    calls s' = 1 /\ open_opportunities r = [].
Proof.
  split.
  - pose proof (harvest_retries Sample.json_loads Sample.no_repr
                  Sample.unreachable 3 Sample.delta initial_state) as H.
    cbv zeta in H. destruct H as (_ & _ & Hopen & _).
    apply Hopen. intros i _. reflexivity.
  - pose proof (harvest_retries Sample.json_loads Sample.no_repr
                  Sample.no_projects 3 Sample.delta initial_state) as H.
    cbv zeta in H. destruct H as (_ & _ & _ & _ & Hfirst & _).
    destruct (Hfirst 0 [] ltac:(lia) ltac:(intros i Hi; lia)
                ltac:(vm_compute; reflexivity))
      as (r & s' & Hrun & Hcalls & _ & Hnil).
    exists r, s'. split; [exact Hrun|]. split; [exact Hcalls|]. now apply Hnil.
Defined.

(** ** The harvest loop and its checkpoints *)

Section Checkpoints.

Variable json_loads : string -> loads_result.
Variable container_repr : json -> string.
Variable writable : json -> bool.
Variable w : world.
Variable MAX_RETRIES : nat.

Local Abbreviation scrape_open :=
  (scrape_open_opportunities json_loads w MAX_RETRIES).
Local Abbreviation scrape_past :=
  (scrape_past_opportunities json_loads container_repr w MAX_RETRIES).
Local Abbreviation all_loop :=
  (scrape_all_loop json_loads container_repr writable w MAX_RETRIES).
Local Abbreviation can_write := (snapshot_writable writable).

(** What one agency adds to the log: its requests, then the checkpoint
    and the delay. *)
Local Abbreviation round :=
  (fun (open_opps : list open_result) (past_opps : list past_result)
       (requests : list event) =>
     requests ++ [EvMakedirs; EvWriteOpen open_opps; EvWritePast past_opps;
                  EvSleep REQUEST_DELAY]).

Lemma scrape_open_total a s :
  exists r s' requests,
    scrape_open a s = (Ret r, s') /\
    open_agency_name r = agency_name a /\
    log s' = log s ++ requests /\ forallb is_fetch requests = true.
Proof.
  unfold scrape_open_opportunities.
  match goal with
  | |- context [open_attempts _ _ _ ?url ?result s] =>
      destruct (open_attempts_total json_loads w MAX_RETRIES url result s)
        as (r & s' & Heq & _ & Hn & requests & Hlog & Hreq)
  end.
  exists r, s', requests. repeat split; assumption.
Qed.

Lemma scrape_past_total a s :
  exists r s' requests,
    scrape_past a s = (Ret r, s') /\
    past_agency_name r = agency_name a /\
    log s' = log s ++ requests /\ forallb is_fetch requests = true.
Proof.
  unfold scrape_past_opportunities.
  match goal with
  | |- context [past_attempts _ _ _ _ ?url ?result s] =>
      destruct (past_attempts_total json_loads container_repr w MAX_RETRIES
                  url result s)
        as (r & s' & Heq & _ & Hn & requests & Hlog & Hreq)
  end.
  exists r, s', requests. repeat split; assumption.
Qed.

(** The checkpoint, read off the two lists. *)
Lemma _save_progress_eq open_opps past_opps s :
  _save_progress writable open_opps past_opps s =
    if can_write open_opps past_opps
    then (Ret tt,
          {| calls := calls s; clock_reads := clock_reads s;
             log := log s ++ [EvMakedirs; EvWriteOpen open_opps;
                              EvWritePast past_opps] |})
    else (Raise,
          {| calls := calls s; clock_reads := clock_reads s;
             log := log s ++ cut_checkpoint writable open_opps past_opps |}).
Proof.
  unfold _save_progress, write_file, snapshot_writable, cut_checkpoint,
    bind, emit, raise.
  destruct (forallb (open_result_writable writable) open_opps);
    [destruct (forallb (past_result_writable writable) past_opps)|];
    cbn [andb calls clock_reads log]; rewrite <- ?app_assoc; reflexivity.
Qed.

(** One pass of the loop body, once both feeds of the agency are read. *)
Lemma scrape_all_loop_cons a agencies open_acc past_acc s ro s1 rp s2 :
  scrape_open a s = (Ret ro, s1) ->
  scrape_past a s1 = (Ret rp, s2) ->
  all_loop (a :: agencies) open_acc past_acc s =
    if can_write (open_acc ++ [ro]) (past_acc ++ [rp])
    then all_loop agencies (open_acc ++ [ro]) (past_acc ++ [rp])
           {| calls := calls s2; clock_reads := clock_reads s2;
              log := log s2 ++ [EvMakedirs;
                                EvWriteOpen (open_acc ++ [ro]);
                                EvWritePast (past_acc ++ [rp]);
                                EvSleep REQUEST_DELAY] |}
    else (Raise,
          {| calls := calls s2; clock_reads := clock_reads s2;
             log := log s2 ++ cut_checkpoint writable
                                (open_acc ++ [ro]) (past_acc ++ [rp]) |}).
Proof.
  intros Hopen Hpast.
  cbn [scrape_all_loop]. unfold bind at 1. rewrite Hopen.
  unfold bind at 1. rewrite Hpast.
  unfold bind at 1. rewrite _save_progress_eq.
  destruct (can_write (open_acc ++ [ro]) (past_acc ++ [rp]));
    [|reflexivity].
  unfold bind at 1, sleep, emit. cbn [calls clock_reads log].
  rewrite <- app_assoc. reflexivity.
Qed.

Lemma scrape_all_loop_run agencies :
  forall open_acc past_acc s,
    exists open_new past_new s' (requests : list (list event)),
      Forall2 (fun a r => exists s0 s1, scrape_open a s0 = (Ret r, s1))
              (take (length requests) agencies) open_new /\
      Forall2 (fun a r => exists s0 s1, scrape_past a s0 = (Ret r, s1))
              (take (length requests) agencies) past_new /\
      length requests <= length agencies /\
      Forall (fun rs => forallb is_fetch rs = true) requests /\
      ((length requests = length agencies /\
        (forall i, i < length requests ->
                   can_write (open_acc ++ take (S i) open_new)
                             (past_acc ++ take (S i) past_new) = true) /\
        all_loop agencies open_acc past_acc s
          = (Ret (open_acc ++ open_new, past_acc ++ past_new), s') /\
        log s' =
          log s ++ concat (imap (fun i rs =>
                                   round (open_acc ++ take (S i) open_new)
                                         (past_acc ++ take (S i) past_new) rs)
                                requests))
       \/
       (exists earlier last,
          requests = earlier ++ [last] /\
          (forall i, i < length earlier ->
                     can_write (open_acc ++ take (S i) open_new)
                               (past_acc ++ take (S i) past_new) = true) /\
          can_write (open_acc ++ open_new) (past_acc ++ past_new) = false /\
          all_loop agencies open_acc past_acc s = (Raise, s') /\
          log s' =
            log s ++ concat (imap (fun i rs =>
                                     round (open_acc ++ take (S i) open_new)
                                           (past_acc ++ take (S i) past_new) rs)
                                  earlier)
                  ++ last
                  ++ cut_checkpoint writable (open_acc ++ open_new)
                                    (past_acc ++ past_new))).
Proof.
  induction agencies as [|a agencies IH]; intros open_acc past_acc s.
  - exists [], [], s, []. cbn. rewrite !app_nil_r.
    split; [constructor|]. split; [constructor|]. split; [lia|].
    split; [constructor|]. left.
    split; [reflexivity|]. split; [intros i Hi; lia|].
    split; reflexivity.
  - destruct (scrape_open_total a s) as (ro & s1 & req1 & Hopen & _ & Hlog1 & Hreq1).
    destruct (scrape_past_total a s1) as (rp & s2 & req2 & Hpast & _ & Hlog2 & Hreq2).
    rewrite (scrape_all_loop_cons a agencies open_acc past_acc _ _ _ _ _
               Hopen Hpast).
    destruct (can_write (open_acc ++ [ro]) (past_acc ++ [rp])) eqn:Hwrite.
    + match goal with
      | |- context [all_loop agencies ?oa ?pa ?s3] =>
          destruct (IH oa pa s3)
            as (open_new & past_new & s' & requests & Ho & Hp & Hlen & Hreq & Hcase)
      end.
      exists (ro :: open_new), (rp :: past_new), s', ((req1 ++ req2) :: requests).
      cbn [length take].
      split; [constructor; [exists s, s1; exact Hopen | exact Ho]|].
      split; [constructor; [exists s1, s2; exact Hpast | exact Hp]|].
      split; [lia|].
      split.
      { constructor; [|exact Hreq]. now rewrite forallb_app, Hreq1, Hreq2. }
      assert (Hprefix : forall n i,
                 (forall j, j < n ->
                    can_write ((open_acc ++ [ro]) ++ take (S j) open_new)
                              ((past_acc ++ [rp]) ++ take (S j) past_new) = true) ->
                 i < S n ->
                 can_write (open_acc ++ take (S i) (ro :: open_new))
                           (past_acc ++ take (S i) (rp :: past_new)) = true).
      { intros n [|i] Hall Hi.
        - cbn [take]. rewrite !take_0. exact Hwrite.
        - cbn [take]. specialize (Hall i ltac:(lia)).
          rewrite <- !app_assoc in Hall. exact Hall. }
      assert (Hrounds : forall rss : list (list event),
                 imap (fun i rs =>
                         round (open_acc ++ take (S i) (ro :: open_new))
                               (past_acc ++ take (S i) (rp :: past_new)) rs)
                      ((req1 ++ req2) :: rss)
                 = round (open_acc ++ [ro]) (past_acc ++ [rp]) (req1 ++ req2)
                   :: imap (fun i rs =>
                              round ((open_acc ++ [ro]) ++ take (S i) open_new)
                                    ((past_acc ++ [rp]) ++ take (S i) past_new)
                                    rs) rss).
      { intros rss. rewrite imap_cons. cbn [take]. rewrite !take_0.
        f_equal. apply imap_ext. intros i rs _. unfold compose.
        cbn [take]. rewrite <- !app_assoc. reflexivity. }
      destruct Hcase as [(Hall & Hws & Hrun & Hlog)
                        |(earlier & last & -> & Hws & Hcut & Hrun & Hlog)].
      * left. split; [lia|]. split; [exact (fun i => Hprefix _ i Hws)|].
        split; [rewrite Hrun, <- !app_assoc; reflexivity|].
        rewrite Hlog, Hrounds. cbn [log concat]. rewrite Hlog2, Hlog1.
        rewrite <- !app_assoc. reflexivity.
      * right. exists ((req1 ++ req2) :: earlier), last.
        split; [reflexivity|].
        split; [exact (fun i => Hprefix _ i Hws)|].
        split; [rewrite <- !app_assoc in Hcut; exact Hcut|].
        split; [exact Hrun|].
        rewrite Hlog, Hrounds. cbn [log concat]. rewrite Hlog2, Hlog1.
        rewrite <- !app_assoc. reflexivity.
    + exists [ro], [rp], {| calls := calls s2; clock_reads := clock_reads s2;
                           log := log s2 ++ cut_checkpoint writable
                                              (open_acc ++ [ro])
                                              (past_acc ++ [rp]) |},
             [req1 ++ req2].
      cbn [length take]. rewrite take_0.
      split; [constructor; [exists s, s1; exact Hopen | constructor]|].
      split; [constructor; [exists s1, s2; exact Hpast | constructor]|].
      split; [lia|].
      split; [constructor; [now rewrite forallb_app, Hreq1, Hreq2 | constructor]|].
      right. exists [], (req1 ++ req2).
      split; [reflexivity|]. split; [intros i Hi; cbn in Hi; lia|].
      split; [exact Hwrite|]. split; [reflexivity|].
      cbn [log imap concat app]. rewrite Hlog2, Hlog1.
      rewrite <- !app_assoc. reflexivity.
Qed.

End Checkpoints.

(** C9, as the code has it.  The harvest loop processes the agencies in
    order and appends to each accumulator exactly one entry per agency,
    which is what the harvester of that feed returned for that agency.
    Each agency makes one round in the log: the requests of its two
    feeds, then the checkpoint, which is made with the first [i + 1]
    entries of each list in the round of agency number [i + 1], and
    nothing is written between the requests of an agency.  If every value
    can be written, every checkpoint writes both files in full and is
    followed by the delay, and the loop returns the two lists, one entry
    per agency.  Otherwise the loop stops at the first checkpoint that
    cannot be written, with the exception of [json.dump]: that
    checkpoint leaves the open file cut short and the past file as the
    round before left it, or the open file complete and the past file cut
    short; no later agency is visited. *)
Theorem checkpoints_are_snapshots
    (json_loads : string -> loads_result) (container_repr : json -> string)
    (writable : json -> bool)
    (w : world) (MAX_RETRIES : nat) (agencies : list agency) (s : state) :
  exists open_opps past_opps s' (requests : list (list event)),
    let full_round i rs :=
      rs ++ [EvMakedirs;
             EvWriteOpen (take (S i) open_opps);
             EvWritePast (take (S i) past_opps);
             EvSleep REQUEST_DELAY] in
    Forall2 (fun a r =>
               open_agency_name r = agency_name a /\
               exists s0 s1,
                 scrape_open_opportunities json_loads w MAX_RETRIES a s0
                   = (Ret r, s1))
            (take (length requests) agencies) open_opps /\
    Forall2 (fun a r =>
               past_agency_name r = agency_name a /\
               exists s0 s1,
                 scrape_past_opportunities json_loads container_repr w
                   MAX_RETRIES a s0 = (Ret r, s1))
            (take (length requests) agencies) past_opps /\
    length requests <= length agencies /\
    Forall (fun rs => forallb is_fetch rs = true) requests /\
    ((snapshot_writable writable open_opps past_opps = true /\
      length requests = length agencies /\
      scrape_all_opportunities json_loads container_repr writable w
        MAX_RETRIES agencies s
        = (Ret (open_opps, past_opps), s') /\
      log s' = log s ++ concat (imap full_round requests))
     \/
     (snapshot_writable writable open_opps past_opps = false /\
      exists earlier last,
        requests = earlier ++ [last] /\
        (forall i, i < length earlier ->
                   snapshot_writable writable (take (S i) open_opps)
                     (take (S i) past_opps) = true) /\
        scrape_all_opportunities json_loads container_repr writable w
          MAX_RETRIES agencies s
          = (Raise, s') /\
        log s' =
          log s ++ concat (imap full_round earlier) ++ last
                ++ EvMakedirs ::
                   (if forallb (open_result_writable writable) open_opps
                    then [EvWriteOpen open_opps; EvCutPast past_opps]
                    else [EvCutOpen open_opps]))).
Proof.
  destruct (scrape_all_loop_run json_loads container_repr writable w
              MAX_RETRIES agencies [] [] s)
    as (open_opps & past_opps & s' & requests & Ho & Hp & Hlen & Hreq & Hcase).
  exists open_opps, past_opps, s', requests. cbv zeta.
  split.
  { eapply Forall2_impl; [exact Ho|]. cbn beta. intros a r (s0 & s1 & Heq).
    split; [|exists s0, s1; exact Heq].
    destruct (scrape_open_total json_loads w MAX_RETRIES a s0)
      as (r' & s1' & _ & Heq' & Hname & _).
    rewrite Heq in Heq'. now injection Heq' as <- _. }
  split.
  { eapply Forall2_impl; [exact Hp|]. cbn beta. intros a r (s0 & s1 & Heq).
    split; [|exists s0, s1; exact Heq].
    destruct (scrape_past_total json_loads container_repr w MAX_RETRIES a s0)
      as (r' & s1' & _ & Heq' & Hname & _).
    rewrite Heq in Heq'. now injection Heq' as <- _. }
  split; [exact Hlen|]. split; [exact Hreq|].
  assert (Hlo : length open_opps = length requests).
  { apply Forall2_length in Ho. rewrite length_take in Ho. lia. }
  assert (Hlp : length past_opps = length requests).
  { apply Forall2_length in Hp. rewrite length_take in Hp. lia. }
  destruct Hcase as [(Hall & Hws & Hrun & Hlog)
                    |(earlier & last & Hsplit & Hws & Hcut & Hrun & Hlog)].
  - left. split.
    { destruct (length requests) as [|n] eqn:Hn.
      - destruct open_opps; [|discriminate]. destruct past_opps; [|discriminate].
        reflexivity.
      - specialize (Hws n ltac:(lia)). cbn [app] in Hws.
        rewrite !firstn_all2 in Hws by lia. exact Hws. }
    split; [exact Hall|]. split; [exact Hrun | exact Hlog].
  - right. split; [exact Hcut|]. exists earlier, last.
    split; [exact Hsplit|]. split; [exact Hws|].
    split; [exact Hrun | exact Hlog].
Qed.

(** C9 as stated fails.  The feeds of the second agency hold a project
    name that cannot be encoded.  The checkpoint of the first agency is
    complete; that of the second is made after both of its feeds were
    read, and [json.dump] raises in the open file: this file is left cut
    short, the past file still holds the first agency alone, and the
    exception ends the loop. *)
Lemma checkpoint_cut_short :
  let open_delta :=
    {| open_url := "https://delta.example/portal/?tab=openOpportunities";
       open_agency_name := JStr "Delta Corp";
       open_opportunities :=
         [ {| open_status := "Open";
              open_reference := JStr "RFP-1";
              open_project_name := JStr "Bridge";
              open_closed_date := JStr "2025-03-04 12:00:00";
              open_days_left := 3 |} ] |} in
  let past_delta :=
    {| past_url := "https://delta.example/portal/?tab=pastOpportunities";
       past_agency_name := JStr "Delta Corp";
       past_opportunities :=
         [ {| past_status := "Awarded";
              past_reference := JStr "RFP-1";
              past_project_name := JStr "Bridge";
              past_closed_date := JStr "2025-03-04 12:00:00" |} ] |} in
  let open_gamma :=
    {| open_url := "https://gamma.example/portal/?tab=openOpportunities";
       open_agency_name := JStr "Gamma LLC";
       open_opportunities :=
         [ {| open_status := "Open";
              open_reference := JStr "RFP-2";
              open_project_name := JStr ("Quay " +:+ Sample.lone_surrogate);
              open_closed_date := JStr "2025-03-04 12:00:00";
              open_days_left := 3 |} ] |} in
  scrape_all_opportunities Sample.json_loads Sample.no_repr Sample.writable
    Sample.surrogate_project settings.MAX_RETRIES
    [Sample.delta; Sample.gamma] initial_state
  = (Raise,
     {| calls := 4; clock_reads := 2;
        log := [EvFetch (open_api_url Sample.delta);
                EvFetch (past_api_url Sample.delta);
                EvMakedirs; EvWriteOpen [open_delta]; EvWritePast [past_delta];
                EvSleep REQUEST_DELAY;
                EvFetch (open_api_url Sample.gamma);
                EvFetch (past_api_url Sample.gamma);
                EvMakedirs; EvCutOpen [open_delta; open_gamma]] |}).
Proof. vm_compute. reflexivity. Qed.

(** ** Runs on concrete portals *)

(** The scenario of the specification: one page with Delta Corp, Gamma LLC
    and Zeta Inc, the letters D and G, a quota of 1. *)
Example discover_delta_gamma :
  Sample.discover Sample.three_orgs ["D"; "G"] 1 5 initial_state
  = (Ret (Finished
            [ {| agency_name := JStr "Delta Corp";
                 agency_url := "https://delta.example" |};
              {| agency_name := JStr "Gamma LLC";
                 agency_url := "https://gamma.example" |} ]),
     {| calls := 1; clock_reads := 0;
        log := [EvSleep (Seconds 40); EvFetch (Sample.listing_url 1)] |}).
Proof. vm_compute. reflexivity. Qed.

(** With the letters of [config/settings.py] no quota is reached, and the
    empty second page ends discovery. *)
Example discover_until_empty_page :
  Sample.discover Sample.three_orgs settings.TARGET_LETTERS
    settings.AGENCIES_PER_LETTER 5 initial_state
  = (Ret (Finished
            [ {| agency_name := JStr "Delta Corp";
                 agency_url := "https://delta.example" |};
              {| agency_name := JStr "Gamma LLC";
                 agency_url := "https://gamma.example" |} ]),
     {| calls := 2; clock_reads := 0;
        log := [EvSleep (Seconds 40); EvFetch (Sample.listing_url 1);
                EvFetch (Sample.listing_url 2)] |}).
Proof. vm_compute. reflexivity. Qed.

(** The first wrapper is used, and its content ends at the first closing
    tag. *)
Example extract_first_wrapper :
  extract_json_from_page Sample.json_loads
    "<p>x</p><pre>[1, 2]</pre><pre>[3]</pre></pre>"
  = Some (JArr [JNum 1; JNum 2]).
Proof. vm_compute. reflexivity. Qed.

(** The content may span lines. *)
Example extract_across_lines :
  extract_json_from_page Sample.json_loads "<html><pre>[1,
 2]
</pre></html>"
  = Some (JArr [JNum 1; JNum 2]).
Proof. vm_compute. reflexivity. Qed.

Example extract_malformed :
  extract_json_from_page Sample.json_loads "<pre>[1, 2</pre>" = Some JNull.
Proof. vm_compute. reflexivity. Qed.

(** [strptime] also accepts fields of one digit and several blanks. *)
Example strptime_lenient :
  strptime "2025-3-4   1:2:3" = make_datetime 2025 3 4 1 2 3.
Proof. vm_compute. reflexivity. Qed.

Example strptime_examples :
  strptime "2024-02-29 23:59:59" = make_datetime 2024 2 29 23 59 59 /\
  strptime "2025-02-29 12:00:00" = None /\
  strptime "2025-03-01T12:00:00" = None /\
  strptime "2025-03-01 12:00:00 UTC" = None /\
  strptime "" = None.
Proof. repeat split; vm_compute; reflexivity. Qed.

(** One agency on a portal whose feeds have no projects: one request per
    feed, then the checkpoint with the two results, then the delay. *)
Example harvest_one_agency :
  scrape_all_opportunities Sample.json_loads Sample.no_repr Sample.writable Sample.no_projects
    settings.MAX_RETRIES [Sample.delta] initial_state
  = let open_data :=
      {| open_url := "https://delta.example/portal/?tab=openOpportunities";
         open_agency_name := JStr "Delta Corp";
         open_opportunities := [] |} in
    let past_data :=
      {| past_url := "https://delta.example/portal/?tab=pastOpportunities";
         past_agency_name := JStr "Delta Corp";
         past_opportunities := [] |} in
    (Ret ([open_data], [past_data]),
     {| calls := 2; clock_reads := 0;
        log := [EvFetch (open_api_url Sample.delta);
                EvFetch (past_api_url Sample.delta);
                EvMakedirs; EvWriteOpen [open_data]; EvWritePast [past_data];
                EvSleep REQUEST_DELAY] |}).
Proof. vm_compute. reflexivity. Qed.

(** A feed with one project that closes in 3 days and 4 hours, awarded in
    the past feed. *)
Example harvest_one_project :
  fst (scrape_open_opportunities Sample.json_loads Sample.one_project
         settings.MAX_RETRIES Sample.delta initial_state)
  = Ret {| open_url := "https://delta.example/portal/?tab=openOpportunities";
           open_agency_name := JStr "Delta Corp";
           open_opportunities :=
             [ {| open_status := "Open";
                  open_reference := JStr "RFP-1";
                  open_project_name := JStr "Bridge";
                  open_closed_date := JStr "2025-03-04 12:00:00";
                  open_days_left := 3 |} ] |} /\
  fst (scrape_past_opportunities Sample.json_loads Sample.no_repr
         Sample.one_project settings.MAX_RETRIES Sample.delta initial_state)
  = Ret {| past_url := "https://delta.example/portal/?tab=pastOpportunities";
           past_agency_name := JStr "Delta Corp";
           past_opportunities :=
             [ {| past_status := "Awarded";
                  past_reference := JStr "RFP-1";
                  past_project_name := JStr "Bridge";
                  past_closed_date := JStr "2025-03-04 12:00:00" |} ] |}.
Proof. split; vm_compute; reflexivity. Qed.

(** * Further properties *)

(** ** [login]: what it does to the form *)

(** [login] never raises, makes no request for a page source and writes
    no file: its log holds events of the form only. *)
Lemma login_effects (w : world) (LOGIN_URL email password : string) (s : state) :
  match login w LOGIN_URL email password s with
  | (Ret b, s') =>
      exists evs, log s' = log s ++ evs /\ forallb is_form_event evs = true
  | (Raise, _) => False
  end.
Proof.
  destruct s as [n reads events].
  run_browser.
  repeat next_answer;
    (eexists; split;
     [rewrite <- ?app_assoc; reflexivity | reflexivity]).
Qed.

(** X1.  Whatever the browser answers, [login] types nothing but the email
    and then the password, each at most once and in this order; it makes
    between 1 and 11 browser calls, at least 8 of them when it returns
    [True], and never reads the clock. *)
Theorem login_types_credentials_once
    (w : world) (LOGIN_URL email password : string) (s : state) :
  exists b s' evs,
    login w LOGIN_URL email password s = (Ret b, s') /\
    log s' = log s ++ evs /\
    filter (fun e => is_typing e = true) evs
      `prefix_of` [EvTypeText email; EvTypeText password] /\
    (b = true ->
     filter (fun e => is_typing e = true) evs
       = [EvTypeText email; EvTypeText password]) /\
    calls s < calls s' <= calls s + 11 /\
    (b = true -> calls s + 8 <= calls s') /\
    clock_reads s' = clock_reads s.
Proof.
  destruct s as [n reads events].
  assert (Hgoal :
    match login w LOGIN_URL email password
            {| calls := n; clock_reads := reads; log := events |} with
    | (Ret b, s') =>
        exists evs,
          log s' = events ++ evs /\
          filter (fun e => is_typing e = true) evs
            `prefix_of` [EvTypeText email; EvTypeText password] /\
          (b = true ->
           filter (fun e => is_typing e = true) evs
             = [EvTypeText email; EvTypeText password]) /\
          n < calls s' <= 11 + n /\
          (b = true -> 8 + n <= calls s') /\
          clock_reads s' = reads
    | (Raise, _) => False
    end).
  { run_browser.
    repeat next_answer;
      (eexists; split; [rewrite <- ?app_assoc; reflexivity|];
       cbn [log calls clock_reads];
       match goal with
       | |- context [filter _ ?l] =>
           let r := eval vm_compute in
             (filter (fun e => is_typing e = true) l) in
           change (filter (fun e => is_typing e = true) l) with r
       end;
       split;
       [ first [ exists [EvTypeText email; EvTypeText password]; reflexivity
               | exists [EvTypeText password]; reflexivity
               | exists []; reflexivity ]
       | split;
         [ first [ intros _; reflexivity | intros H; discriminate H ]
         | split; [lia | split; [ first [ intros _; lia | intros H; discriminate H ]
                                 | reflexivity ]] ] ]). }
  destruct (login w LOGIN_URL email password
              {| calls := n; clock_reads := reads; log := events |})
    as [[b|] s']; [|contradiction].
  destruct Hgoal as (evs & H1 & H2 & H3 & H4 & H5 & H6).
  exists b, s', evs. cbn [calls clock_reads log].
  repeat split; try assumption; try lia. intros Hb. specialize (H5 Hb). lia.
Qed.

(** ** The orchestrator *)

Lemma Forall2_map_eq {A B C} (P : A -> B -> Prop) (f : B -> C) (g : A -> C)
    (l1 : list A) (l2 : list B) :
  Forall2 P l1 l2 -> (forall a b, P a b -> f b = g a) ->
  map f l2 = map g l1.
Proof.
  intros H Hfg. induction H as [|a b l1 l2 Hab _ IH]; [reflexivity|].
  cbn [map]. f_equal; [exact (Hfg a b Hab) | exact IH].
Qed.

Section Orchestration.

Variable json_loads : string -> loads_result.
Variable str_upper : string -> string.
Variable container_repr : json -> string.
Variable writable : json -> bool.
Variable h : host.
Variable TARGET_LETTERS : list string.
Variable AGENCIES_PER_LETTER : nat.
Variable MAX_RETRIES : nat.
Variable PAGE_LIMIT : nat.
Variable ORGANIZATIONS_API : string.
Variable LOGIN_URL : string.
Variable email password : string.

Local Abbreviation the_login := (login (portal h) LOGIN_URL email password).
Local Abbreviation discovery :=
  (fetch_agencies json_loads str_upper container_repr (portal h)
     TARGET_LETTERS AGENCIES_PER_LETTER MAX_RETRIES PAGE_LIMIT
     ORGANIZATIONS_API).
Local Abbreviation harvest :=
  (scrape_all_opportunities json_loads container_repr writable (portal h)
     MAX_RETRIES).
Local Abbreviation body :=
  (run_body json_loads str_upper container_repr writable h TARGET_LETTERS
     AGENCIES_PER_LETTER MAX_RETRIES PAGE_LIMIT ORGANIZATIONS_API LOGIN_URL
     email password).
Local Abbreviation whole_run :=
  (BonfireScraper_run json_loads str_upper container_repr writable h
     TARGET_LETTERS AGENCIES_PER_LETTER MAX_RETRIES PAGE_LIMIT
     ORGANIZATIONS_API LOGIN_URL email password).

(** The object with a browser and a tab, after the method that ended in
    [s]. *)
Local Abbreviation started :=
  (fun (agencies : list agency) (s : state) (sts : list step) =>
     {| self_browser := true; self_tab := true; self_agencies := agencies;
        browser_calls := calls s; clock_readings := clock_reads s;
        steps := sts |}).

(** What [close_browser] does, by what is open. *)
Local Abbreviation closing :=
  (fun (tab browser : bool) =>
     (if tab then [StTabClose] else []) ++
     (if tab && negb (tab_close_ok h) then []
      else (if browser then [StBrowserClose] else []) ++
           (if browser && negb (browser_close_ok h) then []
            else [StPortal (EvSleep (Seconds 1))]))).

Lemma close_browser_eq (o : scraper) :
  close_browser h o =
    (Ret tt,
     {| self_browser := self_browser o; self_tab := self_tab o;
        self_agencies := self_agencies o; browser_calls := browser_calls o;
        clock_readings := clock_readings o;
        steps := steps o ++ closing (self_tab o) (self_browser o) |}).
Proof.
  destruct o as [b t ags c r sts].
  unfold close_browser, rtry_catch, rbind, tab_close, browser_close, rret,
    lift, sleep, emit, portal_state, add_step.
  cbn [self_browser self_tab self_agencies browser_calls clock_readings steps
       calls clock_reads log].
  destruct t, b, (tab_close_ok h), (browser_close_ok h);
    cbn [andb negb app map calls clock_reads log self_browser self_tab
         self_agencies browser_calls clock_readings steps];
    rewrite <- ?app_assoc, ?app_nil_r; reflexivity.
Qed.

Lemma discovery_total fuel s :
  exists r s', discovery fuel s = (Ret r, s').
Proof.
  rewrite fetch_agencies_eq.
  destruct (fetch_loop_tracks json_loads str_upper container_repr (portal h)
              TARGET_LETTERS AGENCIES_PER_LETTER MAX_RETRIES PAGE_LIMIT
              ORGANIZATIONS_API fuel 1 (empty_buckets TARGET_LETTERS)
              (slept (Seconds 40) s) []
              (tracks_empty str_upper container_repr TARGET_LETTERS
                 AGENCIES_PER_LETTER))
    as (r & s' & pages & Heq & _).
  rewrite Heq. destruct r; eauto.
Qed.

(** The [try] block of [run], read off the methods it calls. *)
Lemma run_body_eq fuel :
  body fuel new_scraper =
    match start_answer h with
    | ChromeRaised =>
        (Raise, add_step StStartBrowser new_scraper)
    | StartRaised =>
        (Raise,
         {| self_browser := true; self_tab := false; self_agencies := [];
            browser_calls := 0; clock_readings := 0;
            steps := [StStartBrowser] |})
    | StartOk =>
        match the_login initial_state with
        | (Raise, s1) =>
            (Raise, started [] s1 (StStartBrowser :: map StPortal (log s1)))
        | (Ret false, s1) =>
            (Raise, started [] s1 (StStartBrowser :: map StPortal (log s1)))
        | (Ret true, s1) =>
            let sts1 := StStartBrowser :: map StPortal (log s1) in
            match discovery fuel (resume s1) with
            | (Raise, s2) =>
                (Raise, started [] s2 (sts1 ++ map StPortal (log s2)))
            | (Ret (OutOfFuel _), s2) =>
                (Ret (OutOfFuel ([], [])),
                 started [] s2 (sts1 ++ map StPortal (log s2)))
            | (Ret (Finished selected), s2) =>
                let sts2 :=
                  sts1 ++ map StPortal (log s2) ++
                  [StPortal EvMakedirs; StWriteAgencies selected] in
                if forallb (agency_writable writable) selected then
                  match selected with
                  | [] => (Ret (Finished ([], [])), started [] s2 sts2)
                  | _ :: _ =>
                      match harvest selected (resume s2) with
                      | (Ret lists, s3) =>
                          (Ret (Finished lists),
                           started selected s3 (sts2 ++ map StPortal (log s3)))
                      | (Raise, s3) =>
                          (Raise,
                           started selected s3 (sts2 ++ map StPortal (log s3)))
                      end
                  end
                else
                  (Raise,
                   started selected s2
                     (sts1 ++ map StPortal (log s2) ++
                      [StPortal EvMakedirs; StCutAgencies selected]))
            end
        end
    end.
Proof.
  unfold run_body, rbind at 1, start_browser.
  destruct (start_answer h); try reflexivity.
  unfold rbind at 1, lift at 1, portal_state at 1.
  cbn [self_browser self_tab self_agencies browser_calls clock_readings steps
       add_step new_scraper app].
  change {| calls := 0; clock_reads := 0; log := [] |} with initial_state.
  destruct (the_login initial_state) as [[[|]|] s1]; try reflexivity.
  cbn [negb]. cbv zeta.
  unfold rbind at 1, fetch_agencies_method, rbind at 1, lift at 1,
    portal_state at 1.
  cbn [self_browser self_tab self_agencies browser_calls clock_readings steps].
  fold (resume s1).
  destruct (discovery fuel (resume s1)) as [[[selected|selected]|] s2];
    try reflexivity.
  unfold rbind at 1, save_agencies, rbind at 1, lift at 1, emit, portal_state,
    add_step.
  cbn [self_browser self_tab self_agencies browser_calls clock_readings steps
       calls clock_reads log map app].
  destruct (forallb (agency_writable writable) selected);
    [|rewrite <- ?app_assoc; cbn [app]; rewrite <- ?app_assoc; reflexivity].
  destruct selected as [|a rest].
  - unfold rret. rewrite <- ?app_assoc. cbn [app]. rewrite <- ?app_assoc. reflexivity.
  - unfold rbind, lift, portal_state, rret.
    cbn [self_browser self_tab self_agencies browser_calls clock_readings steps].
    fold (resume s2).
    destruct (harvest (a :: rest) (resume s2)) as [[lists|] s3];
      rewrite <- ?app_assoc; cbn [app]; rewrite <- ?app_assoc; reflexivity.
Qed.

Lemma run_eq fuel :
  whole_run fuel new_scraper =
    match body fuel new_scraper with
    | (Ret (OutOfFuel a), o') => (Ret (OutOfFuel a), o')
    | (r, o') =>
        (r,
         {| self_browser := self_browser o'; self_tab := self_tab o';
            self_agencies := self_agencies o'; browser_calls := browser_calls o';
            clock_readings := clock_readings o';
            steps := steps o' ++ closing (self_tab o') (self_browser o') |})
    end.
Proof.
  unfold BonfireScraper_run, try_finally.
  destruct (body fuel new_scraper) as [[[a|a]|] o'];
    try rewrite close_browser_eq; reflexivity.
Qed.

Lemma closing_quiet (tab browser : bool) :
  Forall (fun st => is_request_or_write st = false) (closing tab browser).
Proof.
  destruct tab, browser, (tab_close_ok h), (browser_close_ok h);
    cbn [andb negb app]; repeat constructor.
Qed.

(** A harvest that returns gives one entry per agency and feed, with the
    name of the agency and the address of its tab. *)
Lemma harvest_returns agencies s open_opps past_opps s' :
  harvest agencies s = (Ret (open_opps, past_opps), s') ->
  map open_agency_name open_opps = map agency_name agencies /\
  map open_url open_opps
    = map (fun a => agency_url a +:+ "/portal/?tab=openOpportunities")
          agencies /\
  map past_agency_name past_opps = map agency_name agencies /\
  map past_url past_opps
    = map (fun a => agency_url a +:+ "/portal/?tab=pastOpportunities")
          agencies.
Proof.
  unfold scrape_all_opportunities.
  destruct (scrape_all_loop_run json_loads container_repr writable (portal h)
              MAX_RETRIES agencies [] [] s)
    as (open_new & past_new & s0' & requests & Ho & Hp & _ & _ & Hcase).
  destruct Hcase as [(Hall & _ & Hrun & _)|(_ & _ & _ & _ & _ & Hrun & _)];
    [|intros Heq; rewrite Heq in Hrun; discriminate Hrun].
  intros Hret. rewrite Hret in Hrun. cbn [app] in Hrun.
  injection Hrun as <- <- <-.
  rewrite Hall, firstn_all in Ho, Hp. clear Hret.
  assert (Hopen : forall a r s0 s1,
             scrape_open_opportunities json_loads (portal h) MAX_RETRIES a s0
               = (Ret r, s1) ->
             open_agency_name r = agency_name a /\
             open_url r = agency_url a +:+ "/portal/?tab=openOpportunities").
  { intros a r s0 s1. unfold scrape_open_opportunities.
    match goal with
    | |- open_attempts _ _ _ ?url ?result _ = _ -> _ =>
        destruct (open_attempts_total json_loads (portal h) MAX_RETRIES url
                    result s0) as (r' & s1' & Heq & Hu & Hn & _)
    end.
    rewrite Heq. intros [= <- <-]. split; assumption. }
  assert (Hpast : forall a r s0 s1,
             scrape_past_opportunities json_loads container_repr (portal h)
               MAX_RETRIES a s0 = (Ret r, s1) ->
             past_agency_name r = agency_name a /\
             past_url r = agency_url a +:+ "/portal/?tab=pastOpportunities").
  { intros a r s0 s1. unfold scrape_past_opportunities.
    match goal with
    | |- past_attempts _ _ _ _ ?url ?result _ = _ -> _ =>
        destruct (past_attempts_total json_loads container_repr (portal h)
                    MAX_RETRIES url result s0) as (r' & s1' & Heq & Hu & Hn & _)
    end.
    rewrite Heq. intros [= <- <-]. split; assumption. }
  repeat split.
  - apply (Forall2_map_eq _ _ _ _ _ Ho). intros a r (s0 & s1 & Hr).
    apply (Hopen a r s0 s1 Hr).
  - apply (Forall2_map_eq _ _ _ _ _ Ho). intros a r (s0 & s1 & Hr).
    apply (Hopen a r s0 s1 Hr).
  - apply (Forall2_map_eq _ _ _ _ _ Hp). intros a r (s0 & s1 & Hr).
    apply (Hpast a r s0 s1 Hr).
  - apply (Forall2_map_eq _ _ _ _ _ Hp). intros a r (s0 & s1 & Hr).
    apply (Hpast a r s0 s1 Hr).
Qed.

End Orchestration.

(** X2.  [close_browser] never raises.  It closes the tab exactly when the
    object has one, and closes the browser process exactly when the object
    has one and closing the tab did not raise: an exception of
    [tab.close()] is swallowed by the handler together with the call of
    [browser.close()] that would have followed. *)
Theorem close_browser_never_raises (h : host) (o : scraper) :
  exists o' done,
    close_browser h o = (Ret tt, o') /\
    steps o' = steps o ++ done /\
    (StTabClose ∈ done <-> self_tab o = true) /\
    (StBrowserClose ∈ done <->
     self_browser o = true /\ (self_tab o = true -> tab_close_ok h = true)) /\
    self_browser o' = self_browser o /\ self_tab o' = self_tab o.
Proof.
  rewrite close_browser_eq. eexists _, _.
  split; [reflexivity|]. split; [reflexivity|].
  cbn [self_browser self_tab].
  destruct (self_tab o), (self_browser o), (tab_close_ok h),
    (browser_close_ok h); cbn [andb negb app];
    repeat split; intros;
    repeat match goal with
           | H : _ ∈ _ :: _ |- _ => apply elem_of_cons in H; destruct H
           | H : _ ∈ [] |- _ => apply elem_of_nil in H; contradiction
           | H : _ /\ _ |- _ => destruct H
           end;
    try discriminate; try reflexivity; try congruence;
    try (apply elem_of_cons; left; reflexivity);
    try (apply elem_of_cons; right; apply elem_of_cons; left; reflexivity);
    try (exfalso; auto; fail) ;
    try (match goal with H : true = true -> false = true |- _ =>
           specialize (H eq_refl); discriminate H end).
Qed.

Lemma portal_steps_not_close (evs : list event) :
  Forall (fun st => is_close st = false /\ st <> StStartBrowser)
         (map StPortal evs).
Proof.
  induction evs as [|e evs IH]; constructor; [|exact IH].
  split; [reflexivity | discriminate].
Qed.

(** X3.  A run that ends, by a value or by an exception, has started the
    browser first and closes it last: after the start come steps that
    close nothing, then the teardown, which asks the portal for nothing
    and writes no file.  The teardown closes the tab exactly when the
    browser had started, and the browser process exactly when
    [Chrome(options)] had returned and closing the tab did not raise. *)
Theorem run_closes_what_it_opened
    (json_loads : string -> loads_result) (str_upper : string -> string)
    (container_repr : json -> string) (writable : json -> bool) (h : host)
    (TARGET_LETTERS : list string)
    (AGENCIES_PER_LETTER MAX_RETRIES PAGE_LIMIT : nat)
    (ORGANIZATIONS_API LOGIN_URL email password : string) (fuel : nat)
    (r : result (loop_exit (list open_result * list past_result)))
    (o' : scraper) :
  BonfireScraper_run json_loads str_upper container_repr writable h
    TARGET_LETTERS AGENCIES_PER_LETTER MAX_RETRIES PAGE_LIMIT
    ORGANIZATIONS_API LOGIN_URL email password fuel new_scraper = (r, o') ->
  (forall x, r <> Ret (OutOfFuel x)) ->
  exists work done,
    steps o' = StStartBrowser :: work ++ done /\
    Forall (fun st => is_close st = false /\ st <> StStartBrowser) work /\
    Forall (fun st => is_request_or_write st = false) done /\
    (StTabClose ∈ done <-> start_answer h = StartOk) /\
    (StBrowserClose ∈ done <->
     start_answer h <> ChromeRaised /\
     (start_answer h = StartOk -> tab_close_ok h = true)).
Proof.
  intros Hrun Hfuel.
  rewrite run_eq, run_body_eq in Hrun.
  assert (Hclose : forall tab browser,
             tab = match start_answer h with StartOk => true | _ => false end ->
             browser = match start_answer h with ChromeRaised => false | _ => true end ->
             let done :=
               (if tab then [StTabClose] else []) ++
               (if tab && negb (tab_close_ok h) then []
                else (if browser then [StBrowserClose] else []) ++
                     (if browser && negb (browser_close_ok h) then []
                      else [StPortal (EvSleep (Seconds 1))])) in
             Forall (fun st => is_request_or_write st = false) done /\
             (StTabClose ∈ done <-> start_answer h = StartOk) /\
             (StBrowserClose ∈ done <->
              start_answer h <> ChromeRaised /\
              (start_answer h = StartOk -> tab_close_ok h = true))).
  { intros tab browser -> ->. cbv zeta.
    split; [apply closing_quiet|].
    destruct (start_answer h), (tab_close_ok h), (browser_close_ok h);
      cbn; rewrite ?elem_of_cons, ?elem_of_nil;
      intuition (try discriminate; try congruence). }
  destruct (start_answer h) eqn:Hstart.
  - (* the browser started *)
    specialize (Hclose true true eq_refl eq_refl).
    pose proof (login_effects (portal h) LOGIN_URL email password initial_state)
      as Hlogin.
    destruct (login (portal h) LOGIN_URL email password initial_state)
      as [[[|]|] s1]; [| |contradiction].
    + cbv zeta in Hrun.
      destruct (discovery_total json_loads str_upper container_repr h
                  TARGET_LETTERS AGENCIES_PER_LETTER MAX_RETRIES PAGE_LIMIT
                  ORGANIZATIONS_API fuel (resume s1)) as (rd & s2 & Hd).
      rewrite Hd in Hrun.
      destruct rd as [selected|selected].
      * destruct (forallb (agency_writable writable) selected).
        -- destruct selected as [|a rest].
           ++ injection Hrun as <- <-. cbn [steps self_tab self_browser].
              eexists _, _. split; [cbn [app]; reflexivity|].
              split; [|exact Hclose].
              rewrite !Forall_app. repeat split;
                try apply portal_steps_not_close;
                repeat constructor; discriminate.
           ++ destruct (scrape_all_opportunities json_loads container_repr
                          writable (portal h) MAX_RETRIES (a :: rest)
                          (resume s2)) as [[lists|] s3];
                injection Hrun as <- <-;
                cbn [steps self_tab self_browser];
                (eexists _, _; split; [cbn [app]; reflexivity|];
                 split; [|exact Hclose];
                 rewrite !Forall_app; repeat split;
                 try apply portal_steps_not_close;
                 repeat constructor; discriminate).
        -- injection Hrun as <- <-. cbn [steps self_tab self_browser].
           eexists _, _. split; [cbn [app]; reflexivity|].
           split; [|exact Hclose].
           rewrite !Forall_app. repeat split;
             try apply portal_steps_not_close;
             repeat constructor; discriminate.
      * injection Hrun as <- _. exfalso. eapply Hfuel. reflexivity.
    + injection Hrun as <- <-. cbn [steps self_tab self_browser].
      eexists _, _. split; [cbn [app]; reflexivity|].
      split; [apply portal_steps_not_close | exact Hclose].
  - specialize (Hclose false false eq_refl eq_refl).
    injection Hrun as <- <-. cbn [steps self_tab self_browser add_step new_scraper].
    eexists [], _. split; [reflexivity|]. split; [constructor | exact Hclose].
  - specialize (Hclose false true eq_refl eq_refl).
    injection Hrun as <- <-. cbn [steps self_tab self_browser].
    eexists [], _. split; [reflexivity|]. split; [constructor | exact Hclose].
Qed.

(** A run on a machine whose tab cannot be closed: the browser process is
    left running. *)
Lemma run_closes_what_it_opened_witness :
  let h := Hosts.stuck_tab Sample.three_orgs in
  let visit := Hosts.visit h ["D"; "G"] 1 5 in
  exists work done,
    steps (snd visit) = StStartBrowser :: work ++ done /\
    Forall (fun st => is_close st = false /\ st <> StStartBrowser) work /\
    Forall (fun st => is_request_or_write st = false) done /\
    (StTabClose ∈ done <-> start_answer h = StartOk) /\
    (StBrowserClose ∈ done <->
     start_answer h <> ChromeRaised /\
     (start_answer h = StartOk -> tab_close_ok h = true)).
Proof.
  intros h visit.
  apply (run_closes_what_it_opened Sample.json_loads Sample.ascii_upper
           Sample.no_repr Sample.writable h ["D"; "G"] 1
           settings.MAX_RETRIES settings.PAGE_LIMIT settings.ORGANIZATIONS_API
           settings.LOGIN_URL "me@example.org" "secret" 5
           (fst visit) (snd visit)).
  - vm_compute. reflexivity.
  - intros x. vm_compute. discriminate.
Defined.

(** X4.  [run] raises exactly when the browser does not start, when
    [login] returns [False], or, after discovery, when [json.dump] raises
    in a file: in the agencies file, because a name or an address of a
    selected agency cannot be written, or in a checkpoint of the harvest.
    No failure on closing makes it raise.  A run that raises for one of
    the first two reasons has asked the portal for no page source and has
    written no file. *)
Theorem run_raises_iff
    (json_loads : string -> loads_result) (str_upper : string -> string)
    (container_repr : json -> string) (writable : json -> bool) (h : host)
    (TARGET_LETTERS : list string)
    (AGENCIES_PER_LETTER MAX_RETRIES PAGE_LIMIT : nat)
    (ORGANIZATIONS_API LOGIN_URL email password : string) (fuel : nat) :
  let visit :=
    BonfireScraper_run json_loads str_upper container_repr writable h
      TARGET_LETTERS AGENCIES_PER_LETTER MAX_RETRIES PAGE_LIMIT
      ORGANIZATIONS_API LOGIN_URL email password fuel new_scraper in
  let no_session :=
    start_answer h <> StartOk \/
    fst (login (portal h) LOGIN_URL email password initial_state) = Ret false in
  (fst visit = Raise <->
   no_session \/
   (start_answer h = StartOk /\
    exists s1 s2 selected,
      login (portal h) LOGIN_URL email password initial_state = (Ret true, s1) /\
      fetch_agencies json_loads str_upper container_repr (portal h)
        TARGET_LETTERS AGENCIES_PER_LETTER MAX_RETRIES PAGE_LIMIT
        ORGANIZATIONS_API fuel (resume s1) = (Ret (Finished selected), s2) /\
      (forallb (agency_writable writable) selected = false \/
       fst (scrape_all_opportunities json_loads container_repr writable
              (portal h) MAX_RETRIES selected (resume s2)) = Raise))) /\
  (no_session ->
   fst visit = Raise /\
   Forall (fun st => is_request_or_write st = false) (steps (snd visit))).
Proof.
  cbv zeta. rewrite run_eq, run_body_eq.
  destruct (start_answer h) eqn:Hstart.
  - pose proof (login_effects (portal h) LOGIN_URL email password initial_state)
      as Hlogin.
    destruct (login (portal h) LOGIN_URL email password initial_state)
      as [[[|]|] s1]; [| |contradiction].
    + cbv zeta.
      destruct (discovery_total json_loads str_upper container_repr h
                  TARGET_LETTERS AGENCIES_PER_LETTER MAX_RETRIES PAGE_LIMIT
                  ORGANIZATIONS_API fuel (resume s1)) as (rd & s2 & Hd).
      rewrite Hd.
      assert (Hno : ~ (StartOk <> StartOk \/
                       @fst (result bool) state (Ret true, s1) = Ret false)).
      { cbn. intros [H|H]; [now apply H | discriminate H]. }
      split; [|intros H; destruct (Hno H)].
      destruct rd as [selected|selected].
      * destruct (forallb (agency_writable writable) selected) eqn:Hwrite.
        -- destruct selected as [|a rest].
           ++ cbn [fst]. split; [discriminate|].
              intros [H|(_ & s1' & s2' & sel & [= <-] & Hd' & Hcase)];
                [destruct (Hno H)|].
              rewrite Hd in Hd'. injection Hd' as <- <-.
              destruct Hcase as [H|H]; discriminate H.
           ++ destruct (scrape_all_opportunities json_loads container_repr
                          writable (portal h) MAX_RETRIES (a :: rest)
                          (resume s2)) as [[lists|] s3] eqn:Hh; cbn [fst].
              ** split; [discriminate|].
                 intros [H|(_ & s1' & s2' & sel & [= <-] & Hd' & Hcase)];
                   [destruct (Hno H)|].
                 rewrite Hd in Hd'. injection Hd' as <- <-.
                 destruct Hcase as [H|H];
                   [rewrite Hwrite in H | rewrite Hh in H]; discriminate H.
              ** split; [|reflexivity]. intros _. right.
                 split; [reflexivity|]. exists s1, s2, (a :: rest).
                 split; [reflexivity|]. split; [exact Hd|].
                 right. rewrite Hh. reflexivity.
        -- cbn [fst]. split; [|reflexivity]. intros _. right.
           split; [reflexivity|]. exists s1, s2, selected.
           split; [reflexivity|]. split; [exact Hd|]. left. exact Hwrite.
      * cbn [fst]. split; [discriminate|].
        intros [H|(_ & s1' & s2' & sel & [= <-] & Hd' & _)];
          [destruct (Hno H)|].
        rewrite Hd in Hd'. discriminate Hd'.
    + destruct Hlogin as (evs & Hlog & Hform). cbn [log initial_state app] in Hlog.
      cbn [fst snd steps self_tab self_browser].
      split; [split; [intros _; left; right; reflexivity | reflexivity]|].
      intros _. split; [reflexivity|].
      rewrite Hlog. change (?x :: ?l ++ ?r) with ((x :: l) ++ r).
      apply Forall_app. split; [|apply (closing_quiet h true true)].
      constructor; [reflexivity|].
      apply Forall_forall. intros st Hst.
      apply list_elem_of_In, in_map_iff in Hst as (e & <- & He).
      rewrite forallb_forall in Hform.
      apply Hform in He. destruct e; try discriminate He; reflexivity.
  - cbn [fst snd steps self_tab self_browser add_step new_scraper].
    split; [split; [intros _; left; left; discriminate | reflexivity]|].
    intros _. split; [reflexivity|].
    apply Forall_app. split; [repeat constructor | apply (closing_quiet h false false)].
  - cbn [fst snd steps self_tab self_browser].
    split; [split; [intros _; left; left; discriminate | reflexivity]|].
    intros _. split; [reflexivity|].
    apply Forall_app. split; [repeat constructor | apply (closing_quiet h false true)].
Qed.

(** The name of the only organisation of the listing cannot be written:
    [save_agencies] raises, after the directory was made and the file
    opened, and [run] raises after the teardown. *)
Lemma run_raises_iff_witness :
  let visit :=
    Hosts.visit (Hosts.healthy Sample.surrogate_listing) ["D"] 1 5 in
  fst visit = Raise /\
  steps (snd visit) =
    StStartBrowser ::
    map StPortal
      [EvGoTo settings.LOGIN_URL; EvQuery "input#input-email" 10;
       EvTypeText "me@example.org"; EvQuery "//button[@type='submit']" 10;
       EvClick; EvSleep (Seconds 3); EvQuery "input#password" 5;
       EvTypeText "secret"; EvQuery "//button[@type='submit']" 10;
       EvClick; EvSleep (Seconds 5);
       EvSleep (Seconds 40); EvFetch (Sample.listing_url 1);
       EvMakedirs] ++
    [StCutAgencies
       [ {| agency_name := JStr ("Delta " +:+ Sample.lone_surrogate);
            agency_url := "https://delta.example" |} ];
     StTabClose; StBrowserClose; StPortal (EvSleep (Seconds 1))].
Proof.
  intros visit. split.
  - pose proof (run_raises_iff Sample.json_loads Sample.ascii_upper
                  Sample.no_repr Sample.writable
                  (Hosts.healthy Sample.surrogate_listing) ["D"] 1
                  settings.MAX_RETRIES settings.PAGE_LIMIT
                  settings.ORGANIZATIONS_API settings.LOGIN_URL
                  "me@example.org" "secret" 5) as H.
    cbv zeta in H. destruct H as [[_ H] _]. apply H. clear H.
    right. split; [reflexivity|].
    eexists _, _, _.
    split; [vm_compute; reflexivity|].
    split; [vm_compute; reflexivity|].
    left. vm_compute. reflexivity.
  - vm_compute. reflexivity.
Defined.

(** X5.  When the browser starts, [login] returns [True] and discovery
    selects no agency, [run] returns two empty lists.  It has written the
    agencies file, with the empty list, and after that only the teardown
    follows: no feed is requested and no checkpoint is written. *)
Theorem run_without_agencies
    (json_loads : string -> loads_result) (str_upper : string -> string)
    (container_repr : json -> string) (writable : json -> bool) (h : host)
    (TARGET_LETTERS : list string)
    (AGENCIES_PER_LETTER MAX_RETRIES PAGE_LIMIT : nat)
    (ORGANIZATIONS_API LOGIN_URL email password : string) (fuel : nat)
    (s1 s2 : state) :
  start_answer h = StartOk ->
  login (portal h) LOGIN_URL email password initial_state = (Ret true, s1) ->
  fetch_agencies json_loads str_upper container_repr (portal h)
    TARGET_LETTERS AGENCIES_PER_LETTER MAX_RETRIES PAGE_LIMIT
    ORGANIZATIONS_API fuel (resume s1) = (Ret (Finished []), s2) ->
  exists o' done,
    BonfireScraper_run json_loads str_upper container_repr writable h
      TARGET_LETTERS AGENCIES_PER_LETTER MAX_RETRIES PAGE_LIMIT
      ORGANIZATIONS_API LOGIN_URL email password fuel new_scraper
      = (Ret (Finished ([], [])), o') /\
    steps o' =
      StStartBrowser :: map StPortal (log s1 ++ log s2) ++
      [StPortal EvMakedirs; StWriteAgencies []] ++ done /\
    Forall (fun st => is_request_or_write st = false) done.
Proof.
  intros Hstart Hlogin Hdisc.
  rewrite run_eq, run_body_eq, Hstart, Hlogin. cbv zeta. rewrite Hdisc.
  cbn [forallb].
  eexists _, _. split; [reflexivity|].
  cbn [steps self_tab self_browser]. split.
  - rewrite map_app, <- !app_assoc. cbn [app]. reflexivity.
  - apply (closing_quiet h true true).
Qed.

Lemma run_without_agencies_witness :
  let h := Hosts.healthy Sample.gateway_error in
  exists o' done,
    Hosts.visit h ["D"; "G"] 1 5 = (Ret (Finished ([], [])), o') /\
    steps o' =
      StStartBrowser ::
      map StPortal
        ([EvGoTo settings.LOGIN_URL; EvQuery "input#input-email" 10;
          EvTypeText "me@example.org"; EvQuery "//button[@type='submit']" 10;
          EvClick; EvSleep (Seconds 3); EvQuery "input#password" 5;
          EvTypeText "secret"; EvQuery "//button[@type='submit']" 10;
          EvClick; EvSleep (Seconds 5)] ++
         [EvSleep (Seconds 40); EvFetch (Sample.listing_url 1)]) ++
      [StPortal EvMakedirs; StWriteAgencies []] ++ done /\
    Forall (fun st => is_request_or_write st = false) done.
Proof.
  intros h.
  apply (run_without_agencies Sample.json_loads Sample.ascii_upper
           Sample.no_repr Sample.writable h ["D"; "G"] 1 settings.MAX_RETRIES
           settings.PAGE_LIMIT settings.ORGANIZATIONS_API settings.LOGIN_URL
           "me@example.org" "secret" 5
           {| calls := 9; clock_reads := 0;
              log := [EvGoTo settings.LOGIN_URL; EvQuery "input#input-email" 10;
                      EvTypeText "me@example.org";
                      EvQuery "//button[@type='submit']" 10;
                      EvClick; EvSleep (Seconds 3); EvQuery "input#password" 5;
                      EvTypeText "secret"; EvQuery "//button[@type='submit']" 10;
                      EvClick; EvSleep (Seconds 5)] |}
           {| calls := 10; clock_reads := 0;
              log := [EvSleep (Seconds 40); EvFetch (Sample.listing_url 1)] |}).
  - reflexivity.
  - vm_compute. reflexivity.
  - vm_compute. reflexivity.
Defined.

Lemma written_agencies_app (a b : list step) :
  written_agencies (a ++ b) = written_agencies a ++ written_agencies b.
Proof. apply omap_app. Qed.

Lemma written_agencies_portal (evs : list event) :
  written_agencies (map StPortal evs) = [].
Proof. induction evs as [|e evs IH]; [reflexivity | exact IH]. Qed.

(** X6.  When [run] returns, the browser had started, [login] had
    returned [True] and discovery had ended with a selection; the
    agencies file has been written in full exactly once, with this
    selection, and the two lists returned have one entry per selected
    agency, in the order of the selection, each carrying the name of its
    agency and the address of the agency followed by the path of its
    tab. *)
Theorem run_returns_one_entry_per_agency
    (json_loads : string -> loads_result) (str_upper : string -> string)
    (container_repr : json -> string) (writable : json -> bool) (h : host)
    (TARGET_LETTERS : list string)
    (AGENCIES_PER_LETTER MAX_RETRIES PAGE_LIMIT : nat)
    (ORGANIZATIONS_API LOGIN_URL email password : string) (fuel : nat)
    (open_opps : list open_result) (past_opps : list past_result)
    (o' : scraper) :
  BonfireScraper_run json_loads str_upper container_repr writable h
    TARGET_LETTERS AGENCIES_PER_LETTER MAX_RETRIES PAGE_LIMIT
    ORGANIZATIONS_API LOGIN_URL email password fuel new_scraper
    = (Ret (Finished (open_opps, past_opps)), o') ->
  start_answer h = StartOk /\
  exists s1 s2 selected,
    login (portal h) LOGIN_URL email password initial_state = (Ret true, s1) /\
    fetch_agencies json_loads str_upper container_repr (portal h)
      TARGET_LETTERS AGENCIES_PER_LETTER MAX_RETRIES PAGE_LIMIT
      ORGANIZATIONS_API fuel (resume s1) = (Ret (Finished selected), s2) /\
    written_agencies (steps o') = [selected] /\
    map open_agency_name open_opps = map agency_name selected /\
    map open_url open_opps
      = map (fun a => agency_url a +:+ "/portal/?tab=openOpportunities")
            selected /\
    map past_agency_name past_opps = map agency_name selected /\
    map past_url past_opps
      = map (fun a => agency_url a +:+ "/portal/?tab=pastOpportunities")
            selected.
Proof.
  intros Hrun. rewrite run_eq, run_body_eq in Hrun.
  destruct (start_answer h); [|discriminate Hrun|discriminate Hrun].
  split; [reflexivity|].
  destruct (login (portal h) LOGIN_URL email password initial_state)
    as [[[|]|] s1]; [|discriminate Hrun|discriminate Hrun].
  cbv zeta in Hrun.
  destruct (fetch_agencies json_loads str_upper container_repr (portal h)
              TARGET_LETTERS AGENCIES_PER_LETTER MAX_RETRIES PAGE_LIMIT
              ORGANIZATIONS_API fuel (resume s1))
    as [[[selected|selected]|] s2] eqn:Hd;
    [|discriminate Hrun|discriminate Hrun].
  exists s1, s2, selected. split; [reflexivity|]. split; [exact Hd|].
  destruct (forallb (agency_writable writable) selected);
    [|discriminate Hrun].
  destruct selected as [|a rest].
  - injection Hrun as <- <- <-. cbn [steps self_tab self_browser].
    split; [|repeat split; reflexivity].
    change (StStartBrowser :: ?l) with ([StStartBrowser] ++ l).
    rewrite !written_agencies_app, !written_agencies_portal.
    destruct (tab_close_ok h), (browser_close_ok h); reflexivity.
  - destruct (scrape_all_opportunities json_loads container_repr writable
                (portal h) MAX_RETRIES (a :: rest) (resume s2))
      as [[[oo po]|] s3] eqn:Hh; [|discriminate Hrun].
    destruct (harvest_returns json_loads container_repr writable h
                MAX_RETRIES _ _ _ _ _ Hh) as (Hon & Hou & Hpn & Hpu).
    injection Hrun as <- <- <-.
    cbn [steps self_tab self_browser].
    split; [|repeat split; assumption].
    change (StStartBrowser :: ?l) with ([StStartBrowser] ++ l).
    rewrite !written_agencies_app, !written_agencies_portal.
    destruct (tab_close_ok h), (browser_close_ok h); reflexivity.
Qed.

(** A run for the letters G and D, in this order, on a portal whose
    feeds give nothing. *)
Lemma run_returns_one_entry_per_agency_witness :
  let visit := Hosts.visit (Hosts.healthy Sample.three_orgs) ["G"; "D"] 1 5 in
  let open_opps :=
    [ {| open_url := "https://gamma.example/portal/?tab=openOpportunities";
         open_agency_name := JStr "Gamma LLC"; open_opportunities := [] |};
      {| open_url := "https://delta.example/portal/?tab=openOpportunities";
         open_agency_name := JStr "Delta Corp"; open_opportunities := [] |} ] in
  let past_opps :=
    [ {| past_url := "https://gamma.example/portal/?tab=pastOpportunities";
         past_agency_name := JStr "Gamma LLC"; past_opportunities := [] |};
      {| past_url := "https://delta.example/portal/?tab=pastOpportunities";
         past_agency_name := JStr "Delta Corp"; past_opportunities := [] |} ] in
  fst visit = Ret (Finished (open_opps, past_opps)) /\
  exists s1 s2 selected,
    login Sample.three_orgs settings.LOGIN_URL "me@example.org" "secret"
      initial_state = (Ret true, s1) /\
    Sample.discover Sample.three_orgs ["G"; "D"] 1 5 (resume s1)
      = (Ret (Finished selected), s2) /\
    written_agencies (steps (snd visit)) = [selected] /\
    map open_agency_name open_opps = map agency_name selected /\
    map open_url open_opps
      = map (fun a => agency_url a +:+ "/portal/?tab=openOpportunities")
            selected /\
    map past_agency_name past_opps = map agency_name selected /\
    map past_url past_opps
      = map (fun a => agency_url a +:+ "/portal/?tab=pastOpportunities")
            selected.
Proof.
  intros visit open_opps past_opps.
  split; [vm_compute; reflexivity|].
  apply (run_returns_one_entry_per_agency Sample.json_loads
           Sample.ascii_upper Sample.no_repr Sample.writable
           (Hosts.healthy Sample.three_orgs)
           ["G"; "D"] 1 settings.MAX_RETRIES settings.PAGE_LIMIT
           settings.ORGANIZATIONS_API settings.LOGIN_URL "me@example.org"
           "secret" 5 open_opps past_opps (snd visit)).
  vm_compute. reflexivity.
Defined.

(** X7.  [run_scraper] of [main.py] never raises.  It reports success
    exactly when the browser started, [login] returned [True], discovery
    selected at least one agency, the agencies file could be written
    and no checkpoint of the harvest raised.  What the feeds answer
    matters only through the values to write. *)
Theorem run_scraper_reports_success_iff
    (json_loads : string -> loads_result) (str_upper : string -> string)
    (container_repr : json -> string) (writable : json -> bool) (h : host)
    (TARGET_LETTERS : list string)
    (AGENCIES_PER_LETTER MAX_RETRIES PAGE_LIMIT : nat)
    (ORGANIZATIONS_API LOGIN_URL email password : string) (fuel : nat) :
  let outcome :=
    fst (run_scraper json_loads str_upper container_repr writable h
           TARGET_LETTERS AGENCIES_PER_LETTER MAX_RETRIES PAGE_LIMIT
           ORGANIZATIONS_API LOGIN_URL email password fuel) in
  outcome <> Raise /\
  (outcome = Ret (Finished true) <->
   start_answer h = StartOk /\
   exists s1 s2 selected,
     login (portal h) LOGIN_URL email password initial_state = (Ret true, s1) /\
     fetch_agencies json_loads str_upper container_repr (portal h)
       TARGET_LETTERS AGENCIES_PER_LETTER MAX_RETRIES PAGE_LIMIT
       ORGANIZATIONS_API fuel (resume s1) = (Ret (Finished selected), s2) /\
     selected <> [] /\
     forallb (agency_writable writable) selected = true /\
     fst (scrape_all_opportunities json_loads container_repr writable
            (portal h) MAX_RETRIES selected (resume s2)) <> Raise).
Proof.
  cbv zeta. unfold run_scraper, rtry_catch, rbind.
  rewrite run_eq, run_body_eq.
  destruct (start_answer h) eqn:Hstart.
  - pose proof (login_effects (portal h) LOGIN_URL email password initial_state)
      as Hlogin.
    destruct (login (portal h) LOGIN_URL email password initial_state)
      as [[[|]|] s1]; [| |contradiction].
    + cbv zeta.
      destruct (discovery_total json_loads str_upper container_repr h
                  TARGET_LETTERS AGENCIES_PER_LETTER MAX_RETRIES PAGE_LIMIT
                  ORGANIZATIONS_API fuel (resume s1)) as (rd & s2 & Hd).
      rewrite Hd.
      destruct rd as [selected|selected].
      * destruct (forallb (agency_writable writable) selected) eqn:Hwrite.
        -- destruct selected as [|a rest]; cbn [fst rret nonempty orb negb].
           ++ split; [discriminate|]. split; [discriminate|].
              intros (_ & s1' & s2' & selected & [= <-] & H2 & Hne & _).
              rewrite Hd in H2. injection H2 as <- _. now destruct Hne.
           ++ destruct (scrape_all_opportunities json_loads container_repr
                          writable (portal h) MAX_RETRIES (a :: rest)
                          (resume s2)) as [[[oo po]|] s3] eqn:Hh.
              ** destruct (harvest_returns json_loads container_repr writable
                             h MAX_RETRIES _ _ _ _ _ Hh) as (Hon & _).
                 cbn [fst rret].
                 destruct oo as [|o oo]; [discriminate Hon|].
                 cbn [nonempty orb].
                 split; [discriminate|]. split; [|reflexivity].
                 intros _. split; [reflexivity|].
                 exists s1, s2, (a :: rest).
                 split; [reflexivity|]. split; [exact Hd|].
                 split; [discriminate|]. split; [exact Hwrite|].
                 rewrite Hh. discriminate.
              ** cbn [fst rret]. split; [discriminate|].
                 split; [discriminate|].
                 intros (_ & s1' & s2' & sel & [= <-] & H2 & _ & _ & Hnr).
                 rewrite Hd in H2. injection H2 as <- <-.
                 rewrite Hh in Hnr. now destruct Hnr.
        -- cbn [fst rret]. split; [discriminate|]. split; [discriminate|].
           intros (_ & s1' & s2' & sel & [= <-] & H2 & _ & Hw & _).
           rewrite Hd in H2. injection H2 as <- _.
           rewrite Hwrite in Hw. discriminate Hw.
      * cbn [fst rret]. split; [discriminate|]. split; [discriminate|].
        intros (_ & s1' & s2' & sel & [= <-] & H2 & _).
        rewrite Hd in H2. discriminate H2.
    + cbn [fst rret]. split; [discriminate|]. split; [discriminate|].
      intros (_ & s1' & s2' & sel & [=] & _).
  - cbn [fst rret]. split; [discriminate|]. split; [discriminate|].
    intros ([=] & _).
  - cbn [fst rret]. split; [discriminate|]. split; [discriminate|].
    intros ([=] & _).
Qed.

(** A run in which the name of the selected agency cannot be written is
    reported as a failure, although an agency was selected. *)
Example run_scraper_on_lone_surrogate :
  fst (run_scraper Sample.json_loads Sample.ascii_upper Sample.no_repr
         Sample.writable (Hosts.healthy Sample.surrogate_listing) ["D"] 1
         settings.MAX_RETRIES settings.PAGE_LIMIT settings.ORGANIZATIONS_API
         settings.LOGIN_URL "me@example.org" "secret" 5)
  = Ret (Finished false).
Proof. vm_compute. reflexivity. Qed.

(** ** [remove_duplicates] *)

Section Deduplication.

(** One pass of the loop body. *)
Lemma remove_duplicates_loop_cons opp rest seen acc :
  remove_duplicates_loop (opp :: rest) seen acc =
    if breaks_deduplication opp then None
    else match document_key opp with
         | Some k =>
             if bool_decide (k ∈ seen) then remove_duplicates_loop rest seen acc
             else remove_duplicates_loop rest ({[k]} ∪ seen) (acc ++ [opp])
         | None => remove_duplicates_loop rest seen acc
         end.
Proof.
  cbn [remove_duplicates_loop]. unfold breaks_deduplication, document_key.
  destruct (py_get opp "_document_id" (JStr "")) as [doc_id|]; [|reflexivity].
  destruct (truthy doc_id); [|reflexivity].
  destruct (set_key doc_id); reflexivity.
Qed.

(** What the loop adds to [unique]: a sublist of the entries still to
    come, made of the first entry for each key that is not yet in
    [seen_ids]. *)
Lemma remove_duplicates_loop_spec opps :
  forall seen acc res,
    remove_duplicates_loop opps seen acc = Some res ->
    exists new,
      res = acc ++ new /\
      sublist new opps /\
      NoDup (omap document_key new) /\
      Forall (fun d => exists k, document_key d = Some k /\ k ∉ seen) new /\
      (forall d k, d ∈ opps -> document_key d = Some k ->
                   k ∈ seen \/ k ∈ omap document_key new) /\
      (forall d, d ∈ new ->
         exists i k, opps !! i = Some d /\ document_key d = Some k /\
           forall j d', j < i -> opps !! j = Some d' ->
                        document_key d' <> Some k).
Proof.
  induction opps as [|opp rest IH]; intros seen acc res Hres.
  - injection Hres as <-. exists []. rewrite app_nil_r.
    split; [reflexivity|]. split; [constructor|]. split; [constructor|].
    split; [constructor|]. split.
    + intros d k Hd. inversion Hd.
    + intros d Hd. inversion Hd.
  - rewrite remove_duplicates_loop_cons in Hres.
    destruct (breaks_deduplication opp); [discriminate Hres|].
    assert (Hskip : forall new : list json,
              (forall d, d ∈ new ->
                 exists i k, rest !! i = Some d /\ document_key d = Some k /\
                   forall j d', j < i -> rest !! j = Some d' ->
                                document_key d' <> Some k) ->
              (forall d k, d ∈ new -> document_key d = Some k ->
                           document_key opp <> Some k) ->
              forall d, d ∈ new ->
                 exists i k, (opp :: rest) !! i = Some d /\
                   document_key d = Some k /\
                   forall j d', j < i -> (opp :: rest) !! j = Some d' ->
                                document_key d' <> Some k).
    { intros new Hfirst Hopp d Hd.
      destruct (Hfirst d Hd) as (i & k & Hi & Hk & Hbefore).
      exists (S i), k. split; [exact Hi|]. split; [exact Hk|].
      intros [|j] d' Hj Hd'.
      - injection Hd' as <-. exact (Hopp d k Hd Hk).
      - apply (Hbefore j d'); [lia | exact Hd']. }
    assert (Hcons : forall new : list json,
              omap document_key (opp :: new)
              = match document_key opp with
                | Some y => y :: omap document_key new
                | None => omap document_key new
                end) by reflexivity.
    destruct (document_key opp) as [k|] eqn:Hkey.
    + destruct (bool_decide (k ∈ seen)) eqn:Hin.
      * apply bool_decide_eq_true in Hin.
        destruct (IH _ _ _ Hres) as (new & -> & Hsub & Hnd & Hall & Hcov & Hfirst).
        exists new. split; [reflexivity|].
        split; [now apply sublist_cons|]. split; [exact Hnd|].
        split; [exact Hall|]. split.
        -- intros d k' Hd Hk'. apply elem_of_cons in Hd as [->|Hd].
           ++ left. congruence.
           ++ exact (Hcov d k' Hd Hk').
        -- apply (Hskip new Hfirst).
           intros d k' Hd Hdk [= ->].
           rewrite Forall_forall in Hall.
           destruct (Hall d Hd) as (k'' & Hk'' & Hnot). congruence.
      * apply bool_decide_eq_false in Hin.
        destruct (IH _ _ _ Hres) as (new & -> & Hsub & Hnd & Hall & Hcov & Hfirst).
        assert (Hfresh : forall d, d ∈ new -> document_key d <> Some k).
        { intros d Hd Hdk. rewrite Forall_forall in Hall.
          destruct (Hall d Hd) as (k' & Hk' & Hnot).
          apply Hnot. assert (k' = k) as -> by congruence. set_solver. }
        exists (opp :: new). split; [now rewrite <- app_assoc|].
        split; [now apply sublist_skip|]. split.
        { rewrite Hcons. constructor; [|exact Hnd].
          intros Hk. apply list_elem_of_omap in Hk as (d & Hd & Hdk).
          exact (Hfresh d Hd Hdk). }
        split.
        { constructor.
          - exists k. split; [exact Hkey | exact Hin].
          - eapply Forall_impl; [exact Hall|]. cbn.
            intros d (k' & Hk' & Hnot). exists k'. split; [exact Hk'|].
            set_solver. }
        split.
        { intros d k' Hd Hk'. rewrite Hcons.
          apply elem_of_cons in Hd as [->|Hd].
          - right. assert (k' = k) as -> by congruence. apply elem_of_cons. now left.
          - destruct (Hcov d k' Hd Hk') as [Hs|Hn].
            + apply elem_of_union in Hs as [Hs|Hs].
              * apply elem_of_singleton in Hs as ->. right. apply elem_of_cons. now left.
              * now left.
            + right. apply elem_of_cons. now right. }
        intros d Hd. apply elem_of_cons in Hd as [->|Hd].
        -- exists 0, k. split; [reflexivity|]. split; [exact Hkey|].
           intros j d' Hj. lia.
        -- apply (Hskip new Hfirst); [|exact Hd].
           intros d0 k' Hd0 Hdk [= ->]. exact (Hfresh d0 Hd0 Hdk).
    + destruct (IH _ _ _ Hres) as (new & -> & Hsub & Hnd & Hall & Hcov & Hfirst).
      exists new. split; [reflexivity|].
      split; [now apply sublist_cons|]. split; [exact Hnd|].
      split; [exact Hall|]. split.
      * intros d k' Hd Hk'. apply elem_of_cons in Hd as [->|Hd].
        -- congruence.
        -- exact (Hcov d k' Hd Hk').
      * apply (Hskip new Hfirst). intros d k' _ _. discriminate.
Qed.


(** The loop raises exactly when it meets an entry on which its body
    raises. *)
Lemma remove_duplicates_loop_None opps :
  forall seen acc,
    remove_duplicates_loop opps seen acc = None <->
    existsb breaks_deduplication opps = true.
Proof.
  induction opps as [|opp rest IH]; intros seen acc.
  - cbn. split; discriminate.
  - rewrite remove_duplicates_loop_cons. cbn [existsb].
    destruct (breaks_deduplication opp); cbn [orb]; [tauto|].
    destruct (document_key opp) as [k|]; [|apply IH].
    destruct (bool_decide (k ∈ seen)); apply IH.
Qed.

(** A list whose entries all have a key, the keys being distinct and not
    yet seen, is added as it is. *)
Lemma remove_duplicates_loop_fixed opps :
  forall seen acc,
    Forall (fun d => exists k, document_key d = Some k /\ k ∉ seen) opps ->
    NoDup (omap document_key opps) ->
    existsb breaks_deduplication opps = false ->
    remove_duplicates_loop opps seen acc = Some (acc ++ opps).
Proof.
  induction opps as [|opp rest IH]; intros seen acc Hall Hnd Hok.
  - cbn. now rewrite app_nil_r.
  - rewrite remove_duplicates_loop_cons.
    cbn [existsb] in Hok. apply orb_false_iff in Hok as [-> Hok].
    apply Forall_cons in Hall as [(k & Hk & Hnew) Hall].
    change (omap document_key (opp :: rest))
      with (match document_key opp with
            | Some y => y :: omap document_key rest
            | None => omap document_key rest
            end) in Hnd.
    rewrite Hk in Hnd |- *. apply NoDup_cons in Hnd as [Hfresh Hnd].
    rewrite bool_decide_eq_false_2 by exact Hnew.
    rewrite IH; [now rewrite <- app_assoc| |exact Hnd|exact Hok].
    rewrite Forall_forall in Hall |- *. intros d Hd.
    destruct (Hall d Hd) as (k' & Hk' & Hnot). exists k'. split; [exact Hk'|].
    intros Hin. apply elem_of_union in Hin as [Hin|Hin]; [|exact (Hnot Hin)].
    apply elem_of_singleton in Hin as ->.
    apply Hfresh, list_elem_of_omap. now exists d.
Qed.

Lemma document_key_not_breaking d k :
  document_key d = Some k -> breaks_deduplication d = false.
Proof.
  unfold document_key, breaks_deduplication.
  destruct (py_get d "_document_id" (JStr "")) as [doc_id|]; [|discriminate].
  destruct (truthy doc_id); [|discriminate].
  destruct (set_key doc_id); [reflexivity | discriminate].
Qed.

End Deduplication.

(** X8.  What [remove_duplicates] returns is a sublist of its argument
    (entries are dropped, never changed or reordered) in which every
    document has a non-empty identifier and no two documents have the same
    identifier. *)
Theorem remove_duplicates_unique (opportunities unique : list json) :
  remove_duplicates opportunities = Some unique ->
  sublist unique opportunities /\
  Forall (fun d => is_Some (document_key d)) unique /\
  NoDup (omap document_key unique).
Proof.
  intros Hres.
  destruct (remove_duplicates_loop_spec _ _ _ _ Hres)
    as (new & -> & Hsub & Hnd & Hall & _).
  cbn [app]. split; [exact Hsub|]. split; [|exact Hnd].
  eapply Forall_impl; [exact Hall|]. cbn. intros d (k & Hk & _). now exists k.
Qed.

(** X9.  [remove_duplicates] keeps, for every identifier that occurs in
    its argument, the first document that carries it: each identifier of
    the argument is the identifier of a document of the result, and no
    document that precedes a kept document in the argument has the same
    identifier. *)
Theorem remove_duplicates_keeps_first (opportunities unique : list json) :
  remove_duplicates opportunities = Some unique ->
  (forall d k, d ∈ opportunities -> document_key d = Some k ->
     exists d', d' ∈ unique /\ document_key d' = Some k) /\
  (forall d, d ∈ unique ->
     exists i k, opportunities !! i = Some d /\ document_key d = Some k /\
       forall j d', j < i -> opportunities !! j = Some d' ->
                    document_key d' <> Some k).
Proof.
  intros Hres.
  destruct (remove_duplicates_loop_spec _ _ _ _ Hres)
    as (new & -> & _ & _ & _ & Hcov & Hfirst).
  cbn [app]. split; [|exact Hfirst].
  intros d k Hd Hk. destruct (Hcov d k Hd Hk) as [Hin|Hin]; [set_solver|].
  apply list_elem_of_omap in Hin as (d' & Hd' & Hk'). now exists d'.
Qed.

(** X10.  [remove_duplicates] raises exactly when some entry is not a
    dictionary or has a non-empty list or dictionary as its identifier.
    Entries without an identifier, or with an empty one, are dropped
    without an error. *)
Theorem remove_duplicates_raises_iff (opportunities : list json) :
  remove_duplicates opportunities = None <->
  exists d, d ∈ opportunities /\ breaks_deduplication d = true.
Proof.
  unfold remove_duplicates. rewrite remove_duplicates_loop_None.
  rewrite existsb_exists. split.
  - intros (d & Hd & Hb). exists d. split; [now apply list_elem_of_In | exact Hb].
  - intros (d & Hd & Hb). exists d. split; [now apply list_elem_of_In | exact Hb].
Qed.

(** X11.  [remove_duplicates] returns its argument unchanged exactly when
    every document of it has a non-empty identifier and the identifiers
    are distinct; in particular what it returns is left unchanged when it
    is applied again. *)
Theorem remove_duplicates_fixed_iff (opportunities : list json) :
  (remove_duplicates opportunities = Some opportunities <->
   Forall (fun d => is_Some (document_key d)) opportunities /\
   NoDup (omap document_key opportunities)) /\
  (forall unique, remove_duplicates opportunities = Some unique ->
                  remove_duplicates unique = Some unique).
Proof.
  assert (Hfix : forall l,
             Forall (fun d => is_Some (document_key d)) l ->
             NoDup (omap document_key l) ->
             remove_duplicates l = Some l).
  { intros l Hall Hnd. unfold remove_duplicates.
    rewrite remove_duplicates_loop_fixed; [reflexivity| |exact Hnd|].
    - eapply Forall_impl; [exact Hall|]. cbn. intros d (k & Hk).
      exists k. split; [exact Hk | set_solver].
    - apply not_true_is_false. intros Hex.
      apply existsb_exists in Hex as (d & Hd & Hb).
      rewrite Forall_forall in Hall.
      destruct (Hall d (proj2 (list_elem_of_In _ _) Hd)) as (k & Hk).
      rewrite (document_key_not_breaking d k Hk) in Hb. discriminate Hb. }
  assert (Hspec : forall l u,
             remove_duplicates l = Some u ->
             Forall (fun d => is_Some (document_key d)) u /\
             NoDup (omap document_key u)).
  { intros l u Hres.
    destruct (remove_duplicates_loop_spec _ _ _ _ Hres)
      as (new & -> & _ & Hnd & Hall & _).
    cbn [app]. split; [|exact Hnd].
    eapply Forall_impl; [exact Hall|]. cbn. intros d (k & Hk & _). now exists k. }
  split; [split|].
  - apply Hspec.
  - intros [Hall Hnd]. now apply Hfix.
  - intros unique Hres. destruct (Hspec _ _ Hres). now apply Hfix.
Qed.

Lemma remove_duplicates_unique_witness :
  sublist Docs.mixed_unique Docs.mixed /\
  Forall (fun d => is_Some (document_key d)) Docs.mixed_unique /\
  NoDup (omap document_key Docs.mixed_unique).
Proof.
  apply (remove_duplicates_unique Docs.mixed Docs.mixed_unique).
  vm_compute. reflexivity.
Defined.

Lemma remove_duplicates_keeps_first_witness :
  (forall d k, d ∈ Docs.mixed -> document_key d = Some k ->
     exists d', d' ∈ Docs.mixed_unique /\ document_key d' = Some k) /\
  (forall d, d ∈ Docs.mixed_unique ->
     exists i k, Docs.mixed !! i = Some d /\ document_key d = Some k /\
       forall j d', j < i -> Docs.mixed !! j = Some d' ->
                    document_key d' <> Some k).
Proof.
  apply (remove_duplicates_keeps_first Docs.mixed Docs.mixed_unique).
  vm_compute. reflexivity.
Defined.

(** ** The parser: texts *)

Section Texts.

Lemma starts_with_head_differs a p c rest :
  a <> c -> starts_with (String a p) (String c rest) = false.
Proof.
  intros Hne. cbn [starts_with].
  destruct (Ascii.eqb a c) eqn:Heq; [|reflexivity].
  apply Ascii.eqb_eq in Heq. contradiction.
Qed.

(** A text in which the first character of [old] does not occur is left
    as it is. *)
Lemma str_replace_absent (a : ascii) (p new s : string) :
  has_char a s = false -> str_replace s (String a p) new = s.
Proof.
  unfold str_replace, has_char.
  induction s as [|c rest IH]; intros Hno; [reflexivity|].
  cbn [list_ascii_of_string existsb] in Hno.
  apply orb_false_iff in Hno as [Hc Hrest].
  cbn [replace_from].
  rewrite starts_with_head_differs
    by (intros ->; now rewrite Ascii.eqb_refl in Hc).
  now rewrite IH.
Qed.

Lemma append_nil_l (b : string) : "" +:+ b = b.
Proof. reflexivity. Qed.

Lemma append_cons_l (c : ascii) (a b : string) :
  String c a +:+ b = String c (a +:+ b).
Proof. reflexivity. Qed.

Lemma replace_from_skip_all old new s :
  forall skip, String.length s <= skip -> replace_from old new skip s = "".
Proof.
  induction s as [|c rest IH]; intros skip Hlen; [reflexivity|].
  cbn [String.length] in Hlen. destruct skip as [|skip]; [lia|].
  cbn [replace_from]. apply IH. lia.
Qed.

Lemma starts_with_refl p : starts_with p p = true.
Proof.
  induction p as [|a p IH]; [reflexivity|].
  cbn [starts_with]. now rewrite Ascii.eqb_refl.
Qed.

(** Removing [old] from [base ++ old] gives [base] back when no occurrence
    of [old] begins inside [base]. *)
Lemma str_replace_suffix (old base : string) :
  old <> "" ->
  (forall before t, base = before +:+ t -> t <> "" ->
                    starts_with old (t +:+ old) = false) ->
  str_replace (base +:+ old) old "" = base.
Proof.
  intros Hold. unfold str_replace.
  induction base as [|c base IH]; intros Hfree.
  - rewrite append_nil_l. destruct old as [|a p]; [contradiction|].
    cbn [replace_from]. rewrite starts_with_refl, append_nil_l.
    apply replace_from_skip_all. cbn [String.length]. lia.
  - rewrite append_cons_l. cbn [replace_from]. rewrite <- append_cons_l.
    rewrite (Hfree "" (String c base) eq_refl) by discriminate.
    f_equal. apply IH. intros before t -> Ht.
    apply (Hfree (String c before) t); [reflexivity | exact Ht].
Qed.

Lemma has_char_get (c : ascii) (s : string) (n : nat) :
  has_char c s = false -> String.get n s <> Some c.
Proof.
  unfold has_char. revert n.
  induction s as [|a s IH]; intros n Hno; [destruct n; discriminate|].
  cbn [list_ascii_of_string existsb] in Hno.
  apply orb_false_iff in Hno as [Ha Hs].
  destruct n as [|n]; cbn [String.get].
  - intros [= ->]. now rewrite Ascii.eqb_refl in Ha.
  - now apply IH.
Qed.

Lemma has_char_app (c : ascii) (a b : string) :
  has_char c (a +:+ b) = has_char c a || has_char c b.
Proof.
  unfold has_char. induction a as [|x a IH]; [reflexivity|].
  rewrite append_cons_l. cbn [list_ascii_of_string existsb].
  now rewrite IH, orb_assoc.
Qed.

(** No occurrence of the path of a tab begins inside a text without a
    question mark: the path has its only question mark at offset 8. *)
Lemma tab_path_not_inside (tab_name t : string) :
  has_char "?" t = false -> t <> "" ->
  starts_with ("/portal/?tab=" +:+ tab_name)
              (t +:+ ("/portal/?tab=" +:+ tab_name)) = false.
Proof.
  intros Hno Ht.
  destruct (starts_with ("/portal/?tab=" +:+ tab_name)
              (t +:+ ("/portal/?tab=" +:+ tab_name))) eqn:Hs; [|reflexivity].
  exfalso. apply starts_with_true in Hs as (r & Hr).
  assert (Hget : String.get 8 (t +:+ ("/portal/?tab=" +:+ tab_name)) = Some "?"%char)
    by (rewrite Hr; reflexivity).
  pose proof (has_char_get "?" t 8 Hno) as H8.
  destruct t as [|c0 [|c1 [|c2 [|c3 [|c4 [|c5 [|c6 [|c7 [|c8 t]]]]]]]]];
    try (cbv in Hget; discriminate Hget).
  - now apply Ht.
  - cbv in Hget, H8. contradiction.
Qed.

Lemma str_replace_tab (tab_name base : string) :
  has_char "?" base = false ->
  str_replace (base +:+ ("/portal/?tab=" +:+ tab_name))
              ("/portal/?tab=" +:+ tab_name) "" = base.
Proof.
  intros Hno. apply str_replace_suffix; [discriminate|].
  intros before t -> Ht. apply tab_path_not_inside; [|exact Ht].
  rewrite has_char_app in Hno. now apply orb_false_iff in Hno as [_ ?].
Qed.

Lemma lstrip_rstrip_head s :
  lstrip s = s -> lstrip (rstrip s) = rstrip s.
Proof.
  destruct s as [|c rest]; [reflexivity|].
  cbn [lstrip rstrip].
  destruct (is_space c) eqn:Hc.
  - intros Heq. exfalso.
    assert (Hlen : String.length (lstrip rest) <= String.length rest).
    { clear. induction rest as [|a r IH]; [reflexivity|].
      cbn [lstrip]. destruct (is_space a); cbn [String.length]; lia. }
    rewrite Heq in Hlen. cbn [String.length] in Hlen. lia.
  - intros _. destruct (rstrip rest); cbn [lstrip]; now rewrite Hc.
Qed.

Lemma lstrip_idem s : lstrip (lstrip s) = lstrip s.
Proof.
  induction s as [|c rest IH]; [reflexivity|].
  cbn [lstrip]. destruct (is_space c) eqn:Hc; [exact IH|].
  cbn [lstrip]. now rewrite Hc.
Qed.

Lemma rstrip_idem s : rstrip (rstrip s) = rstrip s.
Proof.
  induction s as [|c rest IH]; [reflexivity|].
  cbn [rstrip]. destruct (rstrip rest) as [|c' rest'] eqn:Hr.
  - destruct (is_space c) eqn:Hc; [reflexivity|]. cbn [rstrip]. now rewrite Hc.
  - cbn [rstrip] in IH |- *. 
    change (rstrip (String c (String c' rest')))
      with (match rstrip (String c' rest') with
            | EmptyString => if is_space c then EmptyString else String c EmptyString
            | String c'' rest'' => String c (String c'' rest'')
            end).
    rewrite IH. reflexivity.
Qed.

(** A stripped text is not changed by stripping it again. *)
Lemma str_strip_idem s : str_strip (str_strip s) = str_strip s.
Proof.
  unfold str_strip.
  rewrite (lstrip_rstrip_head (lstrip s)) by apply lstrip_idem.
  apply rstrip_idem.
Qed.

End Texts.

(** X12.  [clean_html_entities] returns a falsy value ([None], the empty
    text, 0, an empty list) as it is; for a text that is not empty it
    returns a text without white space at either end; for any other value
    it raises. *)
Theorem clean_html_entities_outcome (text : json) :
  match clean_html_entities text with
  | Some r =>
      (truthy text = false /\ r = text) \/
      (exists s t, text = JStr s /\ s <> "" /\ r = JStr t /\ str_strip t = t)
  | None => truthy text = true /\ forall s, text <> JStr s
  end.
Proof.
  unfold clean_html_entities.
  destruct (truthy text) eqn:Htruthy; cbn [negb]; [|left; split; reflexivity].
  destruct text as [| | |s| |]; try (split; [reflexivity | discriminate]).
  right. eexists s, _. split; [reflexivity|]. split.
  - intros ->. discriminate Htruthy.
  - split; [reflexivity | apply str_strip_idem].
Qed.

(** X13.  A text in which neither [&] nor a backslash occurs holds none of
    the seven entities: [clean_html_entities] only strips it. *)
Theorem clean_html_entities_plain (s : string) :
  has_char "&" s = false -> has_char "\" s = false ->
  clean_html_entities (JStr s) = Some (JStr (str_strip s)).
Proof.
  intros Hamp Hback. unfold clean_html_entities.
  destruct (truthy (JStr s)) eqn:Htruthy; cbn [negb].
  - cbn [foldl replacements fst snd].
    rewrite !(str_replace_absent "&" _ _ s) by exact Hamp.
    rewrite (str_replace_absent "\" _ _ s) by exact Hback. reflexivity.
  - cbn [truthy] in Htruthy. apply negb_false_iff, String.eqb_eq in Htruthy.
    subst s. reflexivity.
Qed.

Lemma clean_html_entities_plain_witness :
  clean_html_entities (JStr "  Bridge repair <phase 2>  ")
    = Some (JStr "Bridge repair <phase 2>").
Proof.
  apply (clean_html_entities_plain "  Bridge repair <phase 2>  "); reflexivity.
Defined.

(** ** The parser on the files of the scraper *)

Section ParserFacts.

Variable container_repr : json -> string.
Variable str_lower : string -> string.
Variable md5_hexdigest : string -> string.
Variable isoformat : Z -> string.
Variable strftime_readable : Z -> string.
Variable w : world.

Local Abbreviation parse_open :=
  (parse_open_opportunity container_repr str_lower md5_hexdigest isoformat
     strftime_readable w).
Local Abbreviation parse_past :=
  (parse_past_opportunity container_repr str_lower md5_hexdigest isoformat
     strftime_readable w).
Local Abbreviation deadline_of := (parse_deadline isoformat strftime_readable w).
Local Abbreviation id_of :=
  (generate_document_id container_repr str_lower md5_hexdigest).

Lemma clean_html_entities_Some (v : json) :
  falsy_or_text v = true -> exists r, clean_html_entities v = Some r.
Proof.
  unfold falsy_or_text, clean_html_entities.
  destruct (truthy v); cbn [negb orb]; [|eauto].
  destruct v; try discriminate. eauto.
Qed.

Lemma clean_html_entities_None (v : json) :
  falsy_or_text v = false -> clean_html_entities v = None.
Proof.
  unfold falsy_or_text, clean_html_entities.
  destruct (truthy v); cbn [negb orb]; [|discriminate].
  destruct v; try discriminate; reflexivity.
Qed.

(** [parse_deadline] makes no browser call and leaves the log alone; it
    raises exactly on a truthy value that is not a text, before it reads
    the clock. *)
Lemma parse_deadline_run (v : json) (s : state) :
  if falsy_or_text v then
    exists d s', deadline_of v s = (Ret d, s') /\
                 calls s' = calls s /\ log s' = log s
  else deadline_of v s = (Raise, s).
Proof.
  unfold falsy_or_text, parse_deadline.
  destruct (truthy v); cbn [negb orb].
  - destruct v as [| | |t| |]; try reflexivity.
    destruct (strptime t); unfold bind, now, ret; eauto.
  - unfold ret. eauto.
Qed.


(** One opportunity of the scraper: it is dropped, with the state left as
    it was, unless its project name and its closing date are falsy or
    texts; otherwise its document carries the values of the scraper. *)
Lemma parse_open_on_opp (o : open_opp) (agency_name : json)
    (agency_url : string) (s : state) :
  if open_cleanable o then
    exists d s',
      parse_open (open_opp_json o) agency_name agency_url s = (Ret d, s') /\
      calls s' = calls s /\ log s' = log s /\
      doc_field d "organization_name" = agency_name /\
      doc_field d "bidding_id"
        = (if truthy (open_reference o) then open_reference o else JStr "") /\
      Some (doc_field d "opportunity_name")
        = clean_html_entities (open_project_name o) /\
      doc_field d "application_instructions"
        = JObj [ ("url", JStr (agency_url +:+ "/portal/?tab=openOpportunities"));
                 ("method", JStr "Submit proposal through Bonfire Hub portal") ] /\
      doc_field d "status" = JStr (open_status o) /\
      doc_field d "days_remaining" = JNum (open_days_left o) /\
      doc_field d "_document_id"
        = JStr (id_of agency_name
                  (if truthy (open_reference o) then open_reference o
                   else JStr "")) /\
      doc_field d "_source_url" = JStr agency_url
  else
    parse_open (open_opp_json o) agency_name agency_url s = (Raise, s).
Proof.
  unfold open_cleanable, parse_open_opportunity, open_opp_json.
  change (dict_get _ "Project Name" (JStr "")) with (open_project_name o).
  change (dict_get _ "Closed Date" (JStr "")) with (open_closed_date o).
  change (dict_get _ "Status" (JStr "Open")) with (JStr (open_status o)).
  change (dict_get _ "Number of days Left" (JNum 0)) with (JNum (open_days_left o)).
  change (bidding_id_of _)
    with (if truthy (open_reference o) then open_reference o else JStr "").
  destruct (falsy_or_text (open_project_name o)) eqn:Hname; cbn [andb].
  - destruct (clean_html_entities_Some _ Hname) as (name & Hclean).
    rewrite Hclean. unfold bind at 1, of_option, ret at 1.
    pose proof (parse_deadline_run (open_closed_date o) s) as Hdl.
    destruct (falsy_or_text (open_closed_date o)).
    + destruct Hdl as (dl & s1 & Hdl & Hc & Hl).
      eexists _, _.
      split; [unfold bind at 1; rewrite Hdl; unfold bind, now, ret; reflexivity|].
      cbn [calls log].
      repeat split; try assumption; reflexivity.
    + unfold bind at 1, of_option, ret at 1. unfold bind at 1.
      rewrite Hdl. reflexivity.
  - rewrite (clean_html_entities_None _ Hname). reflexivity.
Qed.


Lemma process_opps_open (a : agency) (opps : list open_opp) :
  forall cleaned s,
    exists docs s',
      process_opps parse_open (map open_opp_json opps) (agency_name a)
        (agency_url a) cleaned s = (Ret (cleaned ++ docs), s') /\
      calls s' = calls s /\ log s' = log s /\
      Forall2 (fun d o => open_document_of id_of a o d) docs
              (List.filter open_cleanable opps).
Proof.
  induction opps as [|o opps IH]; intros cleaned s.
  - exists [], s. cbn. rewrite app_nil_r. repeat split. constructor.
  - cbn [map process_opps List.filter]. unfold bind at 1, try_catch, bind at 1.
    pose proof (parse_open_on_opp o (agency_name a) (agency_url a) s) as Hone.
    destruct (open_cleanable o).
    + destruct Hone as (d & s1 & Hrun & Hc & Hl & Hfields).
      rewrite Hrun. unfold ret at 1.
      destruct (IH (cleaned ++ [d]) s1) as (docs & s' & Hrest & Hc' & Hl' & Hall).
      exists (d :: docs), s'. rewrite Hrest, <- app_assoc.
      split; [reflexivity|]. split; [congruence|]. split; [congruence|].
      constructor; [exact Hfields | exact Hall].
    + rewrite Hone. unfold ret at 1.
      destruct (IH cleaned s) as (docs & s' & Hrest & Hc' & Hl' & Hall).
      exists docs, s'. rewrite Hrest. repeat split; assumption.
Qed.

Lemma process_agencies_open (harvest : list (agency * list open_opp)) :
  Forall (fun ao => has_char "?" (agency_url (fst ao)) = false) harvest ->
  forall cleaned s,
    exists docs s',
      process_agencies parse_open "Agency Open Public Opportunity Url"
        "/portal/?tab=openOpportunities" "Agency Open Public Opportunities"
        (map (fun ao => open_result_json (open_result_of (fst ao) (snd ao)))
             harvest)
        cleaned s = (Ret (cleaned ++ docs), s') /\
      calls s' = calls s /\ log s' = log s /\
      Forall2 (fun d ao => open_document_of id_of (fst ao) (snd ao) d) docs
              (flat_map (fun ao => map (pair (fst ao))
                                       (List.filter open_cleanable (snd ao)))
                        harvest).
Proof.
  induction harvest as [|[a opps] harvest IH]; intros Hurl cleaned s.
  - exists [], s. cbn. rewrite app_nil_r. repeat split. constructor.
  - apply Forall_cons in Hurl as [Ha Hurl]. cbn [fst snd] in Ha.
    cbn [map process_agencies flat_map fst snd].
    unfold open_result_json at 1, open_result_of at 1.
    cbn [open_url open_agency_name open_opportunities].
    change (dict_get _ "Agency Name" (JStr "Unknown")) with (agency_name a).
    change (dict_get _ "Agency Open Public Opportunity Url" (JStr ""))
      with (JStr (agency_url a +:+ "/portal/?tab=openOpportunities")).
    change (dict_get _ "Agency Open Public Opportunities" (JArr []))
      with (JArr (map open_opp_json opps)).
    cbv iota.
    change "/portal/?tab=openOpportunities"
      with ("/portal/?tab=" +:+ "openOpportunities").
    rewrite (str_replace_tab "openOpportunities" (agency_url a) Ha).
    cbn [py_iter of_option]. unfold bind at 1, ret at 1, bind at 1.
    destruct (process_opps_open a opps cleaned s)
      as (docs1 & s1 & Hrun1 & Hc1 & Hl1 & Hall1).
    rewrite Hrun1.
    destruct (IH Hurl (cleaned ++ docs1) s1)
      as (docs2 & s' & Hrun2 & Hc2 & Hl2 & Hall2).
    change ("/portal/?tab=" +:+ "openOpportunities")
      with "/portal/?tab=openOpportunities" in Hrun2 |- *.
    exists (docs1 ++ docs2), s'. rewrite Hrun2, <- app_assoc.
    split; [reflexivity|]. split; [congruence|]. split; [congruence|].
    apply Forall2_app; [|exact Hall2].
    clear -Hall1. induction Hall1; constructor; assumption.
Qed.

End ParserFacts.

(** X14.  On the file of open opportunities that the scraper writes, for
    agencies whose address holds no question mark,
    [process_open_opportunities] never raises, makes no browser call and
    returns, in the order of the file, one document for every opportunity
    whose project name and closing date are falsy or texts; the other
    opportunities are dropped.  Each document carries the name of its
    agency, the reference, the status and the days left of the scraper,
    the address of the tab that the scraper recorded, and as source the
    address of the agency: removing the path of the tab undoes what the
    scraper appended. *)
Theorem process_open_opportunities_on_harvest
    (container_repr : json -> string) (str_lower md5_hexdigest : string -> string)
    (isoformat strftime_readable : Z -> string) (w : world)
    (harvest : list (agency * list open_opp)) (s : state) :
  Forall (fun ao => has_char "?" (agency_url (fst ao)) = false) harvest ->
  exists docs s',
    process_open_opportunities container_repr str_lower md5_hexdigest
      isoformat strftime_readable w
      (JArr (map (fun ao => open_result_json (open_result_of (fst ao) (snd ao)))
                 harvest)) s
      = (Ret docs, s') /\
    calls s' = calls s /\ log s' = log s /\
    Forall2 (fun d ao =>
               open_document_of
                 (generate_document_id container_repr str_lower md5_hexdigest)
                 (fst ao) (snd ao) d)
            docs
            (flat_map (fun ao => map (pair (fst ao))
                                     (List.filter open_cleanable (snd ao)))
                      harvest).
Proof.
  intros Hurl. unfold process_open_opportunities.
  cbn [py_iter of_option]. unfold bind, ret at 1.
  destruct (process_agencies_open container_repr str_lower md5_hexdigest
              isoformat strftime_readable w harvest Hurl [] s)
    as (docs & s' & Hrun & Hc & Hl & Hall).
  exists docs, s'. rewrite Hrun. repeat split; assumption.
Qed.

Lemma process_open_opportunities_on_harvest_witness :
  exists docs s',
    process_open_opportunities Sample.no_repr Sample.ascii_upper Docs.digest
      Docs.stamp Docs.stamp Sample.at_morning
      (JArr (map (fun ao => open_result_json (open_result_of (fst ao) (snd ao)))
                 Docs.found)) initial_state
      = (Ret docs, s') /\
    calls s' = 0 /\ log s' = [] /\
    Forall2 (fun d ao =>
               open_document_of
                 (generate_document_id Sample.no_repr Sample.ascii_upper
                    Docs.digest)
                 (fst ao) (snd ao) d)
            docs
            [(Sample.delta, Docs.bridge); (Sample.delta, Docs.tunnel)].
Proof.
  apply (process_open_opportunities_on_harvest Sample.no_repr
           Sample.ascii_upper Docs.digest Docs.stamp Docs.stamp
           Sample.at_morning Docs.found initial_state).
  repeat constructor.
Defined.

Lemma doc_field_document_key (d : json) (x : string) :
  doc_field d "_document_id" = JStr x ->
  breaks_deduplication d = false /\
  (document_key d = None \/ document_key d = Some (HStr x)).
Proof.
  unfold doc_field, breaks_deduplication, document_key, py_get, dict_get.
  destruct d as [| | | | |fields]; try discriminate.
  destruct (assoc_get fields "_document_id") as [v|]; [|discriminate].
  intros ->. cbn [set_key]. destruct (truthy (JStr x)); auto.
Qed.

(** X15.  The cleaned file of open opportunities holds at most one
    document for an agency name and a reference: on the file that the
    scraper writes, [process_open_opportunities] followed by
    [remove_duplicates] (lines 318-319 of [run]) never raises, and no two
    documents of the result have the same organisation name and the same
    bidding identifier.  Opportunities of one agency that lack a
    reference all have the bidding identifier [""], so at most one of them
    is kept. *)
Theorem cleaned_file_one_document_per_reference
    (container_repr : json -> string) (str_lower md5_hexdigest : string -> string)
    (isoformat strftime_readable : Z -> string) (w : world)
    (harvest : list (agency * list open_opp)) (s : state) :
  Forall (fun ao => has_char "?" (agency_url (fst ao)) = false) harvest ->
  exists docs s' unique,
    process_open_opportunities container_repr str_lower md5_hexdigest
      isoformat strftime_readable w
      (JArr (map (fun ao => open_result_json (open_result_of (fst ao) (snd ao)))
                 harvest)) s
      = (Ret docs, s') /\
    remove_duplicates docs = Some unique /\
    sublist unique docs /\
    NoDup (map (fun d => (doc_field d "organization_name",
                          doc_field d "bidding_id")) unique).
Proof.
  intros Hurl. unfold process_open_opportunities.
  cbn [py_iter of_option]. unfold bind, ret at 1.
  destruct (process_agencies_open container_repr str_lower md5_hexdigest
              isoformat strftime_readable w harvest Hurl [] s)
    as (docs & s' & Hrun & _ & _ & Hall).
  cbn [app] in Hrun. rewrite Hrun.
  set (id_of := generate_document_id container_repr str_lower md5_hexdigest)
    in Hall.
  assert (Hid : Forall (fun d =>
                  doc_field d "_document_id"
                  = JStr (id_of (doc_field d "organization_name")
                                (doc_field d "bidding_id"))) docs).
  { clear -Hall. induction Hall as [|d ao docs l Hd _ IH]; constructor; [|exact IH].
    destruct Hd as (Ho & Hb & _ & _ & _ & _ & Hi & _).
    rewrite Hi, Ho, Hb. reflexivity. }
  destruct (remove_duplicates docs) as [unique|] eqn:Hrd.
  - exists docs, s', unique. split; [reflexivity|]. split; [exact Hrd|].
    destruct (remove_duplicates_loop_spec _ _ _ _ Hrd)
      as (new & Heq & Hsub & Hnd & Hkeys & _).
    cbn [app] in Heq. subst new. split; [exact Hsub|].
    assert (Hmap : omap document_key unique
                   = map (fun p => HStr (id_of (fst p) (snd p)))
                         (map (fun d => (doc_field d "organization_name",
                                         doc_field d "bidding_id")) unique)).
    { assert (Hid' : Forall (fun d =>
                  doc_field d "_document_id"
                  = JStr (id_of (doc_field d "organization_name")
                                (doc_field d "bidding_id"))) unique).
      { rewrite Forall_forall in Hid |- *. intros d Hd. apply Hid.
        eapply elem_of_sublist; [exact Hd | exact Hsub]. }
      clear -Hid' Hkeys.
      induction unique as [|d unique IH]; [reflexivity|].
      apply Forall_cons in Hid' as [Hd Hid'].
      apply Forall_cons in Hkeys as [(k & Hk & _) Hkeys].
      change (omap document_key (d :: unique))
        with (match document_key d with
              | Some y => y :: omap document_key unique
              | None => omap document_key unique
              end).
      destruct (doc_field_document_key d _ Hd) as [_ [Hnone|Hsome]];
        [congruence|].
      rewrite Hsome. cbn [map fst snd]. f_equal. now apply IH. }
    rewrite Hmap in Hnd.
    revert Hnd. generalize (map (fun d => (doc_field d "organization_name",
                                           doc_field d "bidding_id")) unique).
    intros l. induction l as [|p l IH]; intros Hnd; [constructor|].
    cbn [map] in Hnd. apply NoDup_cons in Hnd as [Hnot Hnd].
    constructor; [|now apply IH].
    intros Hin. apply Hnot. apply (proj2 (list_elem_of_In _ _)).
    apply (in_map (fun p => HStr (id_of (fst p) (snd p)))).
    exact (proj1 (list_elem_of_In _ _) Hin).
  - exfalso. apply remove_duplicates_loop_None in Hrd.
    apply existsb_exists in Hrd as (d & Hd & Hb).
    rewrite Forall_forall in Hid.
    destruct (doc_field_document_key d _ (Hid d (proj2 (list_elem_of_In _ _) Hd)))
      as [Hok _].
    congruence.
Qed.

Lemma cleaned_file_one_document_per_reference_witness :
  exists docs s' unique,
    process_open_opportunities Sample.no_repr Sample.ascii_upper Docs.digest
      Docs.stamp Docs.stamp Sample.at_morning
      (JArr (map (fun ao => open_result_json (open_result_of (fst ao) (snd ao)))
                 Docs.found)) initial_state
      = (Ret docs, s') /\
    remove_duplicates docs = Some unique /\
    sublist unique docs /\
    NoDup (map (fun d => (doc_field d "organization_name",
                          doc_field d "bidding_id")) unique).
Proof.
  apply (cleaned_file_one_document_per_reference Sample.no_repr
           Sample.ascii_upper Docs.digest Docs.stamp Docs.stamp
           Sample.at_morning Docs.found initial_state).
  repeat constructor.
Defined.

(** The parser on [Docs.found]: the opportunity whose project name is a
    number is dropped by [process_open_opportunities]; the two others
    lack a reference, so [remove_duplicates] keeps the first only. *)
Example parser_on_found :
  let docs :=
    fst (process_open_opportunities Sample.no_repr Sample.ascii_upper
           Docs.digest Docs.stamp Docs.stamp Sample.at_morning
           (JArr (map (fun ao => open_result_json
                                   (open_result_of (fst ao) (snd ao)))
                      Docs.found)) initial_state) in
  match docs with
  | Ret docs =>
      map (fun d => doc_field d "opportunity_name") docs
        = [JStr "Bridge & road"; JStr "Tunnel"] /\
      map (fun d => doc_field d "_document_id") docs
        = [JStr "md5(DELTA CORP_)"; JStr "md5(DELTA CORP_)"] /\
      option_map (map (fun d => doc_field d "opportunity_name"))
                 (remove_duplicates docs)
        = Some [JStr "Bridge & road"]
  | Raise => False
  end.
Proof. vm_compute. repeat split. Qed.

(** ** The pipeline of [main.py] *)

(** X16.  [main] leaves by [sys.exit(1)] exactly when the scraper is to
    run (neither [--parse-only] nor [--upload-only]) and the email or the
    password is missing.  Otherwise, without a flag the three phases run
    in the order scrape, parse, upload; with exactly one flag only the
    phase of that flag runs; with two or three flags no phase runs at all.
    A failed phase does not stop the phases after it, and the status
    reported is the conjunction of the results of the phases run, so it is
    SUCCESS when no phase ran. *)
Theorem main_phase_selection
    (scrape_only parse_only upload_only : bool)
    (email password : option string) (phase_ok : phase -> bool) :
  let flags :=
    Nat.b2n scrape_only + Nat.b2n parse_only + Nat.b2n upload_only in
  match main scrape_only parse_only upload_only email password phase_ok with
  | None =>
      parse_only = false /\ upload_only = false /\
      (missing email = true \/ missing password = true)
  | Some (ran, success) =>
      (parse_only = false /\ upload_only = false ->
       missing email = false /\ missing password = false) /\
      success = forallb phase_ok ran /\
      (flags = 0 -> ran = [Scrape; Parse; Upload]) /\
      (flags = 1 ->
       ran = (if scrape_only then [Scrape]
              else if parse_only then [Parse] else [Upload])) /\
      (2 <= flags -> ran = [] /\ success = true)
  end.
Proof.
  intros flags. subst flags. unfold main.
  destruct scrape_only, parse_only, upload_only, (missing email),
    (missing password);
    cbn [negb orb andb Nat.b2n Nat.add app forallb];
    rewrite ?andb_true_r;
    repeat split; try (intros; lia); try discriminate; try reflexivity;
    try (intros [? ?]; discriminate); auto;
    try (intros _; reflexivity).
  destruct (phase_ok Scrape), (phase_ok Parse), (phase_ok Upload); reflexivity.
Qed.

(** ** [insert_opportunities] *)

Lemma insert_loop_accounts write_of skip_duplicates opportunities :
  forall writes c,
    let '(c', writes') :=
      insert_loop write_of skip_duplicates opportunities writes c in
    inserted c' + skipped c' + failed c'
      = inserted c + skipped c + failed c + length opportunities /\
    writes' = writes + length (List.filter is_dict opportunities) /\
    failed c + length (List.filter (fun v => negb (is_dict v)) opportunities)
      <= failed c' /\
    (skip_duplicates = false ->
     (forall n, write_of n <> DuplicateKey) -> skipped c' = skipped c).
Proof.
  induction opportunities as [|opp rest IH]; intros writes c.
  - cbn. repeat split; lia.
  - cbn [insert_loop].
    assert (Hother :
      let '(c', writes') :=
        insert_loop write_of skip_duplicates rest writes
          {| inserted := inserted c; skipped := skipped c;
             failed := S (failed c) |} in
      is_dict opp = false ->
      inserted c' + skipped c' + failed c'
        = inserted c + skipped c + failed c + length (opp :: rest) /\
      writes' = writes + length (List.filter is_dict (opp :: rest)) /\
      failed c + length (List.filter (fun v => negb (is_dict v)) (opp :: rest))
        <= failed c' /\
      (skip_duplicates = false ->
       (forall n, write_of n <> DuplicateKey) -> skipped c' = skipped c)).
    { specialize (IH writes {| inserted := inserted c; skipped := skipped c;
                               failed := S (failed c) |}).
      destruct (insert_loop write_of skip_duplicates rest writes _) as [c' w'].
      intros Hd. cbn [List.filter length]. rewrite Hd. cbn [negb length].
      cbn [inserted skipped failed] in IH.
      destruct IH as (H1 & H2 & H3 & H4). repeat split; try lia. exact H4. }
    destruct opp as [| | | | |fields];
      try (destruct (insert_loop write_of skip_duplicates rest writes _);
           now apply Hother).
    clear Hother. cbn [List.filter is_dict negb length].
    match goal with
    | |- context [insert_loop _ _ rest (S writes) ?c0] =>
        specialize (IH (S writes) c0);
        destruct (insert_loop write_of skip_duplicates rest (S writes) c0)
          as [c' w']
    end.
    destruct IH as (H1 & H2 & H3 & H4).
    destruct (write_of writes) eqn:Hw, skip_duplicates;
      cbn [inserted skipped failed] in *;
      repeat split; try lia;
      intros Hs Hdup; try discriminate Hs;
      try (exfalso; exact (Hdup writes Hw));
      rewrite (H4 eq_refl Hdup); reflexivity.
Qed.

(** X17.  [insert_opportunities] raises only when the list is not empty
    and the collection cannot be obtained; for the empty list it returns
    zeros without touching the database.  When it returns, every entry
    is counted exactly once ([inserted + skipped + failed] is the length
    of the list), one write was made per dictionary entry, and the entries
    that are not dictionaries are counted as failed. *)
Theorem insert_opportunities_accounts
    (collection_ok : bool) (write_of : nat -> write_outcome)
    (opportunities : list json) (skip_duplicates : bool) :
  (insert_opportunities collection_ok write_of opportunities skip_duplicates
     = None <-> opportunities <> [] /\ collection_ok = false) /\
  (forall c writes,
     insert_opportunities collection_ok write_of opportunities skip_duplicates
       = Some (c, writes) ->
     inserted c + skipped c + failed c = length opportunities /\
     writes = length (List.filter is_dict opportunities) /\
     length (List.filter (fun v => negb (is_dict v)) opportunities) <= failed c /\
     (opportunities = [] -> c = {| inserted := 0; skipped := 0; failed := 0 |})).
Proof.
  unfold insert_opportunities. split.
  - destruct opportunities as [|opp rest].
    + split; [discriminate | intros [H _]; now destruct H].
    + destruct collection_ok.
      * split; [discriminate | intros [_ H]; discriminate H].
      * split; [intros _; split; [discriminate | reflexivity] | reflexivity].
  - intros c writes Hres.
    destruct opportunities as [|opp rest].
    + injection Hres as <- <-. cbn. repeat split; lia.
    + destruct collection_ok; [|discriminate Hres].
      pose proof (insert_loop_accounts write_of skip_duplicates (opp :: rest) 0
                    {| inserted := 0; skipped := 0; failed := 0 |}) as Hacc.
      destruct (insert_loop write_of skip_duplicates (opp :: rest) 0
                  {| inserted := 0; skipped := 0; failed := 0 |}) as [c0 w0].
      injection Hres as <- <-. cbn [inserted skipped failed] in Hacc.
      destruct Hacc as (H1 & H2 & H3 & _).
      repeat split; try lia. discriminate.
Qed.

(** ** More on the extractor, the deadline and discovery *)

Lemma lazy_group_wrapped (body after : string) :
  body <> "" -> has_char "<" body = false ->
  lazy_group (body +:+ close_tag +:+ after) = Some body.
Proof.
  induction body as [|c rest IH]; intros Hne Hno; [contradiction|].
  rewrite append_cons_l. cbn [lazy_group].
  unfold has_char in Hno. cbn [list_ascii_of_string existsb] in Hno.
  apply orb_false_iff in Hno as [_ Hrest].
  destruct rest as [|c' rest'].
  - rewrite append_nil_l, starts_with_app. reflexivity.
  - rewrite append_cons_l. unfold close_tag at 1.
    rewrite starts_with_head_differs.
    + rewrite <- append_cons_l, IH; [reflexivity | discriminate | exact Hrest].
    + intros <-. cbn [list_ascii_of_string existsb] in Hrest.
      rewrite Ascii.eqb_refl in Hrest. discriminate Hrest.
Qed.

(** X18.  A page that holds a text without [<] between [<pre>] and
    [</pre>], after a preamble without [<], is decoded to what
    [json.loads] makes of that text: the extractor undoes the wrapping of
    the browser, whatever follows the closing tag.  It returns the
    decoded value, nothing when the text is not JSON, and lets any other
    exception of [json.loads] through. *)
Theorem extract_json_from_page_wrapped
    (json_loads : string -> loads_result) (before body after : string) :
  has_char "<" before = false -> has_char "<" body = false -> body <> "" ->
  extract_json_from_page json_loads
    (before +:+ "<pre>" +:+ body +:+ "</pre>" +:+ after)
  = match json_loads body with
    | Decoded v => Some v
    | JSONDecodeError => Some JNull
    | OtherError => None
    end.
Proof.
  intros Hbefore Hbody Hne. unfold extract_json_from_page.
  assert (Hsearch : re_search_pre
                      (before +:+ "<pre>" +:+ body +:+ "</pre>" +:+ after)
                    = Some body).
  { induction before as [|c before IH].
    - rewrite append_nil_l.
      change ("<pre>" +:+ body +:+ "</pre>" +:+ after)
        with (String "<" ("pre>" +:+ body +:+ close_tag +:+ after)).
      cbn [re_search_pre].
      change (String "<" ("pre>" +:+ body +:+ close_tag +:+ after))
        with (open_tag +:+ (body +:+ close_tag +:+ after)).
      rewrite starts_with_app, drop_open_tag, lazy_group_wrapped by assumption.
      reflexivity.
    - unfold has_char in Hbefore. cbn [list_ascii_of_string existsb] in Hbefore.
      apply orb_false_iff in Hbefore as [Hc Hrest].
      rewrite append_cons_l. cbn [re_search_pre]. unfold open_tag at 1.
      rewrite starts_with_head_differs
        by (intros <-; rewrite Ascii.eqb_refl in Hc; discriminate Hc).
      apply IH. exact Hrest. }
  rewrite Hsearch. reflexivity.
Qed.

Lemma extract_json_from_page_wrapped_witness :
  extract_json_from_page Sample.json_loads
    ("HTTP 200 " +:+ "<pre>" +:+ "[1, 2]" +:+ "</pre>" +:+ "</body></html>")
  = match Sample.json_loads "[1, 2]" with
    | Decoded v => Some v
    | JSONDecodeError => Some JNull
    | OtherError => None
    end.
Proof.
  apply (extract_json_from_page_wrapped Sample.json_loads "HTTP 200 "
           "[1, 2]" "</body></html>"); [reflexivity | reflexivity | discriminate].
Defined.

(** X19.  The days left never grow as time passes and never shrink when
    the deadline is later; they are never more than the days between the
    clock and the deadline. *)
Theorem days_left_monotone (deadline deadline' now_ now' : Z) :
  (deadline <= deadline')%Z -> (now_ <= now')%Z ->
  (days_left deadline now' <= days_left deadline now_)%Z /\
  (days_left deadline now_ <= days_left deadline' now_)%Z /\
  (days_left deadline now_ * us_per_day <= Z.max 0 (deadline - now_))%Z.
Proof.
  intros Hd Hn. pose proof us_per_day_pos as Hpos.
  unfold days_left.
  assert (Hdiv : forall a b : Z, (a <= b -> a / us_per_day <= b / us_per_day)%Z)
    by (intros a b Hab; apply Z.div_le_mono; lia).
  assert (Hnn : forall a : Z, (0 <= a -> 0 <= a / us_per_day)%Z)
    by (intros a Ha; apply Z.div_pos; lia).
  assert (Hfloor : forall a : Z, (0 <= a -> a / us_per_day * us_per_day <= a)%Z).
  { intros a Ha. pose proof (Z.mul_div_le a us_per_day Hpos). lia. }
  repeat split.
  - destruct (deadline <=? now')%Z eqn:H1, (deadline <=? now_)%Z eqn:H2;
      try apply Z.leb_le in H1; try apply Z.leb_le in H2;
      try apply Z.leb_gt in H1; try apply Z.leb_gt in H2; try lia.
    + apply Hnn. lia.
    + apply Hdiv. lia.
  - destruct (deadline <=? now_)%Z eqn:H1, (deadline' <=? now_)%Z eqn:H2;
      try apply Z.leb_le in H1; try apply Z.leb_le in H2;
      try apply Z.leb_gt in H1; try apply Z.leb_gt in H2; try lia.
    + apply Hnn. lia.
    + apply Hdiv. lia.
  - destruct (deadline <=? now_)%Z eqn:H1;
      [apply Z.leb_le in H1 | apply Z.leb_gt in H1]; [lia|].
    specialize (Hfloor (deadline - now_)%Z). lia.
Qed.

Lemma days_left_monotone_witness :
  (days_left (Sample.morning + 4 * us_per_day) (Sample.morning + us_per_day)
   <= days_left (Sample.morning + 4 * us_per_day) Sample.morning)%Z /\
  (days_left (Sample.morning + 4 * us_per_day) Sample.morning
   <= days_left (Sample.morning + 9 * us_per_day) Sample.morning)%Z /\
  (days_left (Sample.morning + 4 * us_per_day) Sample.morning * us_per_day
   <= Z.max 0 (Sample.morning + 4 * us_per_day - Sample.morning))%Z.
Proof.
  apply (days_left_monotone (Sample.morning + 4 * us_per_day)
           (Sample.morning + 9 * us_per_day) Sample.morning
           (Sample.morning + us_per_day)); vm_compute; discriminate.
Defined.

Lemma concat_take_length {A} (n : nat) (f : string -> list A) (ls : list string) :
  length (concat (map (fun l => take n (f l)) ls)) <= n * length ls.
Proof.
  induction ls as [|l ls IH]; cbn [map concat length]; [lia|].
  rewrite length_app, length_take. lia.
Qed.

Lemma Forall2_map_in {A B} (P : A -> B -> Prop) (f : A -> B) (l : list A) :
  (forall x, x ∈ l -> P x (f x)) -> Forall2 P l (map f l).
Proof.
  induction l as [|x l IH]; intros H; cbn [map]; constructor.
  - apply H. left.
  - apply IH. intros y Hy. apply H. now right.
Qed.

(** In a list of blocks, one per letter and each made of agencies of its
    letter, the agencies of a letter are in the blocks of that letter. *)
Lemma blocks_letter_count (letter_of : agency -> option string) (n : nat)
    (letters : list string) (blocks : list (list agency)) (l : string) :
  Forall2 (fun l' block =>
             length block <= n /\
             Forall (fun a => letter_of a = Some l') block)
          letters blocks ->
  length (filter (fun a => letter_of a = Some l) (concat blocks))
    <= n * length (filter (fun l' => l' = l) letters).
Proof.
  induction 1 as [|l' block letters blocks [Hlen Hall] _ IH];
    cbn [concat]; [rewrite filter_nil; cbn; lia|].
  rewrite filter_app, length_app, filter_cons.
  destruct (decide (l' = l)) as [->|Hne].
  - pose proof (length_filter (fun a => letter_of a = Some l) block).
    cbn [length]. nia.
  - assert (Hnone : filter (fun a => letter_of a = Some l) block = []).
    { clear -Hall Hne. induction Hall as [|a block Ha _ IHb]; [reflexivity|].
      rewrite filter_cons, decide_False; [exact IHb|].
      rewrite Ha. intros [= ->]. now apply Hne. }
    rewrite Hnone. cbn [length]. lia.
Qed.

(** X20.  Discovery never raises, whatever the portal answers.  What it
    selects (also when the iteration budget of the model runs out) is
    one block per entry of [TARGET_LETTERS], in this order; the block of
    a letter holds at most [AGENCIES_PER_LETTER] agencies, all of that
    letter, each with a truthy name and an address that begins with
    [https://].  So the selection holds at most [AGENCIES_PER_LETTER]
    agencies of a letter for each time the letter occurs in
    [TARGET_LETTERS], and a letter listed twice has its block twice. *)
Theorem discovery_selection_bounds
    (json_loads : string -> loads_result) (str_upper : string -> string)
    (container_repr : json -> string) (w : world)
    (TARGET_LETTERS : list string)
    (AGENCIES_PER_LETTER MAX_RETRIES PAGE_LIMIT : nat)
    (ORGANIZATIONS_API : string) (fuel : nat) (s : state) :
  exists r s' (blocks : list (list agency)),
    fetch_agencies json_loads str_upper container_repr w TARGET_LETTERS
      AGENCIES_PER_LETTER MAX_RETRIES PAGE_LIMIT ORGANIZATIONS_API fuel s
      = (Ret r, s') /\
    exit_value r = concat blocks /\
    Forall2 (fun l block =>
               length block <= AGENCIES_PER_LETTER /\
               Forall (fun a =>
                         agency_letter str_upper a = Some l /\
                         truthy (agency_name a) = true /\
                         starts_with "https://" (agency_url a) = true)
                      block)
            TARGET_LETTERS blocks /\
    (forall l,
       length (filter (fun a => agency_letter str_upper a = Some l)
                      (exit_value r))
         <= AGENCIES_PER_LETTER
            * length (filter (fun l' => l' = l) TARGET_LETTERS)) /\
    length (exit_value r) <= AGENCIES_PER_LETTER * length TARGET_LETTERS.
Proof.
  destruct (fetch_loop_tracks json_loads str_upper container_repr w
              TARGET_LETTERS AGENCIES_PER_LETTER MAX_RETRIES PAGE_LIMIT
              ORGANIZATIONS_API fuel 1 (empty_buckets TARGET_LETTERS)
              (slept (Seconds 40) s) []
              (tracks_empty str_upper container_repr TARGET_LETTERS
                 AGENCIES_PER_LETTER))
    as (r & s' & pages & Heq & Htr & _).
  exists (match r with
          | Finished b =>
              Finished (select_agencies TARGET_LETTERS AGENCIES_PER_LETTER b)
          | OutOfFuel b =>
              OutOfFuel (select_agencies TARGET_LETTERS AGENCIES_PER_LETTER b)
          end), s',
    (map (fun l => take AGENCIES_PER_LETTER (bucket (exit_value r) l))
         TARGET_LETTERS).
  split; [rewrite fetch_agencies_eq, Heq; destruct r; reflexivity|].
  assert (Hsel : exit_value
                   (match r with
                    | Finished b =>
                        Finished (select_agencies TARGET_LETTERS AGENCIES_PER_LETTER b)
                    | OutOfFuel b =>
                        OutOfFuel (select_agencies TARGET_LETTERS AGENCIES_PER_LETTER b)
                    end)
                 = select_agencies TARGET_LETTERS AGENCIES_PER_LETTER (exit_value r))
    by (destruct r; reflexivity).
  rewrite Hsel, select_agencies_concat. clear Hsel.
  split; [reflexivity|].
  assert (Hblocks :
    Forall2 (fun l block =>
               length block <= AGENCIES_PER_LETTER /\
               Forall (fun a =>
                         agency_letter str_upper a = Some l /\
                         truthy (agency_name a) = true /\
                         starts_with "https://" (agency_url a) = true)
                      block)
            TARGET_LETTERS
            (map (fun l => take AGENCIES_PER_LETTER (bucket (exit_value r) l))
                 TARGET_LETTERS)).
  { apply Forall2_map_in. intros l Hl.
    split; [rewrite length_take; lia|].
    apply Forall_forall. intros a Ha.
    apply elem_of_take in Ha as (i & Ha & _).
    apply list_elem_of_lookup_2 in Ha.
    rewrite (tracks_bucket _ _ _ _ _ _ _ Htr Hl) in Ha.
    apply elem_of_take in Ha as (j & Ha & _).
    apply list_elem_of_lookup_2 in Ha.
    apply records_for_elem in Ha as (org & _ & Hrec).
    apply org_record_Some in Hrec
      as (_ & name & domain & fc & _ & _ & Hname & _ & Hfc & Hup & ->).
    unfold agency_letter. cbn [agency_name agency_url]. rewrite Hfc.
    split; [exact Hup|]. split; [exact Hname|].
    apply starts_with_app. }
  split; [exact Hblocks|].
  split; [|apply concat_take_length].
  intros l. apply blocks_letter_count.
  eapply Forall2_impl; [exact Hblocks|]. cbn beta.
  intros l' block [Hlen Hall]. split; [exact Hlen|].
  eapply Forall_impl; [exact Hall|]. cbn beta. intros a Ha. apply Ha.
Qed.

(** A letter listed twice has its block twice: the selection then holds
    the same agency twice. *)
Example discover_repeated_letter :
  fst (Sample.discover Sample.three_orgs ["D"; "D"] 1 5 initial_state)
  = Ret (Finished
           [ {| agency_name := JStr "Delta Corp";
                agency_url := "https://delta.example" |};
             {| agency_name := JStr "Delta Corp";
                agency_url := "https://delta.example" |} ]).
Proof. vm_compute. reflexivity. Qed.

(** ** The parser on the file of past opportunities *)

Section PastFacts.

Variable container_repr : json -> string.
Variable str_lower : string -> string.
Variable md5_hexdigest : string -> string.
Variable isoformat : Z -> string.
Variable strftime_readable : Z -> string.
Variable w : world.

Local Abbreviation parse_open :=
  (parse_open_opportunity container_repr str_lower md5_hexdigest isoformat
     strftime_readable w).
Local Abbreviation parse_past :=
  (parse_past_opportunity container_repr str_lower md5_hexdigest isoformat
     strftime_readable w).
Local Abbreviation deadline_of := (parse_deadline isoformat strftime_readable w).
Local Abbreviation id_of :=
  (generate_document_id container_repr str_lower md5_hexdigest).

(** One past opportunity of the scraper: it is dropped, with the state left as
    it was, unless its project name and its closing date are falsy or
    texts; otherwise its document carries the values of the scraper. *)
Lemma parse_past_on_opp (o : past_opp) (agency_name : json)
    (agency_url : string) (s : state) :
  if past_cleanable o then
    exists d s',
      parse_past (past_opp_json o) agency_name agency_url s = (Ret d, s') /\
      calls s' = calls s /\ log s' = log s /\
      doc_field d "organization_name" = agency_name /\
      doc_field d "bidding_id"
        = (if truthy (past_reference o) then past_reference o else JStr "") /\
      Some (doc_field d "opportunity_name")
        = clean_html_entities (past_project_name o) /\
      doc_field d "application_instructions"
        = JObj [ ("url", JStr (agency_url +:+ "/portal/?tab=pastOpportunities"));
                 ("method", JStr "Opportunity closed - historical record only") ] /\
      doc_field d "status" = JStr (past_status o) /\
      doc_field d "_document_id"
        = JStr (id_of agency_name
                  (if truthy (past_reference o) then past_reference o
                   else JStr "")) /\
      doc_field d "_source_url" = JStr agency_url
  else
    parse_past (past_opp_json o) agency_name agency_url s = (Raise, s).
Proof.
  unfold past_cleanable, parse_past_opportunity, past_opp_json.
  change (dict_get _ "Project Name" (JStr "")) with (past_project_name o).
  change (dict_get _ "Closed Date" (JStr "")) with (past_closed_date o).
  change (dict_get _ "Status" (JStr "Closed")) with (JStr (past_status o)).
  change (bidding_id_of _)
    with (if truthy (past_reference o) then past_reference o else JStr "").
  destruct (falsy_or_text (past_project_name o)) eqn:Hname; cbn [andb].
  - destruct (clean_html_entities_Some _ Hname) as (name & Hclean).
    rewrite Hclean. unfold bind at 1, of_option, ret at 1.
    pose proof (parse_deadline_run isoformat strftime_readable w (past_closed_date o) s) as Hdl.
    destruct (falsy_or_text (past_closed_date o)).
    + destruct Hdl as (dl & s1 & Hdl & Hc & Hl).
      eexists _, _.
      split; [unfold bind at 1; rewrite Hdl; unfold bind, now, ret; reflexivity|].
      cbn [calls log].
      repeat split; try assumption; reflexivity.
    + unfold bind at 1, of_option, ret at 1. unfold bind at 1.
      rewrite Hdl. reflexivity.
  - rewrite (clean_html_entities_None _ Hname). reflexivity.
Qed.


Lemma process_opps_past (a : agency) (opps : list past_opp) :
  forall cleaned s,
    exists docs s',
      process_opps parse_past (map past_opp_json opps) (agency_name a)
        (agency_url a) cleaned s = (Ret (cleaned ++ docs), s') /\
      calls s' = calls s /\ log s' = log s /\
      Forall2 (fun d o => past_document_of id_of a o d) docs
              (List.filter past_cleanable opps).
Proof.
  induction opps as [|o opps IH]; intros cleaned s.
  - exists [], s. cbn. rewrite app_nil_r. repeat split. constructor.
  - cbn [map process_opps List.filter]. unfold bind at 1, try_catch, bind at 1.
    pose proof (parse_past_on_opp o (agency_name a) (agency_url a) s) as Hone.
    destruct (past_cleanable o).
    + destruct Hone as (d & s1 & Hrun & Hc & Hl & Hfields).
      rewrite Hrun. unfold ret at 1.
      destruct (IH (cleaned ++ [d]) s1) as (docs & s' & Hrest & Hc' & Hl' & Hall).
      exists (d :: docs), s'. rewrite Hrest, <- app_assoc.
      split; [reflexivity|]. split; [congruence|]. split; [congruence|].
      constructor; [exact Hfields | exact Hall].
    + rewrite Hone. unfold ret at 1.
      destruct (IH cleaned s) as (docs & s' & Hrest & Hc' & Hl' & Hall).
      exists docs, s'. rewrite Hrest. repeat split; assumption.
Qed.

Lemma process_agencies_past (harvest : list (agency * list past_opp)) :
  Forall (fun ao => has_char "?" (agency_url (fst ao)) = false) harvest ->
  forall cleaned s,
    exists docs s',
      process_agencies parse_past "Agency Past Public Opportunity Url"
        "/portal/?tab=pastOpportunities" "Agency Past Public Opportunities"
        (map (fun ao => past_result_json (past_result_of (fst ao) (snd ao)))
             harvest)
        cleaned s = (Ret (cleaned ++ docs), s') /\
      calls s' = calls s /\ log s' = log s /\
      Forall2 (fun d ao => past_document_of id_of (fst ao) (snd ao) d) docs
              (flat_map (fun ao => map (pair (fst ao))
                                       (List.filter past_cleanable (snd ao)))
                        harvest).
Proof.
  induction harvest as [|[a opps] harvest IH]; intros Hurl cleaned s.
  - exists [], s. cbn. rewrite app_nil_r. repeat split. constructor.
  - apply Forall_cons in Hurl as [Ha Hurl]. cbn [fst snd] in Ha.
    cbn [map process_agencies flat_map fst snd].
    unfold past_result_json at 1, past_result_of at 1.
    cbn [past_url past_agency_name past_opportunities].
    change (dict_get _ "Agency Name" (JStr "Unknown")) with (agency_name a).
    change (dict_get _ "Agency Past Public Opportunity Url" (JStr ""))
      with (JStr (agency_url a +:+ "/portal/?tab=pastOpportunities")).
    change (dict_get _ "Agency Past Public Opportunities" (JArr []))
      with (JArr (map past_opp_json opps)).
    cbv iota.
    change "/portal/?tab=pastOpportunities"
      with ("/portal/?tab=" +:+ "pastOpportunities").
    rewrite (str_replace_tab "pastOpportunities" (agency_url a) Ha).
    cbn [py_iter of_option]. unfold bind at 1, ret at 1, bind at 1.
    destruct (process_opps_past a opps cleaned s)
      as (docs1 & s1 & Hrun1 & Hc1 & Hl1 & Hall1).
    rewrite Hrun1.
    destruct (IH Hurl (cleaned ++ docs1) s1)
      as (docs2 & s' & Hrun2 & Hc2 & Hl2 & Hall2).
    change ("/portal/?tab=" +:+ "pastOpportunities")
      with "/portal/?tab=pastOpportunities" in Hrun2 |- *.
    exists (docs1 ++ docs2), s'. rewrite Hrun2, <- app_assoc.
    split; [reflexivity|]. split; [congruence|]. split; [congruence|].
    apply Forall2_app; [|exact Hall2].
    clear -Hall1. induction Hall1; constructor; assumption.
Qed.

End PastFacts.

(** X21.  On the file of past opportunities that the scraper writes, for
    agencies whose address holds no question mark,
    [process_past_opportunities] never raises, makes no browser call and
    returns, in the order of the file, one document for every opportunity
    whose project name and closing date are falsy or texts; the other
    opportunities are dropped.  Each document carries the name of its
    agency, the reference and the status that the scraper derived, the
    address of the tab that the scraper recorded, and as source the
    address of the agency. *)
Theorem process_past_opportunities_on_harvest
    (container_repr : json -> string) (str_lower md5_hexdigest : string -> string)
    (isoformat strftime_readable : Z -> string) (w : world)
    (harvest : list (agency * list past_opp)) (s : state) :
  Forall (fun ao => has_char "?" (agency_url (fst ao)) = false) harvest ->
  exists docs s',
    process_past_opportunities container_repr str_lower md5_hexdigest
      isoformat strftime_readable w
      (JArr (map (fun ao => past_result_json (past_result_of (fst ao) (snd ao)))
                 harvest)) s
      = (Ret docs, s') /\
    calls s' = calls s /\ log s' = log s /\
    Forall2 (fun d ao =>
               past_document_of
                 (generate_document_id container_repr str_lower md5_hexdigest)
                 (fst ao) (snd ao) d)
            docs
            (flat_map (fun ao => map (pair (fst ao))
                                     (List.filter past_cleanable (snd ao)))
                      harvest).
Proof.
  intros Hurl. unfold process_past_opportunities.
  cbn [py_iter of_option]. unfold bind, ret at 1.
  destruct (process_agencies_past container_repr str_lower md5_hexdigest
              isoformat strftime_readable w harvest Hurl [] s)
    as (docs & s' & Hrun & Hc & Hl & Hall).
  exists docs, s'. rewrite Hrun. repeat split; assumption.
Qed.

(** The opportunity whose closing date is a number is dropped: [strptime]
    raises [TypeError] for it, which [parse_deadline] does not catch. *)
Lemma process_past_opportunities_on_harvest_witness :
  exists docs s',
    process_past_opportunities Sample.no_repr Sample.ascii_upper Docs.digest
      Docs.stamp Docs.stamp Sample.at_morning
      (JArr (map (fun ao => past_result_json (past_result_of (fst ao) (snd ao)))
                 Docs.archive)) initial_state
      = (Ret docs, s') /\
    calls s' = 0 /\ log s' = [] /\
    Forall2 (fun d ao =>
               past_document_of
                 (generate_document_id Sample.no_repr Sample.ascii_upper
                    Docs.digest)
                 (fst ao) (snd ao) d)
            docs
            [(Sample.delta, Docs.awarded)].
Proof.
  apply (process_past_opportunities_on_harvest Sample.no_repr
           Sample.ascii_upper Docs.digest Docs.stamp Docs.stamp
           Sample.at_morning Docs.archive initial_state).
  repeat constructor.
Defined.

(** ** The requests of the harvest *)

Section Budget.

Variable json_loads : string -> loads_result.
Variable container_repr : json -> string.
Variable writable : json -> bool.
Variable w : world.
Variable MAX_RETRIES : nat.

Local Abbreviation all_loop :=
  (scrape_all_loop json_loads container_repr writable w MAX_RETRIES).





End Budget.


(** The replacements are applied one after the other, so a text that was
    escaped twice is decoded twice. *)
Example clean_html_entities_examples :
  clean_html_entities (JStr "R&amp;D &lt;2025&gt;&nbsp;") = Some (JStr "R&D <2025>") /\
  clean_html_entities (JStr "&amp;lt;b&amp;gt;") = Some (JStr "<b>") /\
  clean_html_entities (JStr "   ") = Some (JStr "") /\
  clean_html_entities JNull = Some JNull /\
  clean_html_entities (JNum 7) = None.
Proof. repeat split; vm_compute; reflexivity. Qed.

(** ** The requests of discovery *)

Section Trace.

Variable json_loads : string -> loads_result.
Variable str_upper : string -> string.
Variable container_repr : json -> string.
Variable w : world.
Variable TARGET_LETTERS : list string.
Variable AGENCIES_PER_LETTER : nat.
Variable MAX_RETRIES : nat.
Variable PAGE_LIMIT : nat.
Variable ORGANIZATIONS_API : string.

Local Abbreviation loop :=
  (fetch_loop json_loads str_upper container_repr w TARGET_LETTERS
     AGENCIES_PER_LETTER MAX_RETRIES PAGE_LIMIT ORGANIZATIONS_API).
Local Abbreviation url_of := (page_url PAGE_LIMIT ORGANIZATIONS_API).
Local Abbreviation well_formed :=
  (fun blk : nat * bool =>
     fst blk <= MAX_RETRIES /\
     (snd blk = false -> fst blk = MAX_RETRIES) /\
     (snd blk = true -> fst blk < MAX_RETRIES)).

Lemma fetch_loop_trace fuel :
  forall page_num by_letter s,
    exists r s' (blocks : list (nat * bool)),
      loop fuel page_num by_letter s = (Ret r, s') /\
      log s' =
        log s ++ concat (imap (fun i blk =>
                                 page_block (url_of (page_num + i))
                                            (fst blk) (snd blk)) blocks) /\
      Forall well_formed blocks /\
      length blocks <= fuel.
Proof.
  induction fuel as [|fuel IH]; intros p b s.
  - exists (OutOfFuel b), s, []. cbn. rewrite app_nil_r.
    repeat split; [constructor | lia].
  - rewrite fetch_loop_S.
    destruct (all_full TARGET_LETTERS AGENCIES_PER_LETTER b).
    { exists (Finished b), s, []. cbn. rewrite app_nil_r.
      repeat split; [constructor | lia]. }
    assert (Hshift : forall blocks : list (nat * bool),
              imap (fun i blk => page_block (url_of (p + i)) (fst blk) (snd blk))
                   blocks
              = match blocks with
                | [] => []
                | blk :: rest =>
                    page_block (url_of p) (fst blk) (snd blk)
                    :: imap (fun i blk =>
                               page_block (url_of (p + 1 + i)) (fst blk) (snd blk))
                            rest
                end).
    { intros [|blk rest]; [reflexivity|].
      rewrite imap_cons, Nat.add_0_r. f_equal.
      apply imap_ext. intros i x _. unfold compose.
      now replace (p + S i) with (p + 1 + i) by lia. }
    destruct (page_attempts_run json_loads str_upper container_repr w
                TARGET_LETTERS AGENCIES_PER_LETTER MAX_RETRIES (url_of p) b s)
      as (k & Hk & _ & [[-> Heq]|[(Hlt & _ & Heq)|(Hlt & orgs & _ & Heq)]]);
      rewrite Heq.
    + destruct (IH (p + 1) b (retried MAX_RETRIES (url_of p) s))
        as (r & s' & blocks & Hrun & Hlog & Hwf & Hlen).
      exists r, s', ((MAX_RETRIES, false) :: blocks).
      split; [exact Hrun|]. split; [|split].
      * rewrite Hlog, log_retried, Hshift. cbn [concat fst snd].
        unfold page_block at 2. rewrite <- !app_assoc. reflexivity.
      * constructor; [|exact Hwf]. cbn. repeat split; [lia | discriminate].
      * cbn [length]. lia.
    + exists (Finished b), (fetched (url_of p) (retried k (url_of p) s)),
        [(k, true)].
      split; [reflexivity|]. split; [|split].
      * cbn [log fetched imap concat fst snd]. rewrite log_retried, Nat.add_0_r.
        unfold page_block. rewrite <- !app_assoc, app_nil_r. reflexivity.
      * constructor; [|constructor]. cbn. repeat split; [lia | discriminate | lia].
      * cbn [length]. lia.
    + destruct (IH (p + 1)
                  (foldl (process_org str_upper container_repr TARGET_LETTERS
                            AGENCIES_PER_LETTER) b orgs)
                  (fetched (url_of p) (retried k (url_of p) s)))
        as (r & s' & blocks & Hrun & Hlog & Hwf & Hlen).
      exists r, s', ((k, true) :: blocks).
      split; [exact Hrun|]. split; [|split].
      * rewrite Hlog, Hshift. cbn [log fetched concat fst snd].
        rewrite log_retried. unfold page_block at 2.
        rewrite <- !app_assoc. reflexivity.
      * constructor; [|exact Hwf]. cbn. repeat split; [lia | discriminate | lia].
      * cbn [length]. lia.
Qed.

End Trace.

(** X23.  Discovery waits 40 seconds and then asks for the pages 1, 2, 3
    and so on, one after the other: it never skips a page and never goes
    back to one.  The log of each page is its block: the attempts that
    raised, each followed by the fixed delay, and then the request of the
    attempt that decided, if any.  A page gets at most [MAX_RETRIES]
    requests, and exactly that many when every attempt raised. *)
Theorem discovery_trace
    (json_loads : string -> loads_result) (str_upper : string -> string)
    (container_repr : json -> string) (w : world)
    (TARGET_LETTERS : list string)
    (AGENCIES_PER_LETTER MAX_RETRIES PAGE_LIMIT : nat)
    (ORGANIZATIONS_API : string) (fuel : nat) (s : state) :
  exists r s' (blocks : list (nat * bool)),
    fetch_agencies json_loads str_upper container_repr w TARGET_LETTERS
      AGENCIES_PER_LETTER MAX_RETRIES PAGE_LIMIT ORGANIZATIONS_API fuel s
      = (Ret r, s') /\
    log s' =
      log s ++ EvSleep (Seconds 40) ::
      concat (imap (fun i blk =>
                      page_block (page_url PAGE_LIMIT ORGANIZATIONS_API (1 + i))
                                 (fst blk) (snd blk)) blocks) /\
    Forall (fun blk =>
              fst blk <= MAX_RETRIES /\
              (snd blk = false -> fst blk = MAX_RETRIES) /\
              (snd blk = true -> fst blk < MAX_RETRIES)) blocks /\
    length blocks <= fuel.
Proof.
  rewrite fetch_agencies_eq.
  destruct (fetch_loop_trace json_loads str_upper container_repr w
              TARGET_LETTERS AGENCIES_PER_LETTER MAX_RETRIES PAGE_LIMIT
              ORGANIZATIONS_API fuel 1 (empty_buckets TARGET_LETTERS)
              (slept (Seconds 40) s))
    as (r & s' & blocks & Hrun & Hlog & Hwf & Hlen).
  rewrite Hrun. cbn [log slept] in Hlog. rewrite <- app_assoc in Hlog.
  destruct r as [b|b]; eexists _, s', blocks;
    (split; [reflexivity|]); (split; [exact Hlog|]); split; assumption.
Qed.
